(** * DocuClear: the PDF viewer of [DocumentViewer.tsx], the upload and
    location bridge of [Analyzer.tsx], the library in [localStorage], the
    reply cleaning of [geminiService.ts] and the suggested questions of
    [ChatInterface.tsx], embedded in Rocq.

    Definitions, following the source:
    - [JsNumber]   : the binary64 numbers of JavaScript and the built-ins
                     [Math.max], [Math.min], truthiness, [Object.is];
    - [Zoom]       : [zoom] and the scale state of [DocumentViewer];
    - [Estimate]   : [handleDimensionsResolved] and [heightStyle];
    - [JsString]   : strings as UTF-16 code units, the regular expression of
                     [handleJumpToLocation], [String.prototype.replace] with
                     a string pattern, [parseInt];
    - [Location]   : [handleJumpToLocation] and the test of the location
                     effect;
    - [Viewer]     : the components [PdfPage] and [DocumentViewer] as one
                     transition system over the events the browser
                     delivers: new props, the decoder's answers, observer
                     callbacks, clicks;
    - [ViewerSpec], [Runs] : the notions and the runs the properties are
                     stated with;
    - [Toolbar]    : [Math.round], the zoom label and [handleKeyDown];
    - [References] : the links of the chat and the location buttons of the
                     analysis panel, which call [handleJumpToLocation];
    - [Types], [Storage] : the interfaces of the application and
                     [storageService] with the [Library] component;
    - [Upload]     : [validatePdfHeader], [handleFile], [startAnalysis];
    - [Gemini]     : [cleanString] and the fence stripping of
                     [analyzeDocument];
    - [Suggestions] : the suggested questions of [ChatInterface];
    - [Base64]     : base64 and [atob], and the bytes [loadPdf] hands to
                     the decoder;
    - [Reachable], [Rendering], [Lazy], [Samples] : further notions, runs
                     and sample values;
    - [Application] : the unmount of the viewer when the application
                     leaves the analysis view, and what outlives it.
    Properties come after the definitions, one module per subject. *)

From Stdlib Require Import ZArith NArith List Bool Lia.
From Stdlib Require Import Floats.SpecFloat.
From Stdlib Require Import Strings.String Strings.Ascii.
From stdpp Require Import base list.
Import ListNotations.

(* ===================================================================== *)
(** ** JavaScript numbers *)
(* ===================================================================== *)

Module JsNumber.

(** A JavaScript [number] is an IEEE 754 binary64 value.  [spec_float] is
    the Standard Library's executable specification of such values
    (sign, mantissa, exponent; one NaN). *)
Definition number := spec_float.

Definition prec : Z := 53.
Definition emax : Z := 1024.

Definition of_int (z : Z) : number := binary_normalize prec emax z 0 false.

Definition add : number -> number -> number := SFadd prec emax.
Definition sub : number -> number -> number := SFsub prec emax.
Definition mul : number -> number -> number := SFmul prec emax.
Definition div : number -> number -> number := SFdiv prec emax.
Definition neg : number -> number := SFopp.

(** A decimal literal [n/d] denotes the double nearest to the exact
    quotient, which correctly rounded division computes. *)
Definition literal (n d : Z) : number := div (of_int n) (of_int d).

Definition c0_1 : number := literal 1 10.   (* 0.1 *)
Definition c0_5 : number := literal 1 2.    (* 0.5 *)
Definition c0_9 : number := literal 9 10.   (* 0.9 *)
Definition c1_0 : number := literal 1 1.    (* 1.0 *)
Definition c2_5 : number := literal 5 2.    (* 2.5 *)

Definition NaN : number := S754_nan.

Definition is_nan (x : number) : bool :=
  match x with S754_nan => true | _ => false end.

(** [+Infinity] and [-Infinity], in either order: the only numbers whose
  sum is NaN. *)
Definition oppositeInfinities (a b : number) : bool :=
  match a, b with
  | S754_infinity s1, S754_infinity s2 => xorb s1 s2
  | _, _ => false
  end.

(** [a < b] and [a <= b] of JavaScript: false as soon as one side is NaN. *)
Definition lt (a b : number) : bool := SFltb a b.
Definition le (a b : number) : bool := SFleb a b.

(** [Math.max(a, b)], ECMAScript 21.3.2.24: NaN if either argument is
    NaN, +0 is larger than -0, otherwise the larger argument. *)
Definition Math_max (a b : number) : number :=
  match a, b with
  | S754_nan, _ | _, S754_nan => S754_nan
  | S754_zero true, S754_zero false => b
  | _, _ => if lt a b then b else a
  end.

(** [Math.min(a, b)], ECMAScript 21.3.2.25. *)
Definition Math_min (a b : number) : number :=
  match a, b with
  | S754_nan, _ | _, S754_nan => S754_nan
  | S754_zero false, S754_zero true => b
  | _, _ => if lt b a then b else a
  end.

(** [ToBoolean] on a number: false for +0, -0 and NaN. *)
Definition truthy (x : number) : bool :=
  match x with
  | S754_zero _ | S754_nan => false
  | _ => true
  end.

(** [Object.is] on numbers, the test React uses to skip a state update.
    [spec_float] has a single NaN and keeps the sign of zero, so it is
    structural equality. *)
Definition same_value (a b : number) : bool :=
  match a, b with
  | S754_zero s1, S754_zero s2 => Bool.eqb s1 s2
  | S754_infinity s1, S754_infinity s2 => Bool.eqb s1 s2
  | S754_nan, S754_nan => true
  | S754_finite s1 m1 e1, S754_finite s2 m2 e2 =>
      Bool.eqb s1 s2 && Pos.eqb m1 m2 && Z.eqb e1 e2
  | _, _ => false
  end.

End JsNumber.

(* ===================================================================== *)
(** ** Zoom: the [scale] state of [DocumentViewer] *)
(* ===================================================================== *)

Module Zoom.
Import JsNumber.

(** [const zoom = (delta: number) => {
       setScale(prev => Math.min(Math.max(0.5, prev + delta), 2.5)); };]
    The function handed to [setScale], from the previous scale to the
    next one. *)
Definition zoom (delta prev : number) : number :=
  Math_min (Math_max c0_5 (add prev delta)) c2_5.

(** [useState(1.0)] and, on a successful decode, [setScale(0.9)]. *)
Definition initialScale : number := c1_0.
Definition defaultScale : number := c0_9.

(** The two calls the controls make: [zoom(0.1)] and [zoom(-0.1)]. *)
Definition zoomIn : number -> number := zoom c0_1.
Definition zoomOut : number -> number := zoom (neg c0_1).

(** [n] clicks on the same control. *)
Fixpoint times (n : nat) (f : number -> number) (x : number) : number :=
  match n with
  | O => x
  | S k => times k f (f x)
  end.

(** [0.5 <= x && x <= 2.5]. *)
Definition in_range (x : number) : bool := le c0_5 x && le x c2_5.

(** Five clicks on zoom-in then eight on zoom-out from the default
    scale, and the closed formula for the same, both in binary64. *)
Definition thirteenClicks : number :=
  times 8 zoomOut (times 5 zoomIn defaultScale).

Definition accumulated : number :=
  Math_max c0_5
    (sub (add defaultScale (mul (of_int 5) c0_1)) (mul (of_int 8) c0_1)).

End Zoom.

(* ===================================================================== *)
(** ** The placeholder height estimate *)
(* ===================================================================== *)

Module Estimate.
Import JsNumber.

(** [useState<number | undefined>(undefined)]: [None] is [undefined]. *)
Definition estimate := option number.

Definition truthy_estimate (e : estimate) : bool :=
  match e with
  | Some h => truthy h
  | None => false
  end.

(** [const handleDimensionsResolved = useCallback((height: number) => {
       setEstimatedPageHeight(prev => prev ? prev : height); }, []);] *)
Definition handleDimensionsResolved (height : number) (prev : estimate)
  : estimate :=
  if truthy_estimate prev then prev else Some height.

Definition same_estimate (a b : estimate) : bool :=
  match a, b with
  | Some x, Some y => same_value x y
  | None, None => true
  | _, _ => false
  end.

(** The callback called with the heights [hs], one after the other. *)
Definition resolveAll (hs : list number) (e : estimate) : estimate :=
  fold_left (fun prev h => handleDimensionsResolved h prev) hs e.

(** How many of these calls change the state. *)
Fixpoint assignments (hs : list number) (e : estimate) : nat :=
  match hs with
  | [] => O
  | h :: rest =>
      let e' := handleDimensionsResolved h e in
      ((if same_estimate e e' then 0 else 1) + assignments rest e')%nat
  end.

(** [const heightStyle = pageHeight ? `${pageHeight}px`
      : (estimatedHeight ? `${estimatedHeight}px` : '600px');]
    as the number of pixels. *)
Definition heightStyle (pageHeight estimatedHeight : option number) : number :=
  if truthy_estimate pageHeight then default NaN pageHeight
  else if truthy_estimate estimatedHeight then default NaN estimatedHeight
  else of_int 600.

End Estimate.

(* ===================================================================== *)
(** ** JavaScript strings *)
(* ===================================================================== *)

Module JsString.

(** A JavaScript string is a sequence of UTF-16 code units. *)
Definition jsstring := list N.

(** An ASCII literal as a JavaScript string. *)
Definition lit (s : string) : jsstring :=
  map N_of_ascii (list_ascii_of_string s).

Local Open Scope N_scope.

(** The class [\s] of a regular expression, which is also the
    [StrWhiteSpaceChar] that [parseInt] skips: WhiteSpace and
    LineTerminator of ECMAScript. *)
Definition isWhiteSpace (c : N) : bool :=
  ((9 <=? c) && (c <=? 13)) || (c =? 32) || (c =? 160) || (c =? 5760)
  || ((8192 <=? c) && (c <=? 8202)) || (c =? 8232) || (c =? 8233)
  || (c =? 8239) || (c =? 8287) || (c =? 12288) || (c =? 65279).

(** The class [\d]: the ten ASCII digits. *)
Definition isDigit (c : N) : bool := (48 <=? c) && (c <=? 57).

(** A lower-case ASCII letter of a pattern under the flag [i] (without
    [u]): the letter and its upper-case form.  No code unit above 127
    canonicalizes to an ASCII letter. *)
Definition matchesLetter (lower c : N) : bool :=
  (c =? lower) || (c =? lower - 32).

Fixpoint skipWhiteSpace (s : jsstring) : jsstring :=
  match s with
  | c :: r => if isWhiteSpace c then skipWhiteSpace r else s
  | [] => []
  end.

Fixpoint takeDigits (s : jsstring) : jsstring :=
  match s with
  | c :: r => if isDigit c then c :: takeDigits r else []
  | [] => []
  end.

(** [[=]?] *)
Definition skipEquals (s : jsstring) : jsstring :=
  match s with
  | c :: r => if c =? 61 then r else s
  | [] => []
  end.

(** [/page\s*[=]?\s*(\d+)/i] anchored at the head of [s]: the text of
    group 1.  White space, [=] and digits are disjoint classes, so the
    greedy scan finds a match whenever backtracking would, and the same
    one. *)
Definition pageMatchAt (s : jsstring) : option jsstring :=
  match s with
  | p :: a :: g :: e :: r =>
      if matchesLetter 112 p && matchesLetter 97 a
         && matchesLetter 103 g && matchesLetter 101 e
      then match takeDigits (skipWhiteSpace (skipEquals (skipWhiteSpace r))) with
           | [] => None
           | d :: ds => Some (d :: ds)
           end
      else None
  | _ => None
  end.

(** [location.match(/page\s*[=]?\s*(\d+)/i)], the leftmost match:
    [None] is [null], [Some ds] is a match whose group 1 is [ds]. *)
Fixpoint pageMatch (s : jsstring) : option jsstring :=
  match pageMatchAt s with
  | Some ds => Some ds
  | None =>
      match s with
      | [] => None
      | _ :: r => pageMatch r
      end
  end.

(** [s.replace('#', '')]: a string pattern replaces its first occurrence
    only, wherever it is. *)
Fixpoint replaceFirstHash (s : jsstring) : jsstring :=
  match s with
  | [] => []
  | c :: r => if c =? 35 then r else c :: replaceFirstHash r
  end.

(** The integer a run of decimal digits denotes. *)
Definition decimal (ds : jsstring) : Z :=
  fold_left (fun acc c => (10 * acc + (Z.of_N c - 48))%Z) ds 0%Z.

(** [parseInt(s, 10)]: skip leading white space, read an optional sign,
    then the longest run of digits; [None] is NaN.  The result is kept as
    the exact integer: the viewer only compares it with a page count,
    which is far below 2^53, where binary64 is exact. *)
Definition parseInt (s : jsstring) : option Z :=
  let s1 := skipWhiteSpace s in
  let '(sign, s2) :=
    match s1 with
    | c :: r => if c =? 45 then ((-1)%Z, r)
                else if c =? 43 then (1%Z, r) else (1%Z, s1)
    | [] => (1%Z, s1)
    end in
  match takeDigits s2 with
  | [] => None
  | d :: ds => Some (sign * decimal (d :: ds))%Z
  end.

(** The strings the regular expression matches, as a decomposition:
    [pre], the word "page" in any case, white space, at most one [=],
    white space, the digits of group 1, and the rest, which does not
    go on with a digit. *)
Inductive PageRef (s ds : jsstring) : Prop :=
| page_ref (pre w1 eq w2 post : jsstring) (p a g e : N) :
    s = pre ++ [p; a; g; e] ++ w1 ++ eq ++ w2 ++ ds ++ post ->
    matchesLetter 112 p && matchesLetter 97 a
      && matchesLetter 103 g && matchesLetter 101 e = true ->
    forallb isWhiteSpace w1 = true ->
    eq = [] \/ eq = [61] ->
    forallb isWhiteSpace w2 = true ->
    ds <> [] ->
    forallb isDigit ds = true ->
    takeDigits post = [] ->
    PageRef s ds.

End JsString.

(* ===================================================================== *)
(** ** The location bridge *)
(* ===================================================================== *)

Module Location.
Import JsString.

(** [handleJumpToLocation] of [Analyzer.tsx]: the value handed to
    [setViewerLocation].
    [[
    let pageMatch = location.match(/page\s*[=]?\s*(\d+)/i);
    if (pageMatch && pageMatch[1]) setViewerLocation(pageMatch[1]);
    else setViewerLocation(location.replace('#', ''));
    ]] *)
Definition handleJumpToLocation (location : jsstring) : jsstring :=
  match pageMatch location with
  | Some (d :: ds) => d :: ds
  | _ => replaceFirstHash location
  end.

(** The test of the location effect of [DocumentViewer]:
    [[
    if (location && isPdf && numPages > 0) {
      const targetPage = parseInt(location, 10);
      if (!isNaN(targetPage) && targetPage > 0 && targetPage <= numPages) ...
    ]]
    [Some targetPage] when both conditions hold. *)
Definition targetPage (location : option jsstring) (isPdf : bool)
  (numPages : Z) : option Z :=
  match location with
  | Some (c :: l) =>
      if isPdf && (0 <? numPages)%Z then
        match parseInt (c :: l) with
        | Some t => if (0 <? t)%Z && (t <=? numPages)%Z then Some t else None
        | None => None
        end
      else None
  | _ => None
  end.

End Location.

(* ===================================================================== *)
(** ** The components [PdfPage] and [DocumentViewer] *)
(* ===================================================================== *)

Module Viewer.
Import JsNumber JsString.

(** *** Data *)

(** [useState<'password' | 'corrupt' | 'generic'>('generic')] *)
Inductive ErrorType := password | corrupt | generic.

(** What the decoder hands back: the document proxy of one load, of
    which the viewer reads [numPages]. *)
Record PdfDoc := mkPdfDoc { docId : nat; docNumPages : nat }.

(** A render task of the decoder: painting until it completes or is
    cancelled.  [cancel()] on a task that is no longer painting does
    nothing, and a cancelled task never completes. *)
Inductive TaskStatus := Painting | Cancelled | Completed.

Record RenderTask := mkRenderTask {
  taskInst : nat;          (* the page instance whose canvas it paints *)
  taskScale : number;      (* the scale of its viewport *)
  taskStatus : TaskStatus
}.

(** One activation of the async function [renderPage], suspended at one
    of its three [await]s. *)
Inductive Await :=
| AwaitCancel               (* await renderTaskRef.current.cancel() *)
| AwaitGetPage              (* await pdfDoc.getPage(pageNum) *)
| AwaitRender (t : nat)     (* await renderTask.promise *)
| Returned.                 (* left through return *)

Record RenderCall := mkRenderCall {
  callInst : nat;           (* the instance whose refs its closure holds *)
  callScale : number;       (* the scale its closure captured *)
  callAt : Await
}.

(** One mounted [PdfPage]; the page number is its position in the list
    of children plus one. *)
Record PdfPage := mkPdfPage {
  inst : nat;                       (* fresh at every mount *)
  isVisible : bool;                 (* useState(false) *)
  isRendered : bool;                (* useState(false) *)
  pageHeight : option number;       (* useState(undefined) *)
  renderTaskRef : option nat;       (* useRef(null): a task *)
  observing : bool;                 (* the observer is still connected *)
  seenDoc : option nat;             (* the pdfDoc and scale of the last *)
  seenScale : number;               (*   render: the effect's deps *)
  canvas : list nat                 (* tasks that finished painting on the
                                       canvas since it was last resized,
                                       latest first *)
}.

(** The state of [DocumentViewer]. *)
Record ViewerState := mkViewerState {
  src : jsstring;
  error : option string;
  errorType : ErrorType;
  loading : bool;
  workerReady : bool;
  pdfDoc : option PdfDoc;
  numPages : nat;
  scale : number;
  estimatedPageHeight : option number
}.

(** Its props. *)
Record Props := mkProps {
  fileData : jsstring;
  mimeType : string;
  location : option jsstring
}.

(** The viewer together with what is pending around it: the tasks of the
    decoder, the suspended activations of [renderPage], the loads in
    flight. *)
Record World := mkWorld {
  props : Props;
  state : ViewerState;
  pages : list PdfPage;             (* the mounted PdfPage children *)
  tasks : list RenderTask;          (* every task created so far *)
  calls : list RenderCall;          (* every renderPage activation *)
  pendingLoads : nat;               (* loadPdf activations at their await *)
  fresh : nat;                      (* next instance / document identity *)
  scrolled : list nat               (* pages on which scrollIntoView and
                                       focus were called, latest first *)
}.

(** *** State setters *)

Definition setSrc v (s : ViewerState) :=
  mkViewerState v (error s) (errorType s) (loading s) (workerReady s)
    (pdfDoc s) (numPages s) (scale s) (estimatedPageHeight s).
Definition setError v (s : ViewerState) :=
  mkViewerState (src s) v (errorType s) (loading s) (workerReady s)
    (pdfDoc s) (numPages s) (scale s) (estimatedPageHeight s).
Definition setErrorType v (s : ViewerState) :=
  mkViewerState (src s) (error s) v (loading s) (workerReady s)
    (pdfDoc s) (numPages s) (scale s) (estimatedPageHeight s).
Definition setLoading v (s : ViewerState) :=
  mkViewerState (src s) (error s) (errorType s) v (workerReady s)
    (pdfDoc s) (numPages s) (scale s) (estimatedPageHeight s).
Definition setWorkerReady v (s : ViewerState) :=
  mkViewerState (src s) (error s) (errorType s) (loading s) v
    (pdfDoc s) (numPages s) (scale s) (estimatedPageHeight s).
Definition setPdfDoc v (s : ViewerState) :=
  mkViewerState (src s) (error s) (errorType s) (loading s) (workerReady s)
    v (numPages s) (scale s) (estimatedPageHeight s).
Definition setNumPages v (s : ViewerState) :=
  mkViewerState (src s) (error s) (errorType s) (loading s) (workerReady s)
    (pdfDoc s) v (scale s) (estimatedPageHeight s).
Definition setScale (f : number -> number) (s : ViewerState) :=
  mkViewerState (src s) (error s) (errorType s) (loading s) (workerReady s)
    (pdfDoc s) (numPages s) (f (scale s)) (estimatedPageHeight s).
Definition setEstimatedPageHeight
  (f : option number -> option number) (s : ViewerState) :=
  mkViewerState (src s) (error s) (errorType s) (loading s) (workerReady s)
    (pdfDoc s) (numPages s) (scale s) (f (estimatedPageHeight s)).

Definition setIsVisible v (p : PdfPage) :=
  mkPdfPage (inst p) v (isRendered p) (pageHeight p) (renderTaskRef p)
    (observing p) (seenDoc p) (seenScale p) (canvas p).
Definition setIsRendered v (p : PdfPage) :=
  mkPdfPage (inst p) (isVisible p) v (pageHeight p) (renderTaskRef p)
    (observing p) (seenDoc p) (seenScale p) (canvas p).
Definition setPageHeight v (p : PdfPage) :=
  mkPdfPage (inst p) (isVisible p) (isRendered p) v (renderTaskRef p)
    (observing p) (seenDoc p) (seenScale p) (canvas p).
Definition setRenderTaskRef v (p : PdfPage) :=
  mkPdfPage (inst p) (isVisible p) (isRendered p) (pageHeight p) v
    (observing p) (seenDoc p) (seenScale p) (canvas p).
Definition disconnect (p : PdfPage) :=
  mkPdfPage (inst p) (isVisible p) (isRendered p) (pageHeight p)
    (renderTaskRef p) false (seenDoc p) (seenScale p) (canvas p).
Definition setSeen d sc (p : PdfPage) :=
  mkPdfPage (inst p) (isVisible p) (isRendered p) (pageHeight p)
    (renderTaskRef p) (observing p) d sc (canvas p).
Definition setCanvas v (p : PdfPage) :=
  mkPdfPage (inst p) (isVisible p) (isRendered p) (pageHeight p)
    (renderTaskRef p) (observing p) (seenDoc p) (seenScale p) v.

Definition withProps v (w : World) :=
  mkWorld v (state w) (pages w) (tasks w) (calls w) (pendingLoads w)
    (fresh w) (scrolled w).
Definition withState v (w : World) :=
  mkWorld (props w) v (pages w) (tasks w) (calls w) (pendingLoads w)
    (fresh w) (scrolled w).
Definition withPages v (w : World) :=
  mkWorld (props w) (state w) v (tasks w) (calls w) (pendingLoads w)
    (fresh w) (scrolled w).
Definition withTasks v (w : World) :=
  mkWorld (props w) (state w) (pages w) v (calls w) (pendingLoads w)
    (fresh w) (scrolled w).
Definition withCalls v (w : World) :=
  mkWorld (props w) (state w) (pages w) (tasks w) v (pendingLoads w)
    (fresh w) (scrolled w).
Definition withPendingLoads v (w : World) :=
  mkWorld (props w) (state w) (pages w) (tasks w) (calls w) v
    (fresh w) (scrolled w).
Definition withFresh v (w : World) :=
  mkWorld (props w) (state w) (pages w) (tasks w) (calls w)
    (pendingLoads w) v (scrolled w).
Definition withScrolled v (w : World) :=
  mkWorld (props w) (state w) (pages w) (tasks w) (calls w)
    (pendingLoads w) (fresh w) v.

(** [const isPdf = mimeType === 'application/pdf';] *)
Definition isPdf (w : World) : bool :=
  String.eqb (mimeType (props w)) "application/pdf".

(** *** The decoder's tasks *)

Definition setStatus v (t : RenderTask) :=
  mkRenderTask (taskInst t) (taskScale t) v.

(** [task.cancel()] *)
Definition cancel (t : RenderTask) : RenderTask :=
  match taskStatus t with
  | Painting => setStatus Cancelled t
  | _ => t
  end.

(** [if (renderTaskRef.current) renderTaskRef.current.cancel();] *)
Definition cancelRef (r : option nat) (ts : list RenderTask)
  : list RenderTask :=
  match r with
  | Some t => alter cancel t ts
  | None => ts
  end.

(** *** [PdfPage]: the rendering effect *)

(** The cleanup the effect returned on its previous run:
    [[ return () => { if (renderTaskRef.current)
                        renderTaskRef.current.cancel(); }; ]]
    A run that left through the guard installed no cleanup; the ref is
    then still [null], and the cleanup modelled here does nothing. *)
Definition effectCleanup (p : PdfPage) (ts : list RenderTask)
  : list RenderTask :=
  cancelRef (renderTaskRef p) ts.

(** The body of the effect, up to the first [await] of [renderPage]:
    [[
    if (!isVisible || !pdfDoc || !canvasRef.current) return;
    const renderPage = async () => { try {
        if (renderTaskRef.current) { await renderTaskRef.current.cancel(); }
        const page = await pdfDoc.getPage(pageNum); ...
    ]]
    A mounted page has its canvas.  The result is the task store after
    the call to [cancel] and the new activation, if one started. *)
Definition effectBody (doc : option PdfDoc) (sc : number) (p : PdfPage)
  (ts : list RenderTask) : list RenderTask * option RenderCall :=
  match doc with
  | Some _ =>
      if isVisible p then
        match renderTaskRef p with
        | Some t => (alter cancel t ts, Some (mkRenderCall (inst p) sc AwaitCancel))
        | None => (ts, Some (mkRenderCall (inst p) sc AwaitGetPage))
        end
      else (ts, None)
  | None => (ts, None)
  end.

(** One run of the effect: the cleanup of the previous run, then the
    body. *)
Definition runEffect (doc : option PdfDoc) (sc : number) (p : PdfPage)
  (ts : list RenderTask) (cs : list RenderCall)
  : list RenderTask * list RenderCall :=
  let '(ts', c) := effectBody doc sc p (effectCleanup p ts) in
  (ts', cs ++ option_list c).

Definition sameDoc (a : option nat) (b : option PdfDoc) : bool :=
  match a, b with
  | Some x, Some d => Nat.eqb x (docId d)
  | None, None => true
  | _, _ => false
  end.

(** A page rendered again with the props [pdfDoc] and [scale]: the effect
    runs if one of its deps [[isVisible, pdfDoc, pageNum, scale]]
    changed. *)
Definition rerender (doc : option PdfDoc) (sc : number) (p : PdfPage)
  (ts : list RenderTask) (cs : list RenderCall)
  : PdfPage * list RenderTask * list RenderCall :=
  if sameDoc (seenDoc p) doc && same_value (seenScale p) sc
  then (p, ts, cs)
  else let '(ts', cs') := runEffect doc sc p ts cs in
       (setSeen (option_map docId doc) sc p, ts', cs').

Fixpoint rerenderAll (doc : option PdfDoc) (sc : number)
  (ps : list PdfPage) (ts : list RenderTask) (cs : list RenderCall)
  : list PdfPage * list RenderTask * list RenderCall :=
  match ps with
  | [] => ([], ts, cs)
  | p :: rest =>
      let '(p', ts1, cs1) := rerender doc sc p ts cs in
      let '(rest', ts2, cs2) := rerenderAll doc sc rest ts1 cs1 in
      (p' :: rest', ts2, cs2)
  end.

(** Unmounting pages runs the cleanup of each. *)
Definition unmountAll (ps : list PdfPage) (ts : list RenderTask)
  : list RenderTask :=
  fold_left (fun acc p => effectCleanup p acc) ps ts.

(** A page at its mount: the effect runs, and leaves through the guard
    since [isVisible] is false. *)
Definition mountPage (i : nat) (doc : option PdfDoc) (sc : number) : PdfPage :=
  mkPdfPage i false false None None true (option_map docId doc) sc [].

(** *** [DocumentViewer]: what it renders *)

(** The number of [PdfPage] children of the rendered tree: none on the
    error screen, none for an image, none without a document, else
    [Array.from(new Array(numPages), ...)]. *)
Definition renderedPages (w : World) : nat :=
  match error (state w) with
  | Some _ => 0
  | None =>
      if isPdf w then
        match pdfDoc (state w) with
        | Some _ => numPages (state w)
        | None => 0
        end
      else 0
  end.

(** React's commit of a render: children whose key is no longer rendered
    are unmounted, children that stay are rendered again, new ones are
    mounted. *)
Definition reconcile (w : World) : World :=
  let n := renderedPages w in
  let doc := pdfDoc (state w) in
  let sc := scale (state w) in
  let ts0 := unmountAll (drop n (pages w)) (tasks w) in
  let '(kept, ts1, cs1) := rerenderAll doc sc (take n (pages w)) ts0 (calls w) in
  let missing := n - length kept in
  let mounted := map (fun i => mountPage (fresh w + i) doc sc) (seq 0 missing) in
  mkWorld (props w) (state w) (kept ++ mounted) ts1 cs1 (pendingLoads w)
    (fresh w + missing) (scrolled w).

(** *** [DocumentViewer]: the location effect *)

Definition sameLocation (a b : option jsstring) : bool :=
  match a, b with
  | Some x, Some y => bool_decide (x = y)
  | None, None => true
  | _, _ => false
  end.

(** The body of the effect:
    [[
    const pageEl = document.getElementById(`page-${targetPage}`);
    if (pageEl) { pageEl.scrollIntoView(...); pageEl.focus(); }
    ]]
    The element exists when that page is among the mounted children. *)
Definition jumpToLocation (w : World) : World :=
  match Location.targetPage (location (props w)) (isPdf w)
          (Z.of_nat (numPages (state w))) with
  | Some t =>
      match pages w !! (Z.to_nat t - 1) with
      | Some _ => withScrolled (Z.to_nat t :: scrolled w) w
      | None => w
      end
  | None => w
  end.

(** The effect runs after a commit in which one of its deps
    [[location, numPages, isPdf]] differs from the previous commit. *)
Definition locationEffect (before w : World) : World :=
  if sameLocation (location (props before)) (location (props w))
     && Nat.eqb (numPages (state before)) (numPages (state w))
     && Bool.eqb (isPdf before) (isPdf w)
  then w
  else jumpToLocation w.

(** *** [DocumentViewer]: loading *)

(** The load effect, up to the [await] of [loadPdf]:
    [[
    if (!fileData || (isPdf && !workerReady)) return;
    setError(null); setPdfDoc(null); setNumPages(0);
    setEstimatedPageHeight(undefined);
    if (isPdf) { ... setLoading(true); ... await loadingTask.promise ... }
    else { setSrc(`data:${mimeType};base64,${fileData}`); }
    ]]
    [src] keeps the base64 text of the data URL. *)
Definition loadEffect (w : World) : World :=
  match fileData (props w) with
  | [] => w
  | _ :: _ =>
      if isPdf w && negb (workerReady (state w)) then w
      else
        let s := setEstimatedPageHeight (fun _ => None)
                   (setNumPages 0 (setPdfDoc None (setError None (state w)))) in
        if isPdf w
        then withPendingLoads (S (pendingLoads w))
               (withState (setLoading true s) w)
        else withState (setSrc (fileData (props w)) s) w
  end.

(** The [catch] of [loadPdf]: the message and the kind, from [err.name]. *)
Definition classify (name : string) : string * ErrorType :=
  if String.eqb name "PasswordException" then
    ("This document is password protected. Please remove the password and try again."%string,
     password)
  else if String.eqb name "InvalidPDFException"
          || String.eqb name "MissingPDFException" then
    ("The PDF file appears to be corrupted or invalid. Please try another file."%string,
     corrupt)
  else
    ("Could not render this document. It may be using an unsupported format or feature."%string,
     generic).

(** [loadPdf] after [await loadingTask.promise] returned [doc]:
    [[ setPdfDoc(doc); setNumPages(doc.numPages); setScale(0.9);
       setLoading(false); ]] *)
Definition loadPdfSucceeds (doc : PdfDoc) (s : ViewerState) : ViewerState :=
  setLoading false
    (setScale (fun _ => Zoom.defaultScale)
       (setNumPages (docNumPages doc) (setPdfDoc (Some doc) s))).

(** [loadPdf] in its [catch]:
    [[ setLoading(false); setError(...); setErrorType(...); ]] *)
Definition loadPdfFails (name : string) (s : ViewerState) : ViewerState :=
  let '(message, kind) := classify name in
  setErrorType kind (setError (Some message) (setLoading false s)).

(** What the screen shows, from the state: the error screen replaces
    everything; the overlay is up while [loading]. *)
Inductive LoadState := Idle | Loading | Ready | Error (kind : ErrorType).

Definition loadState (s : ViewerState) : LoadState :=
  match error s with
  | Some _ => Error (errorType s)
  | None =>
      if loading s then Loading
      else match pdfDoc s with
           | Some _ => Ready
           | None => Idle
           end
  end.

(** *** Events *)

Inductive Event :=
| WorkerInitialized                      (* initWorker: setWorkerReady(true) *)
| NewDocument (data : jsstring) (mime : string)
                                         (* new props fileData, mimeType *)
| DecodeSucceeds (n : nat)               (* loadingTask.promise resolves *)
| DecodeFails (name : string)            (* the try block throws err *)
| ImageFails                             (* onError of the img *)
| ZoomBy (delta : number)                (* zoom(delta) *)
| Intersects (k : nat) (isIntersecting : bool)
                                         (* the observer of page k+1 fires *)
| Resumes (c : nat) (height : number)    (* the promise activation c awaits
                                            resolves; for getPage, with the
                                            viewport height at its scale *)
| TaskCompletes (t : nat)                (* the decoder finishes task t *)
| Jump (ref : jsstring).                 (* onReferenceClick(ref) *)

Definition updateInst (i : nat) (f : PdfPage -> PdfPage)
  (ps : list PdfPage) : list PdfPage :=
  map (fun p => if Nat.eqb (inst p) i then f p else p) ps.

Definition isMounted (i : nat) (ps : list PdfPage) : bool :=
  existsb (fun p => Nat.eqb (inst p) i) ps.

(** The load effect ran: render, then the location effect. *)
Definition afterLoadEffect (before : World) (w : World) : World :=
  locationEffect before (reconcile w).

(** [renderPage] from [await pdfDoc.getPage(pageNum)] to
    [await renderTask.promise]:
    [[
    const viewport = page.getViewport({ scale });
    const currentHeight = viewport.height;
    setPageHeight(currentHeight);
    if (onDimensionsResolved) onDimensionsResolved(currentHeight);
    const canvas = canvasRef.current;
    if (!canvas) return;
    ...
    canvas.height = currentHeight; canvas.width = viewport.width;
    const renderTask = page.render(renderContext);
    renderTaskRef.current = renderTask;
    ]]
    The elided lines take the 2d context of the canvas, which a canvas
    has.  After the unmount of its instance [setPageHeight] does nothing
    and [canvasRef.current] is [null]. *)
Definition gotPage (c : nat) (call : RenderCall) (height : number)
  (w : World) : World :=
  let i := callInst call in
  let ps := updateInst i (setPageHeight (Some height)) (pages w) in
  let s := setEstimatedPageHeight
             (Estimate.handleDimensionsResolved height) (state w) in
  if isMounted i (pages w) then
    let t := length (tasks w) in
    let ps' := updateInst i (fun p => setRenderTaskRef (Some t) (setCanvas [] p)) ps in
    mkWorld (props w) s ps'
      (tasks w ++ [mkRenderTask i (callScale call) Painting])
      (<[c := mkRenderCall i (callScale call) (AwaitRender t)]> (calls w))
      (pendingLoads w) (fresh w) (scrolled w)
  else
    mkWorld (props w) s ps (tasks w)
      (<[c := mkRenderCall i (callScale call) Returned]> (calls w))
      (pendingLoads w) (fresh w) (scrolled w).

(** The observer callback of page [k+1]:
    [[ if (entry.isIntersecting) { setIsVisible(true);
                                   observer.disconnect(); } ]]
    and the render it causes: [isVisible] is a dep of the effect. *)
Definition intersects (k : nat) (isIntersecting : bool) (w : World) : World :=
  match pages w !! k with
  | Some p =>
      if observing p && isIntersecting then
        let p' := disconnect (setIsVisible true p) in
        if isVisible p then withPages (<[k := p']> (pages w)) w
        else
          let '(ts, cs) :=
            runEffect (pdfDoc (state w)) (scale (state w)) p' (tasks w) (calls w) in
          withCalls cs (withTasks ts (withPages (<[k := p']> (pages w)) w))
      else w
  | None => w
  end.

(** The decoder finishes painting task [t]; [renderPage] continues with
    [setIsRendered(true)]. *)
Definition taskCompletes (t : nat) (w : World) : World :=
  match tasks w !! t with
  | Some T =>
      match taskStatus T with
      | Painting =>
          withPages
            (updateInst (taskInst T)
               (fun p => setIsRendered true (setCanvas (t :: canvas p) p))
               (pages w))
            (withTasks (<[t := setStatus Completed T]> (tasks w)) w)
      | _ => w
      end
  | None => w
  end.

(** One event. *)
Definition step (e : Event) (w : World) : World :=
  match e with
  | WorkerInitialized =>
      if workerReady (state w) then w
      else
        let w1 := withState (setWorkerReady true (state w)) w in
        afterLoadEffect w1 (loadEffect w1)
  | NewDocument data mime =>
      let w1 := withProps (mkProps data mime (location (props w))) w in
      if bool_decide (data = fileData (props w))
         && String.eqb mime (mimeType (props w))
      then w
      else
        let w2 := locationEffect w (reconcile w1) in
        afterLoadEffect w2 (loadEffect w2)
  | DecodeSucceeds n =>
      match pendingLoads w with
      | O => w
      | S k =>
          let doc := mkPdfDoc (fresh w) n in
          let w1 := withFresh (S (fresh w))
                      (withPendingLoads k
                         (withState (loadPdfSucceeds doc (state w)) w)) in
          locationEffect w (reconcile w1)
      end
  | DecodeFails name =>
      match pendingLoads w with
      | O => w
      | S k =>
          let w1 := withPendingLoads k
                      (withState (loadPdfFails name (state w)) w) in
          locationEffect w (reconcile w1)
      end
  | ImageFails =>
      match error (state w) with
      | Some _ => w
      | None =>
          if isPdf w then w
          else
            let w1 := withState
                        (setError (Some "Image could not be loaded."%string)
                           (state w)) w in
            locationEffect w (reconcile w1)
      end
  | ZoomBy delta =>
      match error (state w) with
      | Some _ => w
      | None =>
          let w1 := withState (setScale (Zoom.zoom delta) (state w)) w in
          let '(ps, ts, cs) :=
            rerenderAll (pdfDoc (state w1)) (scale (state w1))
              (pages w1) (tasks w1) (calls w1) in
          withCalls cs (withTasks ts (withPages ps w1))
      end
  | Intersects k b => intersects k b w
  | Resumes c height =>
      match calls w !! c with
      | Some call =>
          match callAt call with
          | AwaitCancel =>
              withCalls
                (<[c := mkRenderCall (callInst call) (callScale call) AwaitGetPage]>
                   (calls w)) w
          | AwaitGetPage => gotPage c call height w
          | _ => w
          end
      | None => w
      end
  | TaskCompletes t => taskCompletes t w
  | Jump ref =>
      let w1 := withProps
                  (mkProps (fileData (props w)) (mimeType (props w))
                     (Some (Location.handleJumpToLocation ref))) w in
      locationEffect w w1
  end.

Definition run (es : list Event) (w : World) : World :=
  fold_left (fun acc e => step e acc) es w.

(** The component at its mount, with the props of the first render: the
    state of the [useState] calls, then the load effect. *)
Definition mount (data : jsstring) (mime : string) : World :=
  let w := mkWorld (mkProps data mime None)
             (mkViewerState [] None generic false false None 0
                Zoom.initialScale None)
             [] [] [] 0 0 [] in
  afterLoadEffect w (loadEffect w).

End Viewer.

(* ===================================================================== *)
(** ** Notions used to state the properties of the viewer *)
(* ===================================================================== *)

Module ViewerSpec.
Import JsNumber JsString Viewer.

(** [ps'] still has every page of [ps], the same instance at the same
    place, and visible if it was. *)
Definition keeps (ps ps' : list PdfPage) : Prop :=
  forall k p, ps !! k = Some p ->
    exists p', ps' !! k = Some p' /\ inst p' = inst p
               /\ (isVisible p = true -> isVisible p' = true).

(** A function on pages that keeps the instance and does not hide it. *)
Definition gentle (f : PdfPage -> PdfPage) : Prop :=
  forall p, inst (f p) = inst p /\ (isVisible p = true -> isVisible (f p) = true).

(** The pages [rerenderAll] returns: each page by itself. *)
Definition seen (doc : option PdfDoc) (sc : number) (p : PdfPage) : PdfPage :=
  if sameDoc (seenDoc p) doc && same_value (seenScale p) sc then p
  else setSeen (option_map docId doc) sc p.

(** The events of one document session: everything but new props. *)
Definition sameSession (e : Event) : Prop :=
  match e with
  | NewDocument _ _ => False
  | _ => True
  end.

(** A PDF is shown and no load is pending. *)
Definition settled (w : World) : Prop :=
  isPdf w = true /\ workerReady (state w) = true /\ pendingLoads w = 0.

(** [t] is the number of one of [n] pages. *)
Definition inRange (t : Z) (n : nat) : bool :=
  (0 <? t)%Z && (t <=? Z.of_nat n)%Z.

(** The page the location of the viewer designates. *)
Definition designated (w : World) : option Z :=
  Location.targetPage (location (props w)) (isPdf w) (Z.of_nat (numPages (state w))).

(** [ts'] has every task of [ts], the same task at the same place; a
    task that no longer paints keeps its status. *)
Definition evolves (ts ts' : list RenderTask) : Prop :=
  forall t T, ts !! t = Some T ->
    exists T', ts' !! t = Some T' /\ taskInst T' = taskInst T
               /\ taskScale T' = taskScale T
               /\ (taskStatus T <> Painting -> taskStatus T' = taskStatus T).

(** The same, and a task that painted either still paints or was
    cancelled: nothing completed. *)
Definition onlyCancels (ts ts' : list RenderTask) : Prop :=
  forall t T, ts !! t = Some T ->
    exists T', ts' !! t = Some T' /\ taskInst T' = taskInst T
               /\ taskScale T' = taskScale T
               /\ (taskStatus T' = taskStatus T
                   \/ (taskStatus T = Painting /\ taskStatus T' = Cancelled)).

(** The mounted pages are the pages the state asks for. *)
Definition consistent (w : World) : Prop :=
  length (pages w) = renderedPages w.

(** A zoom whose delta is a number. *)
Definition numericDelta (e : Event) : Prop :=
  match e with
  | ZoomBy delta => is_nan delta = false
  | _ => True
  end.

End ViewerSpec.

(* ===================================================================== *)
(** ** Runs of the viewer *)
(* ===================================================================== *)

Module Runs.
Import JsNumber JsString Viewer.
Local Open Scope string_scope.

(** A PDF being decoded. *)
Definition loadingWorld : World :=
  step WorkerInitialized (mount (lit "JVBERi0xLjQK") "application/pdf").

(** A viewer that is first given a password-protected PDF and then an
    image that fails to load. *)
Definition passwordThenImage : list Event :=
  [ WorkerInitialized;
    DecodeFails "PasswordException";
    NewDocument (lit "iVBORw0KGgo=") "image/png";
    ImageFails ].

(** A three-page document whose first page has come into view. *)
Definition firstPageVisible : World :=
  run [WorkerInitialized; DecodeSucceeds 3; Intersects 0 true]
    (mount (lit "JVBERi0xLjQK") "application/pdf").

Definition scrollingAbout : list Event :=
  [ Intersects 0 false; ZoomBy c0_1; Resumes 0 (of_int 713);
    Intersects 1 true; Resumes 1 (of_int 792); Intersects 0 false;
    TaskCompletes 0; Jump (lit "page 3"); ZoomBy (neg c0_1);
    Intersects 0 true; Intersects 2 true; Intersects 0 false ].

(** A three-page document, ready. *)
Definition threePages : World :=
  run [WorkerInitialized; DecodeSucceeds 3]
    (mount (lit "JVBERi0xLjQK") "application/pdf").

(** One page; it comes into view, and the user zooms while the first
    [renderPage] still waits for [getPage]; both activations then get
    their page and start a task; the second task completes, then the
    first. *)
Definition zoomBeforeGetPage : list Event :=
  [ WorkerInitialized; DecodeSucceeds 1; Intersects 0 true; ZoomBy c0_1 ].

Definition bothRender : list Event :=
  [ Resumes 0 (of_int 713); Resumes 1 (of_int 792);
    TaskCompletes 1; TaskCompletes 0 ].

(** Two pages of a first document; the first page comes into view and
    its [renderPage] waits for [getPage] when the props change to a
    second document. *)
Definition reloadBeforeGetPage : list Event :=
  [ WorkerInitialized; DecodeSucceeds 2; Intersects 0 true;
    NewDocument (lit "JVBERi0xLjcK") "application/pdf" ].

(** Then [getPage] of the first document resolves, and the second
    document, of three pages, is decoded. *)
Definition staleGetPage : list Event :=
  [ Resumes 0 (of_int 713); DecodeSucceeds 3 ].

(** After [zoomBeforeGetPage], both activations start their task; with
    both tasks painting the user zooms again; the third activation
    returns from its [await] of [cancel()], gets its page, and its task
    completes; then the first task completes. *)
Definition thirdRender : list Event :=
  [ Resumes 0 (of_int 713); Resumes 1 (of_int 792); ZoomBy c0_1;
    Resumes 2 (of_int 0); Resumes 2 (of_int 871);
    TaskCompletes 2; TaskCompletes 0 ].

(** After [zoomBeforeGetPage], both activations start their task, and
    with both tasks painting the props change to a second document. *)
Definition reloadWithTwoTasks : list Event :=
  zoomBeforeGetPage
  ++ [ Resumes 0 (of_int 713); Resumes 1 (of_int 792);
       NewDocument (lit "JVBERi0xLjcK") "application/pdf" ].

(** What follows the first page height in a session: a zoom, the second
    render of the first page and the render of the second page reporting
    other heights, tasks completing. *)
Definition laterHeights : list Event :=
  [ ZoomBy c0_1; Resumes 1 (of_int 0); Resumes 1 (of_int 792);
    Intersects 1 true; Resumes 2 (of_int 1056);
    TaskCompletes 1; TaskCompletes 2 ].

End Runs.


(* ===================================================================== *)
(** ** The toolbar and the keyboard of [DocumentViewer] *)
(* ===================================================================== *)

Module Toolbar.
Import JsNumber JsString Viewer.
Local Open Scope string_scope.

(** [Math.round(x)], ECMAScript 21.3.2.28: the integer nearest to [x],
    a tie going to the larger one; [None] stands for the results that are
    no integer, NaN and the infinities.  A finite number is [m * 2^e] with
    its sign, so the result is [floor((2 * m * 2^e + 1) / 2)].  The sign
    of a zero result is not kept: the label prints 0 either way. *)
Definition Math_round (x : number) : option Z :=
  match x with
  | S754_zero _ => Some 0%Z
  | S754_finite s m e =>
      let n := if s then Z.neg m else Z.pos m in
      Some (if (0 <=? e)%Z then n * 2 ^ e
            else (2 * n + 2 ^ (- e)) / 2 ^ (1 - e))%Z
  | _ => None
  end.

(** [{Math.round(scale * 100)}%]: the number in the zoom label. *)
Definition zoomLabel (s : ViewerState) : option Z :=
  Math_round (mul (scale s) (of_int 100)).

(** The deltas of the two buttons: [zoom(-0.1)] and [zoom(0.1)]. *)
Definition buttonDeltas : list number := [neg c0_1; c0_1].

(** [handleKeyDown]: the delta it hands to [zoom], if any.
    [[
    if (e.key === '=' || e.key === '+') { zoom(0.1); }
    else if (e.key === '-') { zoom(-0.1); }
    ]] *)
Definition handleKeyDown (key : string) : option number :=
  if String.eqb key "=" || String.eqb key "+" then Some c0_1
  else if String.eqb key "-" then Some (neg c0_1)
  else None.

(** An event the controls of the viewer can cause: any event but a zoom
    by a delta that neither a button nor a key asks for.  The region
    that listens to the keys is not rendered on the error screen, where
    [step] ignores a zoom. *)
Definition fromControls (e : Event) : Prop :=
  match e with
  | ZoomBy delta =>
      In delta buttonDeltas \/ exists key, handleKeyDown key = Some delta
  | _ => True
  end.

(** The scales the controls reach from the two scales the code sets,
    [1.0] and [0.9]: the closure of these under [zoomIn] and [zoomOut],
    computed breadth first. *)
Definition member (x : number) (l : list number) : bool :=
  existsb (same_value x) l.

Definition adjoin (l : list number) (x : number) : list number :=
  if member x l then l else l ++ [x].

Fixpoint closure (fuel : nat) (seen frontier : list number) : list number :=
  match fuel with
  | O => seen
  | S f =>
      let next := flat_map (fun x => [Zoom.zoomIn x; Zoom.zoomOut x]) frontier in
      let seen' := fold_left adjoin next seen in
      if Nat.eqb (length seen') (length seen) then seen
      else closure f seen' (drop (length seen) seen')
  end.

Definition controlScales : list number :=
  Eval vm_compute in
    closure 100 [Zoom.initialScale; Zoom.defaultScale]
      [Zoom.initialScale; Zoom.defaultScale].

(** A label the controls can show: a multiple of ten from 50 to 250. *)
Definition tidyLabel (l : option Z) : bool :=
  match l with
  | Some z => ((z mod 10 =? 0) && (50 <=? z) && (z <=? 250))%Z
  | None => false
  end.

End Toolbar.

(* ===================================================================== *)
(** ** Notions used to state what every reachable state satisfies *)
(* ===================================================================== *)

Module Reachable.
Import JsNumber JsString Viewer.
Local Open Scope string_scope.

(** The page count of the document the state holds. *)
Definition documentPages (s : ViewerState) : nat :=
  match pdfDoc s with
  | Some doc => docNumPages doc
  | None => 0
  end.

(** A decode failure whose [err.name] is none of the three names the
    [catch] of [loadPdf] tells apart; any other event. *)
Definition unclassified (e : Event) : Prop :=
  match e with
  | DecodeFails name =>
      name <> "PasswordException" /\ name <> "InvalidPDFException"
      /\ name <> "MissingPDFException"
  | _ => True
  end.

(** A PDF that failed to decode, with nothing in flight. *)
Definition failedWorld : World :=
  run [WorkerInitialized; DecodeFails "InvalidPDFException"]
    (mount (lit "JVBERi0xLjQK") "application/pdf").

(** What may follow on the error screen. *)
Definition onErrorScreen : list Event :=
  [ ZoomBy c0_1; Jump (lit "Page 2"); DecodeSucceeds 4; ImageFails;
    Intersects 0 true; WorkerInitialized; Resumes 0 (of_int 713);
    DecodeFails "PasswordException"; TaskCompletes 0 ].

(** A session with zooms beyond both ends of the range. *)
Definition zoomingAbout : list Event :=
  [ WorkerInitialized; ZoomBy (of_int 7); DecodeSucceeds 2;
    ZoomBy (neg (of_int 3)); Intersects 0 true; ZoomBy c0_1;
    ZoomBy (S754_infinity false); ZoomBy (S754_infinity true) ].

(** An image, then a PDF that fails for a reason the viewer does not
    classify, then another image. *)
Definition unclassifiedFailures : list Event :=
  [ ImageFails; WorkerInitialized;
    NewDocument (lit "JVBERi0xLjQK") "application/pdf";
    DecodeFails "UnknownErrorException";
    NewDocument (lit "iVBORw0KGgo=") "image/png"; ImageFails ].

(** A one-page document whose page is in view and whose first render
    has reached [page.render]: its task paints and is in the ref. *)
Definition paintingWorld : World :=
  run [WorkerInitialized; DecodeSucceeds 1; Intersects 0 true;
       Resumes 0 (of_int 713)]
    (mount (lit "JVBERi0xLjQK") "application/pdf").

(** What may follow a zoom: the second render goes on, the decoder
    reports the first task late, the user zooms back. *)
Definition afterZoom : list Event :=
  [ Resumes 1 (of_int 0); TaskCompletes 0; Resumes 1 (of_int 792);
    ZoomBy (neg c0_1); TaskCompletes 1; TaskCompletes 0 ].

(** A document of twenty pages, ready. *)
Definition twentyPages : World :=
  run [WorkerInitialized; DecodeSucceeds 20]
    (mount (lit "JVBERi0xLjQK") "application/pdf").

End Reachable.

(* ===================================================================== *)
(** ** References clicked in the chat and in the analysis panel *)
(* ===================================================================== *)

Module References.
Import JsString Viewer.
Local Open Scope N_scope.

(** [ChatInterface], the renderer of a link of a reply:
    [[ const isCitation = href?.startsWith('#'); ]]
    [None] is a link without [href]. *)
Definition isCitation (href : option jsstring) : bool :=
  match href with
  | Some (c :: _) => c =? 35
  | _ => false
  end.

(** Its [onClick]:
    [[ if (isCitation && onReferenceClick) {
         e.preventDefault(); onReferenceClick(href); } ]]
    where [onReferenceClick] is the [handleJumpToLocation] that
    [Analyzer] hands down through [AnalysisPanel].  Any other link is
    left to the browser. *)
Definition clickLink (href : option jsstring) (w : World) : World :=
  match href with
  | Some h => if isCitation href then step (Jump h) w else w
  | None => w
  end.

(** [AnalysisPanel], the button of a section:
    [[ if (onReferenceClick && section.location) {
         onReferenceClick(section.location); } ]]
    [None] is a section without [location]. *)
Definition clickSectionLocation (location : option jsstring) (w : World)
  : World :=
  match location with
  | Some (c :: l) => step (Jump (c :: l)) w
  | _ => w
  end.

(** [{location && isPdf && (<span>Page {location}</span>)}]: the text
    after "Page " in the badge of the toolbar. *)
Definition locationBadge (w : World) : option jsstring :=
  match location (props w) with
  | Some (c :: l) => if isPdf w then Some (c :: l) else None
  | _ => None
  end.

End References.

(* ===================================================================== *)
(** ** The types of the application *)
(* ===================================================================== *)

Module Types.
Import JsNumber JsString.

(** [interface RedFlag]; an optional field is an [option]. *)
Record RedFlag := mkRedFlag {
  flagTitle : jsstring;
  severity : jsstring;               (* 'HIGH' | 'MEDIUM' | 'LOW' *)
  explanation : jsstring;
  excerpt : option jsstring;
  questions : list jsstring;
  flagLocation : option jsstring
}.

(** [interface DocumentSection] *)
Record DocumentSection := mkDocumentSection {
  title : jsstring;
  sectionSummary : jsstring;
  status : jsstring;                 (* 'GOOD' | 'NEUTRAL' | 'CONCERN' *)
  sectionLocation : option jsstring
}.

(** [interface DocumentAnalysis] *)
Record DocumentAnalysis := mkDocumentAnalysis {
  documentType : jsstring;
  riskScore : number;
  riskLabel : jsstring;
  summary : jsstring;
  keyPoints : list jsstring;
  redFlags : list RedFlag;
  sections : list DocumentSection;
  missingClauses : list jsstring;
  docId : jsstring;
  fileName : jsstring;
  timestamp : number;
  visualImage : option jsstring
}.

(** [interface StoredDocument extends DocumentAnalysis]: the fields of
    the analysis, which [analysisOf] groups, and the two of the file. *)
Record StoredDocument := mkStoredDocument {
  analysisOf : DocumentAnalysis;
  fileData : jsstring;               (* Base64 *)
  mimeType : string
}.

End Types.

(* ===================================================================== *)
(** ** [storageService]: the library in [localStorage] *)
(* ===================================================================== *)

Module Storage.
Import JsString Types.

(** What [localStorage] holds under [STORAGE_KEY], by what
    [getDocuments] makes of it.  The application only ever writes the
    JSON text of a list of documents, whose fields [JSON.parse] gives
    back as they were written. *)
Inductive Item :=
| Absent                     (* no item, or the empty string *)
| Unparsable                 (* a text on which JSON.parse throws *)
| NotAnArray                 (* the JSON text of a value that is no array *)
| Documents (docs : list StoredDocument).

(** [[
    try { const raw = localStorage.getItem(STORAGE_KEY);
          const parsed = raw ? JSON.parse(raw) : [];
          return Array.isArray(parsed) ? parsed : []; }
    catch (error) { ...; return []; }
    ]] *)
Definition getDocuments (item : Item) : list StoredDocument :=
  match item with
  | Documents docs => docs
  | _ => []
  end.

(** [[
    try { const existing = getDocuments();
          const updated = [doc, ...existing].slice(0, 5);
          localStorage.setItem(STORAGE_KEY, JSON.stringify(updated)); }
    catch (error) { console.error(...); }
    ]]
    [fits] tells whether [setItem] succeeds; it throws when the quota of
    the origin is exceeded. *)
Definition saveDocument (fits : bool) (doc : StoredDocument) (item : Item)
  : Item :=
  let existing := getDocuments item in
  let updated := take 5 (doc :: existing) in
  if fits then Documents updated else item.

(** [[
    const existing = getDocuments();
    const updated = existing.filter(d => d.docId !== docId);
    localStorage.setItem(STORAGE_KEY, JSON.stringify(updated));
    ]]
    There is no [try] here: [None] is the exception of [setItem]. *)
Definition deleteDocument (fits : bool) (id : jsstring) (item : Item)
  : option Item :=
  let existing := getDocuments item in
  let updated :=
    List.filter (fun d => negb (bool_decide (docId (analysisOf d) = id)))
      existing in
  if fits then Some (Documents updated) else None.

(** The [Library] component: the storage and its state [docs].
    [[ useEffect(() => { setDocs(getDocuments()); }, []); ]] *)
Definition mountLibrary (item : Item) : Item * list StoredDocument :=
  (item, getDocuments item).

(** [[ const handleDelete = (e, id) => { e.stopPropagation();
         deleteDocument(id); setDocs(getDocuments()); }; ]]
    An exception of [deleteDocument] leaves the handler before
    [setDocs]. *)
Definition handleDelete (fits : bool) (id : jsstring)
  (lib : Item * list StoredDocument) : Item * list StoredDocument :=
  match deleteDocument fits id lib.1 with
  | Some item => (item, getDocuments item)
  | None => lib
  end.

(** The calls the application makes on the storage, each with the
    outcome of its [setItem]. *)
Inductive Op :=
| Save (doc : StoredDocument) (fits : bool)
| Delete (id : jsstring) (fits : bool).

Definition apply (op : Op) (item : Item) : Item :=
  match op with
  | Save doc fits => saveDocument fits doc item
  | Delete id fits => default item (deleteDocument fits id item)
  end.

Definition applyAll (ops : list Op) (item : Item) : Item :=
  fold_left (fun acc op => apply op acc) ops item.

Definition ids (docs : list StoredDocument) : list jsstring :=
  map (fun d => docId (analysisOf d)) docs.

End Storage.

(* ===================================================================== *)
(** ** [Analyzer]: taking a file in *)
(* ===================================================================== *)

Module Upload.
Import JsString Types Storage.
Local Open Scope string_scope.
Local Open Scope N_scope.

(** The [File] the browser hands over, as far as the code reads it. *)
Record File := mkFile {
  name : jsstring;
  type : string;
  size : N
}.

(** [name.endsWith('.pdf')] *)
Definition endsWithPdf (name : jsstring) : bool :=
  match rev name with
  | f :: d :: p :: dot :: _ =>
      (dot =? 46) && (p =? 112) && (d =? 100) && (f =? 102)
  | _ => false
  end.

(** [name.toLowerCase().endsWith('.pdf')].  Lower-casing works code
    point by code point; the only code points whose lower case ends in
    [p], [d] or [f] are these letters and their capitals, and only [.]
    gives [.]: the test looks at the last four code units of [name]. *)
Definition endsWithPdfAnyCase (name : jsstring) : bool :=
  match rev name with
  | f :: d :: p :: dot :: _ =>
      (dot =? 46) && matchesLetter 112 p && matchesLetter 100 d
      && matchesLetter 102 f
  | _ => false
  end.

(** The signature [%PDF-]. *)
Definition pdfSignature : list N := [37; 80; 68; 70; 45].

(** [validatePdfHeader]: the boolean its promise resolves to.  [head] is
    what reading [file.slice(0, 5)] gave: [None] when the read failed
    ([onerror], or no [result]), else the bytes.
    [[
    if (file.size === 0) { resolve(false); return; }
    const isPdfType = file.type === 'application/pdf';
    const isPdfExt = file.name.toLowerCase().endsWith('.pdf');
    if (!isPdfType && !isPdfExt) { resolve(true); return; }
    ... const arr = (new Uint8Array(e.target.result)).subarray(0, 5);
    let header = ""; for (...) header += String.fromCharCode(arr[i]);
    resolve(header.startsWith('%PDF-'));
    ]] *)
Definition validatePdfHeader (file : File) (head : option (list N)) : bool :=
  if size file =? 0 then false
  else
    let isPdfType := String.eqb (type file) "application/pdf" in
    let isPdfExt := endsWithPdfAnyCase (name file) in
    if negb isPdfType && negb isPdfExt then true
    else match head with
         | None => false
         | Some bytes => bool_decide (take 5 bytes = pdfSignature)
         end.

(** [result.includes(',') ? result.split(',')[1] : result] *)
Fixpoint afterComma (s : jsstring) : option jsstring :=
  match s with
  | [] => None
  | c :: r => if c =? 44 then Some r else afterComma r
  end.

Fixpoint beforeComma (s : jsstring) : jsstring :=
  match s with
  | [] => []
  | c :: r => if c =? 44 then [] else c :: beforeComma r
  end.

Definition base64Data (result : jsstring) : jsstring :=
  match afterComma result with
  | Some r => beforeComma r
  | None => result
  end.

(** What [readAsDataURL] gave: [onerror], or [onload] with a result,
    which is empty when there is none. *)
Inductive DataUrlRead := ReadError | ReadResult (result : jsstring).

(** What [handleFile] leaves behind: an error message, or the data and
    type set for the viewer together with the arguments of
    [startAnalysis]. *)
Inductive Outcome :=
| Rejected (message : string)
| Loaded (fileData : jsstring) (mimeType : string)
         (analysisType : string) (analysisName : jsstring).

(** [handleFile]:
    [[
    if (selectedFile.size > 10 * 1024 * 1024) {
      setError("File size must be under 10MB"); return; }
    const isValidHeader = await validatePdfHeader(selectedFile);
    if (!isValidHeader) { setError("This PDF file appears ..."); return; }
    ... reader.onload = (event) => {
      const result = event.target?.result as string;
      if (!result) { setError("Failed to read file content."); return; }
      const base64Data = result.includes(',') ? result.split(',')[1] : result;
      setFileData(base64Data);
      setMimeType(selectedFile.type ||
        (selectedFile.name.endsWith('.pdf') ? 'application/pdf' : 'image/jpeg'));
      startAnalysis(base64Data, selectedFile.type, selectedFile.name); };
    reader.onerror = () => { setError("This PDF file appears ..."); };
    ]] *)
Definition handleFile (selectedFile : File) (head : option (list N))
  (read : DataUrlRead) : Outcome :=
  if 10 * 1024 * 1024 <? size selectedFile then
    Rejected "File size must be under 10MB"
  else if negb (validatePdfHeader selectedFile head) then
    Rejected "This PDF file appears to be corrupted or invalid. Please try another file."
  else
    match read with
    | ReadError =>
        Rejected "This PDF file appears to be corrupted or invalid. Please try another file."
    | ReadResult [] => Rejected "Failed to read file content."
    | ReadResult result =>
        Loaded (base64Data result)
          (if negb (String.eqb (type selectedFile) "") then type selectedFile
           else if endsWithPdf (name selectedFile) then "application/pdf"
           else "image/jpeg")
          (type selectedFile) (name selectedFile)
    end.

(** [startAnalysis], once [analyzeDocument] returned [result]: what it
    saves.
    [[
    saveDocument({ ...result, fileData: data, mimeType: type });
    generateDocumentVisual(...).then((visualData) => {
      if (visualData) {
        const updatedResult = { ...result, visualImage: visualData };
        setAnalysis(updatedResult);
        saveDocument({ ...updatedResult, fileData: data, mimeType: type });
      } })
    ]] *)
Definition setVisualImage (v : jsstring) (a : DocumentAnalysis)
  : DocumentAnalysis :=
  mkDocumentAnalysis (documentType a) (riskScore a) (riskLabel a) (summary a)
    (keyPoints a) (redFlags a) (sections a) (missingClauses a) (docId a)
    (fileName a) (timestamp a) (Some v).

Definition startAnalysis (result : DocumentAnalysis) (data : jsstring)
  (type : string) (visualData : option jsstring) (fits1 fits2 : bool)
  (item : Item) : Item :=
  let item1 := saveDocument fits1 (mkStoredDocument result data type) item in
  match visualData with
  | Some (c :: v) =>
      saveDocument fits2
        (mkStoredDocument (setVisualImage (c :: v) result) data type) item1
  | _ => item1
  end.

(** A document picked in the library: [App] mounts [Analyzer] with it
    as [initialDoc], which hands its data and type to the viewer.
    [[
    useState<string | null>(initialDoc?.fileData || null);
    useState<string>(initialDoc?.mimeType || '');
    ... setFileData(initialDoc.fileData); setMimeType(initialDoc.mimeType);
    ]]
    Without data [Analyzer] shows the upload view, and no viewer. *)
Definition openStored (doc : StoredDocument) : option Viewer.World :=
  match Types.fileData doc with
  | [] => None
  | _ :: _ => Some (Viewer.mount (Types.fileData doc) (Types.mimeType doc))
  end.

End Upload.

(* ===================================================================== *)
(** ** [geminiService]: cleaning the reply of [analyzeDocument] *)
(* ===================================================================== *)

Module Gemini.
Import JsString.
Local Open Scope N_scope.

(** The class [[\s•\-\*]]: white space, the bullet U+2022, [-] and [*]. *)
Definition isBulletOrSpace (c : N) : bool :=
  isWhiteSpace c || (c =? 8226) || (c =? 45) || (c =? 42).

(** [s.replace(/^[\s•\-\*]+/, '')]: without the leading run of the
    class. *)
Fixpoint dropBullets (s : jsstring) : jsstring :=
  match s with
  | c :: r => if isBulletOrSpace c then dropBullets r else s
  | [] => []
  end.

(** [s.trim()]: without leading and trailing white space, which is the
    class [\s]. *)
Definition trimEnd (s : jsstring) : jsstring :=
  rev (skipWhiteSpace (rev s)).

Definition trim (s : jsstring) : jsstring := trimEnd (skipWhiteSpace s).

(** [const cleanString = (s: string) =>
       s.replace(/^[\s•\-\*]+/, '').trim();] *)
Definition cleanString (s : jsstring) : jsstring := trim (dropBullets s).

(** [s] without the prefix [p], when it starts with it. *)
Fixpoint stripPrefix (p s : jsstring) : option jsstring :=
  match p, s with
  | [], _ => Some s
  | a :: p', b :: s' => if a =? b then stripPrefix p' s' else None
  | _ :: _, [] => None
  end.

(** Three backticks. *)
Definition fence : jsstring := [96; 96; 96].

(** [text.replace(/^```json\s*/, '')] *)
Definition stripJsonFence (text : jsstring) : jsstring :=
  match stripPrefix (fence ++ lit "json") text with
  | Some r => skipWhiteSpace r
  | None => text
  end.

(** [text.replace(/^```\s*/, '')] *)
Definition stripOpenFence (text : jsstring) : jsstring :=
  match stripPrefix fence text with
  | Some r => skipWhiteSpace r
  | None => text
  end.

(** [text.replace(/\s*```$/, '')]: without flag [m] the [$] is the end
    of the text, so the expression matches when the text ends with the
    fence, and the leftmost match starts at the white space before it. *)
Definition stripCloseFence (text : jsstring) : jsstring :=
  match stripPrefix fence (rev text) with
  | Some r => rev (skipWhiteSpace r)
  | None => text
  end.

(** [[
    let text = response.text || '{}';
    text = text.replace(/^```json\s*/, '').replace(/^```\s*/, '')
               .replace(/\s*```$/, '');
    ]]
    the text handed to [JSON.parse]; [None] is a reply without text. *)
Definition replyText (responseText : option jsstring) : jsstring :=
  let text := match responseText with
              | Some (c :: r) => c :: r
              | _ => lit "{}"
              end in
  stripCloseFence (stripOpenFence (stripJsonFence text)).

End Gemini.

(* ===================================================================== *)
(** ** [ChatInterface]: the suggested questions *)
(* ===================================================================== *)

Module Suggestions.
Import JsString Types.
Local Open Scope string_scope.

(** [flags.filter(f => f.severity === s)] then
    [flags.flatMap(f => f.questions || [])]; an array is truthy. *)
Definition getQs (s : string) (flags : list RedFlag) : list jsstring :=
  flat_map questions
    (List.filter (fun f => bool_decide (severity f = lit s)) flags).

(** [[ `What are the concerns in the "${s.title}" section?` ]] *)
Definition sectionQuestion (t : jsstring) : jsstring :=
  (lit "What are the concerns in the " ++ [34%N] ++ t ++ [34%N]
   ++ lit " section?")%list.

(** [[
    const concerningSections =
      analysis.sections.filter(s => s.status === 'CONCERN');
    concerningSections.forEach(s => {
      if (s.title) extractedQuestions.push(...); });
    ]] *)
Definition sectionQuestions (ss : list DocumentSection) : list jsstring :=
  flat_map (fun s => match title s with
                     | [] => []
                     | t => [sectionQuestion t]
                     end)
    (List.filter (fun s => bool_decide (status s = lit "CONCERN")) ss).

(** [Array.from(new Set(xs))]: the first occurrence of each element, in
    order. *)
Fixpoint unique (seen xs : list jsstring) : list jsstring :=
  match xs with
  | [] => []
  | x :: r =>
      if bool_decide (x ∈ seen) then unique seen r
      else x :: unique (x :: seen) r
  end.

Definition defaults : list jsstring :=
  [ lit "What are the termination conditions?";
    lit "Are there any hidden fees?";
    lit "Is this standard for this type of document?";
    lit "Explain the liability clause.";
    lit "What happens if I breach this contract?" ].

(** [[
    for (const d of defaults) {
      if (uniqueQuestions.length >= 8) break;
      if (!uniqueQuestions.includes(d)) uniqueQuestions.push(d); }
    ]]
    The list only grows, so once the loop would break every later round
    would break too: a round that does nothing stands for the break. *)
Definition fill (qs : list jsstring) (ds : list jsstring) : list jsstring :=
  fold_left (fun acc d =>
               if (8 <=? length acc)%nat then acc
               else if bool_decide (d ∈ acc) then acc
               else (acc ++ [d])%list) ds qs.

(** The effect on [docContext], for an analysis that [JSON.parse] gave
    back: the value handed to [setSuggestedQuestions].
    [[
    extractedQuestions = [...getQs(highFlags), ...getQs(mediumFlags),
                          ...getQs(lowFlags)];
    if (extractedQuestions.length < 5 && ...) { ... sections ... }
    const uniqueQuestions = Array.from(new Set(extractedQuestions));
    ...
    setSuggestedQuestions(uniqueQuestions.slice(0, 8));
    ]] *)
Definition fromFlags (a : DocumentAnalysis) : list jsstring :=
  (getQs "HIGH" (redFlags a) ++ getQs "MEDIUM" (redFlags a)
   ++ getQs "LOW" (redFlags a))%list.

Definition extractedQuestions (a : DocumentAnalysis) : list jsstring :=
  if (length (fromFlags a) <? 5)%nat
  then (fromFlags a ++ sectionQuestions (sections a))%list
  else fromFlags a.

Definition suggestedQuestions (a : DocumentAnalysis) : list jsstring :=
  take 8 (fill (unique [] (extractedQuestions a)) defaults).

End Suggestions.

(* ===================================================================== *)
(** ** The file data between [Analyzer] and [DocumentViewer] *)
(* ===================================================================== *)

Module Base64.
Import JsString.
Local Open Scope N_scope.

(** The base64 alphabet of RFC 4648: the character of a sextet and the
    sextet of a character. *)
Definition charOf (n : N) : N :=
  if n <? 26 then 65 + n
  else if n <? 52 then 97 + (n - 26)
  else if n <? 62 then 48 + (n - 52)
  else if n =? 62 then 43
  else 47.

Definition valueOf (c : N) : option N :=
  if (65 <=? c) && (c <=? 90) then Some (c - 65)
  else if (97 <=? c) && (c <=? 122) then Some (c - 71)
  else if (48 <=? c) && (c <=? 57) then Some (c + 4)
  else if c =? 43 then Some 62
  else if c =? 47 then Some 63
  else None.

(** The base64 text of a sequence of bytes, with padding: what
    [readAsDataURL] puts after the comma of the data URL. *)
Fixpoint base64Encode (bytes : list N) : jsstring :=
  match bytes with
  | a :: b :: c :: r =>
      [ charOf (a / 4); charOf ((a mod 4) * 16 + b / 16);
        charOf ((b mod 16) * 4 + c / 64); charOf (c mod 64) ]
      ++ base64Encode r
  | [a; b] =>
      [ charOf (a / 4); charOf ((a mod 4) * 16 + b / 16);
        charOf ((b mod 16) * 4); 61 ]
  | [a] => [ charOf (a / 4); charOf ((a mod 4) * 16); 61; 61 ]
  | [] => []
  end.

(** [atob], the forgiving-base64 decode of the HTML standard: remove
    ASCII white space; if the length is a multiple of four remove one or
    two [=] at the end; fail if a character is outside the alphabet or
    if the length is one more than a multiple of four; read the
    characters six bits at a time, and drop the bits of an incomplete
    byte.  [None] is the exception [InvalidCharacterError]; the result
    is a string of code units below 256. *)
Definition isAsciiWhiteSpace (c : N) : bool :=
  (c =? 9) || (c =? 10) || (c =? 12) || (c =? 13) || (c =? 32).

Definition dropLastEquals (s : jsstring) : jsstring :=
  match rev s with
  | c :: r => if c =? 61 then rev r else s
  | [] => s
  end.

Definition stripPadding (s : jsstring) : jsstring :=
  if Nat.eqb (length s mod 4) 0 then dropLastEquals (dropLastEquals s)
  else s.

Fixpoint sextets (s : jsstring) : option (list N) :=
  match s with
  | [] => Some []
  | c :: r =>
      match valueOf c, sextets r with
      | Some v, Some vs => Some (v :: vs)
      | _, _ => None
      end
  end.

Fixpoint decodeSextets (v : list N) : option (list N) :=
  match v with
  | a :: b :: c :: d :: r =>
      match decodeSextets r with
      | Some t => Some ([ a * 4 + b / 16; (b mod 16) * 16 + c / 4;
                          (c mod 4) * 64 + d ] ++ t)
      | None => None
      end
  | [a; b; c] => Some [ a * 4 + b / 16; (b mod 16) * 16 + c / 4 ]
  | [a; b] => Some [ a * 4 + b / 16 ]
  | [a] => None
  | [] => Some []
  end.

Definition atob (data : jsstring) : option jsstring :=
  let s := stripPadding
             (List.filter (fun c => negb (isAsciiWhiteSpace c)) data) in
  match sextets s with
  | Some v => decodeSextets v
  | None => None
  end.

(** [loadPdf] of [DocumentViewer], up to the call of the decoder: the
    bytes handed to [getDocument], or [None] when [atob] throws.
    [[
    const cleanBase64 = fileData.replace(/[\n\r\s]/g, '');
    const binaryString = atob(cleanBase64);
    const len = binaryString.length;
    const bytes = new Uint8Array(len);
    for (let i = 0; i < len; i++) { bytes[i] = binaryString.charCodeAt(i); }
    ]] *)
Definition cleanBase64 (fileData : jsstring) : jsstring :=
  List.filter (fun c => negb (isWhiteSpace c)) fileData.

Definition decodedBytes (fileData : jsstring) : option (list N) :=
  match atob (cleanBase64 fileData) with
  | Some binaryString => Some (map (fun c => c mod 256) binaryString)
  | None => None
  end.

(** A character that is neither white space, nor [=], nor a comma. *)
Definition plain (c : N) : bool :=
  negb (isWhiteSpace c) && negb (isAsciiWhiteSpace c)
  && negb (c =? 61) && negb (c =? 44).

(** What [readAsDataURL] gives for a file: a data URL whose part before
    the comma depends on the type the browser knows. *)
Definition dataUrl (mediaType : jsstring) (bytes : list N) : jsstring :=
  lit "data:" ++ mediaType ++ lit ";base64," ++ base64Encode bytes.

End Base64.

(* ===================================================================== *)
(** ** [ChatInterface]: the conversation *)
(* ===================================================================== *)

Module Chat.
Import JsString Gemini.

Inductive Role := user | model.

(** [interface ChatMessage]; [messageId] is the number whose decimal
    text is the [id]. *)
Record ChatMessage := mkChatMessage {
  messageId : N;
  role : Role;
  text : jsstring;
  sources : option (list (jsstring * jsstring))
}.

(** A call awaited: [chatWithDocument(history, message, docContext)] or
    [checkLegalPrecedence(query)]. *)
Inductive Request :=
| ChatRequest (history : list (Role * jsstring)) (message : jsstring)
| SearchRequest (query : jsstring).

(** How an awaited call ends: with the text of the reply, which may be
    missing, and the sources of a search; or with an exception. *)
Inductive Outcome :=
| Fulfilled (reply : option jsstring) (found : list (jsstring * jsstring))
| Thrown.

(** The state of the component and the calls it awaits. *)
Record Chat := mkChat {
  messages : list ChatMessage;
  inputValue : jsstring;
  isLoading : bool;
  pending : list Request
}.

(** [useState] of the three cells. *)
Definition initial : Chat :=
  mkChat
    [mkChatMessage 1 model
       (lit "I've analyzed this document. Feel free to ask about specific clauses, rights, or anything confusing.")
       None]
    [] false [].

(** [x || fallback] on a string that may be missing. *)
Definition orElse (x : option jsstring) (fallback : jsstring) : jsstring :=
  match x with
  | Some (c :: r) => c :: r
  | _ => fallback
  end.

(** [handleSend(text)], up to its [await]; [None] is the call without
    argument, which takes [inputValue]; [now] is [Date.now()].
    [[
    if (!text.trim() || isLoading) return;
    const userMsg = { id: Date.now().toString(), role: 'user', text: text };
    setMessages(prev => [...prev, userMsg]);
    setInputValue(''); setIsLoading(true);
    ... await chatWithDocument(
          messages.map(m => ({ role: m.role, text: m.text })),
          userMsg.text, docContext);
    ]] *)
Definition handleSend (arg : option jsstring) (now : N) (c : Chat) : Chat :=
  let t := default (inputValue c) arg in
  match trim t with
  | [] => c
  | _ :: _ =>
      if isLoading c then c
      else mkChat (messages c ++ [mkChatMessage now user t None]) [] true
             (pending c
              ++ [ChatRequest (map (fun m => (role m, text m)) (messages c)) t])
  end.

(** [handleSearchCheck], up to its [await]. *)
Definition handleSearchCheck (now : N) (c : Chat) : Chat :=
  match trim (inputValue c) with
  | [] => c
  | _ :: _ =>
      if isLoading c then c
      else
        let t := lit "Check legal precedence: " ++ inputValue c in
        mkChat (messages c ++ [mkChatMessage now user t None]) [] true
          (pending c ++ [SearchRequest t])
  end.

(** The rest of the handler, when the call it awaits ends: the message
    of the model, from the reply or from the [catch], and in [finally]
    [setIsLoading(false)]. *)
Definition reply (r : Request) (o : Outcome) (now : N) : ChatMessage :=
  match r, o with
  | ChatRequest _ _, Fulfilled t _ =>
      mkChatMessage (now + 1) model
        (orElse t (lit "I couldn't generate a response.")) None
  | ChatRequest _ _, Thrown =>
      mkChatMessage (now + 1) model
        (lit "Sorry, I encountered an error answering that. Please try again.")
        None
  | SearchRequest _, Fulfilled t found =>
      mkChatMessage (now + 1) model (orElse t (lit "No results found."))
        (Some found)
  | SearchRequest _, Thrown =>
      mkChatMessage (now + 1) model (lit "Search failed.") None
  end.

Definition answers (k : nat) (o : Outcome) (now : N) (c : Chat) : Chat :=
  match pending c !! k with
  | Some r =>
      mkChat (messages c ++ [reply r o now]) (inputValue c) false
        (delete k (pending c))
  | None => c
  end.

Inductive Event :=
| Types (value : jsstring)                 (* onChange of the input *)
| Sends (arg : option jsstring) (now : N)  (* Enter, the button, a question *)
| SearchChecks (now : N)                   (* the search button *)
| Answers (k : nat) (o : Outcome) (now : N).

Definition step (e : Event) (c : Chat) : Chat :=
  match e with
  | Types value => mkChat (messages c) value (isLoading c) (pending c)
  | Sends arg now => handleSend arg now c
  | SearchChecks now => handleSearchCheck now c
  | Answers k o now => answers k o now c
  end.

Definition run (es : list Event) (c : Chat) : Chat :=
  fold_left (fun acc e => step e acc) es c.

(** The role of the message at each place of a conversation that
    alternates, the model first. *)
Definition turn (i : nat) : Role := if Nat.even i then model else user.

End Chat.

(* ===================================================================== *)
(** ** Sample documents and files *)
(* ===================================================================== *)

Module Samples.
Import JsNumber JsString Types Storage Upload.
Local Open Scope string_scope.

Definition analysis (id : string) : DocumentAnalysis :=
  mkDocumentAnalysis (lit "Rental Agreement") (of_int 72)
    (lit "Moderate concerns") (lit "A twelve month lease.") [] [] [] []
    (lit id) (lit "lease.pdf") (of_int 1700000000000) None.

Definition doc (id : string) : StoredDocument :=
  mkStoredDocument (analysis id) (lit "JVBERi0xLjQK") "application/pdf".

(** A library that is full. *)
Definition fullLibrary : Item :=
  Documents [doc "e"; doc "d"; doc "c"; doc "b"; doc "a"].

(** Saves that fit and one that does not, deletions of a stored and of
    an unknown id, one of them failing. *)
Definition busyDay : list Op :=
  [ Save (doc "f") true; Save (doc "g") false; Delete (lit "c") true;
    Delete (lit "zz") true; Save (doc "h") true; Delete (lit "h") false;
    Save (doc "i") true; Save (doc "j") true ].

(** A PDF for which the browser reports no type, named in lower and in
    upper case. *)
Definition untypedPdf : File := mkFile (lit "lease.pdf") "" 9.
Definition untypedUpperPdf : File := mkFile (lit "LEASE.PDF") "" 9.

Definition pdfHead : option (list N) := Some [37; 80; 68; 70; 45]%N.

Definition pdfDataUrl : DataUrlRead :=
  ReadResult (lit "data:application/octet-stream;base64,JVBERi0xLjQK").

(** An analysis with two flags of severity HIGH, one LOW, and a
    section of concern. *)
Definition flagged : DocumentAnalysis :=
  mkDocumentAnalysis (lit "Rental Agreement") (of_int 41)
    (lit "High Risk") (lit "A twelve month lease.") []
    [ mkRedFlag (lit "Late fees") (lit "LOW") (lit "Fees grow daily.") None
        [lit "Is there a grace period?"] (Some (lit "Page 2"));
      mkRedFlag (lit "Entry") (lit "HIGH") (lit "The landlord may enter.") None
        [lit "Can entry require notice?"; lit "Who holds the keys?"]
        (Some (lit "Page 3"));
      mkRedFlag (lit "Renewal") (lit "HIGH") (lit "It renews by itself.") None
        [lit "Can entry require notice?"; lit "How do I stop the renewal?"]
        None ]
    [ mkDocumentSection (lit "Deposit") (lit "Two months.") (lit "CONCERN")
        (Some (lit "Page 1")) ]
    [] (lit "k") (lit "lease.pdf") (of_int 1700000000000) None.

(** What may happen in a viewer whose props stay. *)
Definition viewing : list Viewer.Event :=
  [ Viewer.WorkerInitialized; Viewer.DecodeSucceeds 3;
    Viewer.Intersects 0 true; Viewer.ZoomBy c0_1;
    Viewer.Jump (lit "Page 2"); Viewer.Resumes 0 (of_int 713) ].

End Samples.

(* ===================================================================== *)
(** ** Notions used to state when pages are rendered again *)
(* ===================================================================== *)

Module Rendering.
Import JsNumber JsString Viewer.

(** The document and the scale the effect of each page last ran with
    are those of the state: no effect is due. *)
Definition inSync (w : World) : Prop :=
  Forall (fun p => seenDoc p = option_map docId (pdfDoc (state w))
                   /\ seenScale p = scale (state w)) (pages w).

(** The activation of [renderPage] that a run of the effect of a page
    starts at the scale [sc], when there is a document: none for a page
    that was never in view; for a page in view one that first awaits the
    cancellation of the task in the ref, if there is one. *)
Definition restarted (sc : number) (p : PdfPage) : list RenderCall :=
  if isVisible p then
    [mkRenderCall (inst p) sc
       (match renderTaskRef p with
        | Some _ => AwaitCancel
        | None => AwaitGetPage
        end)]
  else [].

(** Two pages, the first in view and painting, zoomed to the upper
    limit; and the same at the default scale. *)
Definition atUpperLimit : list Event :=
  [ WorkerInitialized; DecodeSucceeds 2; Intersects 0 true;
    Resumes 0 (of_int 713); ZoomBy (of_int 5) ].

Definition twoPagesOnePainting : list Event :=
  [ WorkerInitialized; DecodeSucceeds 2; Intersects 0 true;
    Resumes 0 (of_int 713) ].

End Rendering.

(* ===================================================================== *)
(** ** Notions used to state that pages out of view cost nothing *)
(* ===================================================================== *)

Module Lazy.
Import JsNumber JsString Viewer.

(** A page for which nothing has been fetched or painted. *)
Definition untouched (p : PdfPage) : Prop :=
  pageHeight p = None /\ isRendered p = false
  /\ renderTaskRef p = None /\ canvas p = [].

(** Every page of [ps] with the instance [i] has been in view. *)
Definition inView (ps : list PdfPage) (i : nat) : Prop :=
  Forall (fun p => inst p = i -> isVisible p = true) ps.

(** Instances are distinct and older than [fr]; the observer of a page
    is connected until the page is in view; a page that was never in
    view is untouched; the activations of [renderPage] and the render
    tasks, given by their instances [cis] and [tis], are all for pages
    that have been in view. *)
Definition lazyOf (ps : list PdfPage) (tis cis : list nat) (fr : nat) : Prop :=
  NoDup (map inst ps)
  /\ Forall (fun p => inst p < fr /\ observing p = negb (isVisible p)
                      /\ (isVisible p = false -> untouched p)) ps
  /\ Forall (fun i => i < fr /\ inView ps i) cis
  /\ Forall (fun i => i < fr /\ inView ps i) tis.

Definition lazy (w : World) : Prop :=
  lazyOf (pages w) (map taskInst (tasks w)) (map callInst (calls w)) (fresh w).

(** A function on pages that touches neither the instance, nor the
    visibility and the observer, nor what rendering sets. *)
Definition cosmetic (f : PdfPage -> PdfPage) : Prop :=
  forall p, inst (f p) = inst p /\ isVisible (f p) = isVisible p
            /\ observing (f p) = observing p
            /\ (untouched p -> untouched (f p)).

(** A function on pages that keeps the instance, the visibility and the
    observer. *)
Definition steady (f : PdfPage -> PdfPage) : Prop :=
  forall p, inst (f p) = inst p /\ isVisible (f p) = isVisible p
            /\ observing (f p) = observing p.

(** Five pages; the first two come into view and are rendered, the user
    zooms and jumps to the last page, which is not reported in view. *)
Definition readingTheStart : list Event :=
  [ WorkerInitialized; DecodeSucceeds 5; Intersects 0 true;
    Resumes 0 (of_int 713); Intersects 1 true; TaskCompletes 0;
    Resumes 1 (of_int 713); ZoomBy c0_1; Resumes 2 (of_int 0);
    Resumes 2 (of_int 792); Jump (lit "Page 5"); TaskCompletes 1 ].

End Lazy.

(* ===================================================================== *)
(** ** The viewer as the application holds it *)
(* ===================================================================== *)

Module Application.
Import JsNumber JsString Viewer.
Local Open Scope string_scope.

(** An event that hands the viewer no props: neither a reference
    clicked nor another document. *)
Definition elsewhere (e : Event) : Prop :=
  match e with
  | Jump _ | NewDocument _ _ => False
  | _ => True
  end.

(** [App] renders [Analyzer], and with it the viewer, in one view only:
    [[ {view === 'analysis' && (<Analyzer initialDoc={selectedDoc} />)} ]]
    and [Analyzer] renders [DocumentViewer] in its last [return] only,
    not in the upload view, where [handleFile] is called.  The way to
    another document leads through another view ([handleNavigateHome],
    [handleNavigateLibrary]), so React unmounts the viewer: the cleanup
    of the render effect of every page runs,
    [[ return () => { if (renderTaskRef.current)
                        renderTaskRef.current.cancel(); }; ]]
    and the pages are gone. *)
Definition unmountViewer (w : World) : World :=
  withPages [] (withTasks (unmountAll (pages w) (tasks w)) w).


(** The ref of one of the pages holds task [t]. *)
Definition held (t : nat) (ps : list PdfPage) : bool :=
  existsb (fun p => bool_decide (renderTaskRef p = Some t)) ps.

(** Every task that paints is the one in the ref of a mounted page: no
    render goes on beside the one its page knows of. *)
Definition registered (w : World) : bool :=
  forallb
    (fun t => match tasks w !! t with
              | Some T =>
                  match taskStatus T with
                  | Painting => held t (pages w)
                  | _ => true
                  end
              | None => true
              end)
    (seq 0 (length (tasks w))).

(** What a reader does between two clicks on the same reference: pages
    come into view and are rendered, the reader zooms. *)
Definition scrolledAway : list Event :=
  [ Intersects 2 true; Resumes 0 (of_int 713); TaskCompletes 0;
    Intersects 0 true; ZoomBy c0_1 ].

(** An image on screen: the worker initialises, the reader zooms and
    clicks a reference. *)
Definition imageSession : list Event :=
  [ WorkerInitialized; ZoomBy c0_1; Jump (lit "Page 2"); ZoomBy (neg c0_1) ].



End Application.

(* ===================================================================== *)
(** * Properties *)
(* ===================================================================== *)

Module JsNumberFacts.
Import JsNumber.

Lemma same_value_eq (a b : number) : same_value a b = true <-> a = b.
Proof.
  destruct a as [s1|s1| |s1 m1 e1], b as [s2|s2| |s2 m2 e2]; simpl;
    try (split; [discriminate | intros E; discriminate E]);
    try (rewrite Bool.eqb_true_iff; split; congruence).
  - split; reflexivity.
  - rewrite !andb_true_iff, Bool.eqb_true_iff, Pos.eqb_eq, Z.eqb_eq.
    split; [intros [[-> ->] ->]; reflexivity | intros [= -> -> ->]; auto].
Qed.

(** The bit patterns of the literals the viewer uses. *)
Lemma literal_values :
  c0_1 = S754_finite false 7205759403792794 (-56) /\
  c0_5 = S754_finite false 4503599627370496 (-53) /\
  c0_9 = S754_finite false 8106479329266893 (-53) /\
  c1_0 = S754_finite false 4503599627370496 (-52) /\
  c2_5 = S754_finite false 5629499534213120 (-51).
Proof. repeat split; vm_compute; reflexivity. Qed.

(** [SFcompare] is antisymmetric on every pair of values. *)
Lemma compare_antisym (a b : number) (c : comparison) :
  SFcompare a b = Some c -> SFcompare b a = Some (CompOpp c).
Proof.
  assert (Hm : forall m1 m2 : positive,
             Pos.compare_cont Eq m2 m1 = CompOpp (Pos.compare_cont Eq m1 m2)).
  { intros m1 m2. change (Pos.compare m2 m1 = CompOpp (Pos.compare m1 m2)).
    apply Pos.compare_antisym. }
  destruct a as [s1|s1| |s1 m1 e1], b as [s2|s2| |s2 m2 e2]; simpl;
    try discriminate; intros [= <-]; f_equal;
    try (destruct s1; reflexivity);
    try (destruct s2; reflexivity);
    try (destruct s1, s2; reflexivity).
  destruct s1, s2; simpl; try reflexivity;
    rewrite (Z.compare_antisym e1 e2), (Hm m1 m2);
    destruct (e1 ?= e2)%Z; simpl; try reflexivity;
    destruct (Pos.compare_cont Eq m1 m2); reflexivity.
Qed.

Lemma not_lt_le (a b : number) :
  is_nan a = false -> is_nan b = false -> lt b a = false -> le a b = true.
Proof.
  unfold lt, le, SFltb, SFleb. intros Ha Hb.
  destruct (SFcompare a b) as [c|] eqn:E.
  - rewrite (compare_antisym _ _ _ E). destruct c; simpl; congruence.
  - destruct a, b; simpl in *; try discriminate;
      repeat match goal with s : bool |- _ => destruct s end; discriminate.
Qed.

Lemma lt_le (a b : number) : lt a b = true -> le a b = true.
Proof.
  unfold lt, le, SFltb, SFleb.
  destruct (SFcompare a b) as [[]|]; congruence.
Qed.

(** Shifting and rounding a mantissa that is not negative never yields
  NaN: the last branch of [binary_round_aux] is not reached. *)
Lemma shr_1_nonneg (r : shr_record) : (0 <= shr_m r -> 0 <= shr_m (shr_1 r))%Z.
Proof.
  destruct r as [m b s]; simpl. destruct m as [|p|p]; simpl; try lia.
  intros _. destruct p; simpl; lia.
Qed.

Lemma iter_pos_nonneg (p : positive) (r : shr_record) :
  (0 <= shr_m r -> 0 <= shr_m (SpecFloat.iter_pos shr_1 p r))%Z.
Proof.
  revert r. induction p as [p IH|p IH|]; intros r Hr; simpl.
  - apply IH, IH, shr_1_nonneg, Hr.
  - apply IH, IH, Hr.
  - apply shr_1_nonneg, Hr.
Qed.

Lemma shr_fexp_nonneg (m e : Z) (l : SpecFloat.location) :
  (0 <= m -> 0 <= shr_m (shr_fexp prec emax m e l).1)%Z.
Proof.
  intros Hm. unfold shr_fexp, shr.
  assert (H0 : (0 <= shr_m (shr_record_of_loc m l))%Z).
  { destruct l as [|[]]; exact Hm. }
  destruct (fexp prec emax (Zdigits2 m + e) - e)%Z; simpl; try exact H0.
  apply iter_pos_nonneg, H0.
Qed.

Lemma round_nearest_even_nonneg (m : Z) (l : SpecFloat.location) :
  (0 <= m -> 0 <= round_nearest_even m l)%Z.
Proof.
  intros Hm. destruct l as [|[]]; simpl; try lia.
  destruct (Z.even m); lia.
Qed.

Lemma binary_round_aux_number (s : bool) (m e : Z) (l : SpecFloat.location) :
  (0 <= m)%Z -> is_nan (binary_round_aux prec emax s m e l) = false.
Proof.
  intros Hm. unfold binary_round_aux.
  pose proof (shr_fexp_nonneg m e l Hm) as H1.
  destruct (shr_fexp prec emax m e l) as [mrs' e']. simpl in H1.
  pose proof (shr_fexp_nonneg _ e' loc_Exact
              (round_nearest_even_nonneg _ (loc_of_shr_record mrs') H1)) as H2.
  destruct (shr_fexp prec emax _ e' loc_Exact) as [mrs'' e'']. simpl in H2.
  destruct (shr_m mrs'') as [|p|p]; [reflexivity| |lia].
  destruct (e'' <=? emax - prec)%Z; reflexivity.
Qed.

Lemma binary_normalize_number (m e : Z) (s : bool) :
  is_nan (binary_normalize prec emax m e s) = false.
Proof.
  unfold binary_normalize, binary_round.
  destruct m as [|p|p]; [reflexivity| |];
  destruct (shl_align _ _ _) as [mz ez]; apply binary_round_aux_number; lia.
Qed.

(** A sum is NaN exactly when an operand is, or when the operands are
  infinities of opposite sign. *)
Lemma add_nan (a b : number) :
  is_nan (add a b) = is_nan a || is_nan b || oppositeInfinities a b.
Proof.
  destruct a as [s1|s1| |s1 m1 e1], b as [s2|s2| |s2 m2 e2];
  try reflexivity;
  try (destruct s1, s2; reflexivity).
  unfold add, SFadd. rewrite binary_normalize_number. reflexivity.
Qed.

End JsNumberFacts.

(* ===================================================================== *)
(** ** Zoom *)
(* ===================================================================== *)

Module ZoomFacts.
Import JsNumber JsNumberFacts Zoom.

(** With a finite first argument, [Math.max] is the plain comparison. *)
Lemma Math_max_finite_l (s : bool) (m : positive) (e : Z) (b : number) :
  is_nan b = false ->
  Math_max (S754_finite s m e) b
  = if lt (S754_finite s m e) b then b else S754_finite s m e.
Proof.
  destruct b as [[]|[]| |]; simpl; intros H; try discriminate; reflexivity.
Qed.

(** With a finite second argument, so is [Math.min]. *)
Lemma Math_min_finite_r (a : number) (s : bool) (m : positive) (e : Z) :
  is_nan a = false ->
  Math_min a (S754_finite s m e)
  = if lt (S754_finite s m e) a then S754_finite s m e else a.
Proof.
  destruct a as [[]|[]| |]; simpl; intros H; try discriminate; reflexivity.
Qed.

Lemma c0_5_finite : c0_5 = S754_finite false 4503599627370496 (-53).
Proof. vm_compute; reflexivity. Qed.

Lemma c2_5_finite : c2_5 = S754_finite false 5629499534213120 (-51).
Proof. vm_compute; reflexivity. Qed.

(** The clamp returns one of the bounds, or its argument when that lies
    between them. *)
Lemma clamp_cases (s : number) :
  is_nan s = false ->
  let r := Math_min (Math_max c0_5 s) c2_5 in
  r = c0_5 \/ r = c2_5 \/ (r = s /\ lt c0_5 s = true /\ lt c2_5 s = false).
Proof.
  intros Hs r. subst r.
  rewrite c0_5_finite, c2_5_finite.
  rewrite Math_max_finite_l by exact Hs.
  destruct (lt (S754_finite false 4503599627370496 (-53)) s) eqn:Hlo.
  - rewrite Math_min_finite_r by exact Hs.
    destruct (lt (S754_finite false 5629499534213120 (-51)) s) eqn:Hhi;
      [right; left; reflexivity|].
    right; right. repeat split; reflexivity.
  - left. vm_compute. reflexivity.
Qed.

(** Clamping any sum that is a number lands in the interval. *)
Lemma clamp_in_range (s : number) :
  is_nan s = false -> in_range (Math_min (Math_max c0_5 s) c2_5) = true.
Proof.
  intros Hs.
  destruct (clamp_cases s Hs) as [-> | [-> | (-> & Hlo & Hhi)]].
  - vm_compute; reflexivity.
  - vm_compute; reflexivity.
  - unfold in_range.
    rewrite (lt_le _ _ Hlo), (not_lt_le s c2_5 Hs eq_refl Hhi). reflexivity.
Qed.

(** The scale [zoom] sets is NaN exactly when the sum is; otherwise it
    lies in the interval. *)
Lemma zoom_range_or_nan (delta prev : number) :
  in_range (zoom delta prev) = negb (is_nan (add prev delta))
  /\ is_nan (zoom delta prev) = is_nan (add prev delta).
Proof.
  unfold zoom. destruct (is_nan (add prev delta)) eqn:Hs.
  - destruct (add prev delta); try discriminate. split; reflexivity.
  - split; [apply clamp_in_range, Hs|].
    destruct (clamp_cases (add prev delta) Hs) as [-> | [-> | (-> & _)]];
      [reflexivity | reflexivity | exact Hs].
Qed.

(** The scale that [zoom] sets lies in [0.5, 2.5] exactly when the
    previous scale and the delta are numbers and are not infinities of
    opposite sign; in the remaining cases the sum is NaN and the new
    scale is NaN. *)
Lemma zoom_clamped (delta prev : number) :
  in_range (zoom delta prev)
  = negb (is_nan prev || is_nan delta || oppositeInfinities prev delta)
  /\ is_nan (zoom delta prev)
     = is_nan prev || is_nan delta || oppositeInfinities prev delta.
Proof.
  rewrite <- add_nan. apply zoom_range_or_nan.
Qed.

(** Where the sum is no number there is nothing to clamp: a NaN scale
    stays NaN, and so does the sum of opposite infinities.  The controls
    hand [zoom] the deltas 0.1 and -0.1 only, and the scale starts at 1
    or 0.9. *)
Lemma zoom_nan_not_clamped :
  zoom c0_1 NaN = NaN /\ in_range (zoom c0_1 NaN) = false /\
  in_range (zoom (S754_infinity true) (S754_infinity false)) = false.
Proof. vm_compute. repeat split. Qed.

(** C2: for every starting scale and every delta, the scale that [zoom]
    sets lies in [0.5, 2.5]: it is at least 0.5 and at most 2.5.  The
    scale and the delta range over all numbers, those outside the
    interval and the infinite ones included; only two infinities of
    opposite sign, which have no sum, are left aside. *)
Theorem zoom_within_bounds (delta prev : number) :
  is_nan prev = false -> is_nan delta = false ->
  oppositeInfinities prev delta = false ->
  le c0_5 (zoom delta prev) = true /\ le (zoom delta prev) c2_5 = true.
Proof.
  intros Hp Hd Ho. apply andb_true_iff.
  destruct (zoom_range_or_nan delta prev) as (H & _).
  unfold in_range in H. rewrite H, add_nan, Hp, Hd, Ho. reflexivity.
Qed.

Lemma zoom_within_bounds_witness :
  (le c0_5 (zoom c0_1 (of_int 7)) = true
   /\ le (zoom c0_1 (of_int 7)) c2_5 = true)
  /\ (le c0_5 (zoom (neg c0_1) c0_5) = true
      /\ le (zoom (neg c0_1) c0_5) c2_5 = true)
  /\ (le c0_5 (zoom (S754_infinity true) c2_5) = true
      /\ le (zoom (S754_infinity true) c2_5) c2_5 = true).
Proof.
  split; [|split].
  - apply (zoom_within_bounds c0_1 (of_int 7)); reflexivity.
  - apply (zoom_within_bounds (neg c0_1) c0_5); reflexivity.
  - apply (zoom_within_bounds (S754_infinity true) c2_5); reflexivity.
Defined.

(** C9, as the spec states it, fails: the two doubles differ. *)
Lemma thirteen_clicks_differ : thirteenClicks <> accumulated.
Proof. vm_compute. discriminate. Qed.

(** C9, as the code has it: five steps up and eight steps down from the
    default scale end at 0.6000000000000001, the formula evaluates to
    0.5999999999999999; they lie one unit in the last place above and
    below the double 0.6, their difference is 2^-52, and the floor 0.5 is
    not reached. *)
Theorem thirteen_clicks_value :
  thirteenClicks = S754_finite false 5404319552844596 (-53) /\
  accumulated = S754_finite false 5404319552844594 (-53) /\
  literal 6 10 = S754_finite false 5404319552844595 (-53) /\
  sub thirteenClicks accumulated = S754_finite false 4503599627370496 (-104) /\
  lt c0_5 thirteenClicks = true /\ lt c0_5 accumulated = true.
Proof. vm_compute. repeat split. Qed.

End ZoomFacts.

(* ===================================================================== *)
(** ** The placeholder height estimate *)
(* ===================================================================== *)

Module EstimateFacts.
Import JsNumber JsNumberFacts Estimate.

(** Once the estimate is a non-zero number the callback keeps it. *)
Lemma handleDimensionsResolved_keeps (h x : number) :
  truthy x = true -> handleDimensionsResolved h (Some x) = Some x.
Proof. unfold handleDimensionsResolved; simpl; intros ->; reflexivity. Qed.

Lemma resolveAll_keeps (hs : list number) (x : number) :
  truthy x = true -> resolveAll hs (Some x) = Some x.
Proof.
  intros Hx. induction hs as [|h hs IH]; simpl; [reflexivity|].
  rewrite handleDimensionsResolved_keeps by exact Hx. exact IH.
Qed.

Lemma assignments_keeps (hs : list number) (x : number) :
  truthy x = true -> assignments hs (Some x) = 0%nat.
Proof.
  intros Hx. induction hs as [|h hs IH]; simpl; [reflexivity|].
  rewrite handleDimensionsResolved_keeps by exact Hx.
  rewrite IH. simpl.
  replace (same_value x x) with true; [reflexivity|].
  symmetry; apply same_value_eq; reflexivity.
Qed.

(** From the cleared state, the first height is stored if it is a
    non-zero number, this is the only call that changes the estimate, and
    whatever heights are reported later leave it as it is. *)
Lemma first_height_kept (h : number) (later : list number) :
  truthy h = true ->
  resolveAll (h :: later) None = Some h /\
  assignments (h :: later) None = 1%nat.
Proof.
  intros Hh. split.
  - simpl. apply resolveAll_keeps, Hh.
  - cbn [assignments].
    change (handleDimensionsResolved h None) with (Some h).
    rewrite assignments_keeps by exact Hh. reflexivity.
Qed.

End EstimateFacts.

(* ===================================================================== *)
(** ** Strings: the scanner and the regular expression *)
(* ===================================================================== *)

Module JsStringFacts.
Import JsString.
Local Open Scope N_scope.

Lemma pageMatch_unfold (s : jsstring) :
  pageMatch s = match pageMatchAt s with
                | Some ds => Some ds
                | None => match s with [] => None | _ :: r => pageMatch r end
                end.
Proof. destruct s; reflexivity. Qed.

Lemma digit_cases (c : N) :
  isDigit c = true ->
  c = 48 \/ c = 49 \/ c = 50 \/ c = 51 \/ c = 52 \/ c = 53 \/ c = 54
  \/ c = 55 \/ c = 56 \/ c = 57.
Proof.
  unfold isDigit. rewrite andb_true_iff, !N.leb_le. lia.
Qed.

Lemma digit_not_space (c : N) : isDigit c = true -> isWhiteSpace c = false.
Proof.
  intros H. destruct (digit_cases c H) as [->|[->|[->|[->|[->|[->|[->|[->|[->| ->]]]]]]]]];
    reflexivity.
Qed.

Lemma digit_not_mark (c : N) :
  isDigit c = true -> (c =? 61) = false /\ (c =? 45) = false /\ (c =? 43) = false.
Proof.
  intros H. destruct (digit_cases c H) as [->|[->|[->|[->|[->|[->|[->|[->|[->| ->]]]]]]]]];
    repeat split; reflexivity.
Qed.

Lemma skipWhiteSpace_split (s : jsstring) :
  exists w, s = w ++ skipWhiteSpace s /\ forallb isWhiteSpace w = true.
Proof.
  induction s as [|c r (w & E & Hw)]; simpl.
  - exists []; split; reflexivity.
  - destruct (isWhiteSpace c) eqn:Hc.
    + exists (c :: w); simpl; rewrite Hc, Hw, <- E; split; reflexivity.
    + exists []; split; reflexivity.
Qed.

Lemma skipWhiteSpace_app (w r : jsstring) :
  forallb isWhiteSpace w = true -> skipWhiteSpace (w ++ r) = skipWhiteSpace r.
Proof.
  induction w as [|c w IH]; simpl; [reflexivity|].
  rewrite andb_true_iff; intros [-> Hw]. apply IH, Hw.
Qed.

Lemma skipWhiteSpace_digit (d : N) (r : jsstring) :
  isDigit d = true -> skipWhiteSpace (d :: r) = d :: r.
Proof. intros H; simpl; rewrite (digit_not_space d H); reflexivity. Qed.

Lemma skipEquals_split (s : jsstring) :
  exists eq, s = eq ++ skipEquals s /\ (eq = [] \/ eq = [61]).
Proof.
  destruct s as [|c r]; simpl.
  - exists []; split; [reflexivity | left; reflexivity].
  - destruct (c =? 61) eqn:Hc.
    + apply N.eqb_eq in Hc; subst c.
      exists [61]; split; [reflexivity | right; reflexivity].
    + exists []; split; [reflexivity | left; reflexivity].
Qed.

Lemma takeDigits_split (s : jsstring) :
  exists post, s = takeDigits s ++ post
               /\ forallb isDigit (takeDigits s) = true
               /\ takeDigits post = [].
Proof.
  induction s as [|c r (post & E & Hd & Hp)]; simpl.
  - exists []; repeat split.
  - destruct (isDigit c) eqn:Hc.
    + exists post; simpl; rewrite Hc, Hd, <- E; repeat split; exact Hp.
    + exists (c :: r); simpl; rewrite Hc; repeat split.
Qed.

Lemma takeDigits_app (ds post : jsstring) :
  forallb isDigit ds = true -> takeDigits (ds ++ post) = ds ++ takeDigits post.
Proof.
  induction ds as [|c ds IH]; simpl; [reflexivity|].
  rewrite andb_true_iff; intros [-> Hd]. rewrite IH by exact Hd. reflexivity.
Qed.

Lemma takeDigits_all (ds : jsstring) :
  forallb isDigit ds = true -> takeDigits ds = ds.
Proof.
  intros H. rewrite <- (app_nil_r ds) at 1.
  rewrite takeDigits_app by exact H. simpl. apply app_nil_r.
Qed.

(** Whatever the scanner returns at a position is a match there. *)
Lemma pageMatchAt_sound (s ds : jsstring) :
  pageMatchAt s = Some ds -> PageRef s ds.
Proof.
  intros H.
  destruct s as [|p [|a [|g [|e r]]]]; try discriminate.
  unfold pageMatchAt in H.
  destruct (matchesLetter 112 p && matchesLetter 97 a
            && matchesLetter 103 g && matchesLetter 101 e) eqn:Hw;
    [|discriminate].
  destruct (skipWhiteSpace_split r) as (w1 & E1 & Hw1).
  destruct (skipEquals_split (skipWhiteSpace r)) as (eq & E2 & Heq).
  destruct (skipWhiteSpace_split (skipEquals (skipWhiteSpace r)))
    as (w2 & E3 & Hw2).
  destruct (takeDigits_split (skipWhiteSpace (skipEquals (skipWhiteSpace r))))
    as (post & E4 & Hd & Hp).
  destruct (takeDigits (skipWhiteSpace (skipEquals (skipWhiteSpace r))))
    as [|d ds'] eqn:Ed; [discriminate|].
  injection H as <-.
  apply (page_ref _ _ [] w1 eq w2 post p a g e);
    [ | exact Hw | exact Hw1 | exact Heq | exact Hw2 | discriminate
      | exact Hd | exact Hp ].
  simpl. do 4 f_equal.
  rewrite E1 at 1. f_equal. rewrite E2 at 1. f_equal.
  rewrite E3 at 1. f_equal. exact E4.
Qed.

Lemma PageRef_cons (c : N) (s ds : jsstring) :
  PageRef s ds -> PageRef (c :: s) ds.
Proof.
  intros [pre w1 eq w2 post p a g e E Hw Hw1 Heq Hw2 Hne Hd Hp].
  apply (page_ref _ _ (c :: pre) w1 eq w2 post p a g e); auto.
  rewrite E; reflexivity.
Qed.

(** Soundness: the group the scanner returns is one the expression
    matches. *)
Lemma pageMatch_sound (s ds : jsstring) :
  pageMatch s = Some ds -> PageRef s ds.
Proof.
  induction s as [|c r IH]; rewrite pageMatch_unfold.
  - simpl; discriminate.
  - destruct (pageMatchAt (c :: r)) as [ds'|] eqn:E.
    + intros [= <-]. exact (pageMatchAt_sound _ _ E).
    + intros H. apply PageRef_cons, IH, H.
Qed.

Lemma pageMatchAt_complete (w1 eq w2 ds post : jsstring) (p a g e : N) :
  matchesLetter 112 p && matchesLetter 97 a
    && matchesLetter 103 g && matchesLetter 101 e = true ->
  forallb isWhiteSpace w1 = true ->
  eq = [] \/ eq = [61] ->
  forallb isWhiteSpace w2 = true ->
  ds <> [] ->
  forallb isDigit ds = true ->
  pageMatchAt ([p; a; g; e] ++ w1 ++ eq ++ w2 ++ ds ++ post)
  = Some (ds ++ takeDigits post).
Proof.
  intros Hw Hw1 Heq Hw2 Hne Hd.
  destruct ds as [|d ds]; [contradiction|].
  simpl in Hd; apply andb_true_iff in Hd as [Hd0 Hd].
  assert (Hs : skipWhiteSpace (skipEquals (skipWhiteSpace (w1 ++ eq ++ w2 ++ (d :: ds) ++ post)))
               = (d :: ds) ++ post).
  { rewrite skipWhiteSpace_app by exact Hw1.
    destruct Heq as [-> | ->]; simpl app.
    - rewrite skipWhiteSpace_app by exact Hw2.
      rewrite skipWhiteSpace_digit by exact Hd0.
      unfold skipEquals. destruct (digit_not_mark d Hd0) as (-> & _).
      apply skipWhiteSpace_digit, Hd0.
    - change (skipWhiteSpace (61 :: w2 ++ d :: ds ++ post))
        with (61 :: w2 ++ d :: ds ++ post).
      change (skipEquals (61 :: w2 ++ d :: ds ++ post))
        with (w2 ++ d :: ds ++ post).
      rewrite skipWhiteSpace_app by exact Hw2.
      apply skipWhiteSpace_digit, Hd0. }
  change (pageMatchAt ([p; a; g; e] ++ w1 ++ eq ++ w2 ++ (d :: ds) ++ post))
    with (if matchesLetter 112 p && matchesLetter 97 a
             && matchesLetter 103 g && matchesLetter 101 e
          then match takeDigits (skipWhiteSpace (skipEquals (skipWhiteSpace
                       (w1 ++ eq ++ w2 ++ (d :: ds) ++ post)))) with
               | [] => None
               | d' :: ds' => Some (d' :: ds')
               end
          else None).
  rewrite Hw, Hs. simpl. rewrite Hd0.
  rewrite takeDigits_app by exact Hd. reflexivity.
Qed.

(** Completeness: where the expression matches, the scanner finds a
    match (the leftmost one). *)
Lemma pageMatch_complete (s ds : jsstring) :
  PageRef s ds -> exists ds', pageMatch s = Some ds'.
Proof.
  intros [pre w1 eq w2 post p a g e E Hw Hw1 Heq Hw2 Hne Hd Hp]. subst s.
  induction pre as [|c pre IH]; rewrite pageMatch_unfold.
  - rewrite app_nil_l.
    rewrite (pageMatchAt_complete w1 eq w2 ds post p a g e) by assumption.
    eexists; reflexivity.
  - destruct (pageMatchAt ((c :: pre) ++ _)) as [ds'|].
    + eexists; reflexivity.
    + exact IH.
Qed.

Lemma pageMatch_None (s : jsstring) :
  pageMatch s = None -> forall ds, ~ PageRef s ds.
Proof.
  intros H ds HR. destruct (pageMatch_complete s ds HR) as (ds' & E).
  congruence.
Qed.

(** On a run of digits [parseInt] is the decimal value. *)
Lemma parseInt_digits (d : N) (ds : jsstring) :
  forallb isDigit (d :: ds) = true ->
  parseInt (d :: ds) = Some (decimal (d :: ds)).
Proof.
  intros H. pose proof H as H'.
  simpl in H'; apply andb_true_iff in H' as [Hd _].
  unfold parseInt.
  rewrite skipWhiteSpace_digit by exact Hd.
  destruct (digit_not_mark d Hd) as (_ & -> & ->).
  rewrite takeDigits_all by exact H.
  f_equal. destruct (decimal (d :: ds)); reflexivity.
Qed.

End JsStringFacts.

(* ===================================================================== *)
(** ** The viewer: what a commit leaves alone *)
(* ===================================================================== *)

Module ViewerFacts.
Import JsNumber JsString Viewer.

(** The location effect only scrolls. *)
Lemma jumpToLocation_frame (w : World) :
  props (jumpToLocation w) = props w /\ state (jumpToLocation w) = state w
  /\ pages (jumpToLocation w) = pages w /\ tasks (jumpToLocation w) = tasks w
  /\ calls (jumpToLocation w) = calls w
  /\ pendingLoads (jumpToLocation w) = pendingLoads w.
Proof.
  unfold jumpToLocation.
  destruct (Location.targetPage _ _ _); [|repeat split].
  destruct (pages w !! _); repeat split.
Qed.

Lemma locationEffect_frame (before w : World) :
  props (locationEffect before w) = props w
  /\ state (locationEffect before w) = state w
  /\ pages (locationEffect before w) = pages w
  /\ tasks (locationEffect before w) = tasks w
  /\ calls (locationEffect before w) = calls w
  /\ pendingLoads (locationEffect before w) = pendingLoads w.
Proof.
  unfold locationEffect.
  destruct (_ && _); [repeat split | apply jumpToLocation_frame].
Qed.

(** Rendering the children touches neither the state of the viewer nor
    its props. *)
Lemma reconcile_frame (w : World) :
  props (reconcile w) = props w /\ state (reconcile w) = state w
  /\ pendingLoads (reconcile w) = pendingLoads w
  /\ scrolled (reconcile w) = scrolled w.
Proof.
  unfold reconcile.
  destruct (rerenderAll _ _ _ _ _) as [[kept ts1] cs1]. repeat split.
Qed.

Lemma state_commit (before w : World) :
  state (locationEffect before (reconcile w)) = state w.
Proof.
  destruct (locationEffect_frame before (reconcile w)) as (_ & -> & _).
  apply reconcile_frame.
Qed.

Lemma props_commit (before w : World) :
  props (locationEffect before (reconcile w)) = props w.
Proof.
  destruct (locationEffect_frame before (reconcile w)) as (-> & _).
  apply reconcile_frame.
Qed.

End ViewerFacts.

(* ===================================================================== *)
(** ** Loading: the outcome of a decode *)
(* ===================================================================== *)

Module LoadFacts.
Import JsNumber JsString Viewer Runs ViewerFacts.
Local Open Scope string_scope.

(** The kind [classify] chooses, read back from the name. *)
Lemma classify_kind (name : string) :
  (snd (classify name) = password <-> name = "PasswordException") /\
  (snd (classify name) = corrupt <->
     name = "InvalidPDFException" \/ name = "MissingPDFException") /\
  (snd (classify name) = generic <->
     name <> "PasswordException" /\ name <> "InvalidPDFException"
     /\ name <> "MissingPDFException").
Proof.
  unfold classify.
  destruct (String.eqb_spec name "PasswordException") as [->|N1];
    [simpl; intuition (discriminate || congruence)|].
  destruct (String.eqb_spec name "InvalidPDFException") as [->|N2];
    [simpl; intuition (discriminate || congruence)|].
  destruct (String.eqb_spec name "MissingPDFException") as [->|N3];
    simpl; intuition (discriminate || congruence).
Qed.

Lemma loadPdfFails_state (name : string) (s : ViewerState) :
  error (loadPdfFails name s) = Some (fst (classify name))
  /\ errorType (loadPdfFails name s) = snd (classify name)
  /\ loading (loadPdfFails name s) = false.
Proof.
  unfold loadPdfFails. destruct (classify name) as [m k]. repeat split.
Qed.

(** C8: while a load is pending, a decode failure leaves the viewer on
    the error screen, not loading, with the kind chosen from the name of
    the error: password for PasswordException, corrupt for
    InvalidPDFException and MissingPDFException, generic for every other
    name; a decode success from the loading state leaves it ready, with
    the page count of the document and the default scale. *)
Theorem decode_outcome (w : World) :
  pendingLoads w <> 0 ->
  (forall name,
     let w' := step (DecodeFails name) w in
     exists kind,
       loadState (state w') = Error kind
       /\ errorType (state w') = kind
       /\ loading (state w') = false
       /\ (kind = password <-> name = "PasswordException")
       /\ (kind = corrupt <->
             name = "InvalidPDFException" \/ name = "MissingPDFException")
       /\ (kind = generic <->
             name <> "PasswordException" /\ name <> "InvalidPDFException"
             /\ name <> "MissingPDFException"))
  /\ (forall n,
        loadState (state w) = Loading ->
        let w' := step (DecodeSucceeds n) w in
        loadState (state w') = Ready
        /\ numPages (state w') = n
        /\ option_map docNumPages (pdfDoc (state w')) = Some n
        /\ scale (state w') = Zoom.defaultScale).
Proof.
  intros Hp. destruct (pendingLoads w) as [|k] eqn:Ek; [contradiction|].
  split.
  - intros name w'. subst w'. unfold step. rewrite Ek.
    rewrite state_commit. cbn [state withPendingLoads withState].
    destruct (loadPdfFails_state name (state w)) as (He & Hk & Hl).
    exists (snd (classify name)).
    unfold loadState. rewrite He, Hk, Hl.
    destruct (classify_kind name) as (H1 & H2 & H3).
    split; [reflexivity|]. split; [reflexivity|]. split; [reflexivity|].
    split; [exact H1|]. split; [exact H2 | exact H3].
  - intros n Hl w'. subst w'. unfold step. rewrite Ek.
    rewrite state_commit. cbn [state withPendingLoads withState withFresh].
    unfold loadState in Hl |- *.
    destruct (error (state w)) eqn:Ee; [discriminate|].
    unfold loadPdfSucceeds; cbn. rewrite Ee. repeat split.
Qed.

Lemma decode_outcome_witness :
  pendingLoads loadingWorld <> 0 /\
  loadState (state (step (DecodeFails "PasswordException") loadingWorld))
  = Error password /\
  loadState (state (step (DecodeSucceeds 1) loadingWorld)) = Ready.
Proof.
  assert (Hp : pendingLoads loadingWorld <> 0) by (vm_compute; discriminate).
  destruct (decode_outcome loadingWorld Hp) as (Hf & Hs).
  split; [exact Hp|]. split.
  - destruct (Hf "PasswordException") as (kind & -> & _ & _ & Hk & _).
    f_equal. apply Hk. reflexivity.
  - apply (Hs 1). vm_compute. reflexivity.
Defined.

(** An image that fails on a viewer whose error kind was never set ends
    on the generic error screen. *)
Lemma image_failure_generic (w : World) :
  error (state w) = None -> isPdf w = false ->
  errorType (state w) = generic ->
  loadState (state (step ImageFails w)) = Error generic.
Proof.
  intros He Hi Hk. unfold step. rewrite He, Hi.
  rewrite state_commit. cbn. rewrite Hk. reflexivity.
Qed.

(** The component under new props, which the application does not send
    to a mounted viewer (it shows every document in a viewer of its
    own): at the run [passwordThenImage] a viewer is first given a
    password-protected PDF, then an image that fails to load.  The error
    screen is up with the message of the image, and the kind is still the
    one of the PDF: [onError] of the image sets no kind. *)
Lemma image_failure_keeps_stale_kind :
  let w := run passwordThenImage (mount (lit "JVBERi0xLjQK") "application/pdf") in
  error (state w) = Some "Image could not be loaded."
  /\ loadState (state w) = Error password
  /\ renderedPages w = 0.
Proof. vm_compute. repeat split. Qed.

End LoadFacts.

(* ===================================================================== *)
(** ** Pages: visibility *)
(* ===================================================================== *)

Module VisibilityFacts.
Import JsNumber JsString Viewer ViewerSpec Runs ViewerFacts.

Lemma keeps_refl (ps : list PdfPage) : keeps ps ps.
Proof. intros k p H; exists p; auto. Qed.

Lemma keeps_trans (ps1 ps2 ps3 : list PdfPage) :
  keeps ps1 ps2 -> keeps ps2 ps3 -> keeps ps1 ps3.
Proof.
  intros H12 H23 k p H.
  destruct (H12 k p H) as (p2 & L2 & I2 & V2).
  destruct (H23 k p2 L2) as (p3 & L3 & I3 & V3).
  exists p3; split; [exact L3|]. split; [congruence | auto].
Qed.

Lemma keeps_map (f : PdfPage -> PdfPage) (ps : list PdfPage) :
  gentle f -> keeps ps (map f ps).
Proof.
  intros Hf k p H. exists (f p). split.
  - change (map f ps) with (f <$> ps). rewrite list_lookup_fmap, H. reflexivity.
  - apply Hf.
Qed.

Lemma keeps_insert (ps : list PdfPage) (k : nat) (p p' : PdfPage) :
  ps !! k = Some p -> inst p' = inst p ->
  (isVisible p = true -> isVisible p' = true) ->
  keeps ps (<[k := p']> ps).
Proof.
  intros Hk Hi Hv j q Hj.
  destruct (decide (j = k)) as [->|Hne].
  - exists p'. rewrite list_lookup_insert_eq by (eapply lookup_lt_Some; eauto).
    split; [reflexivity|]. rewrite Hk in Hj; injection Hj as <-. auto.
  - exists q. rewrite list_lookup_insert_ne by congruence. auto.
Qed.

Lemma gentle_updateInst (i : nat) (f : PdfPage -> PdfPage) :
  gentle f -> gentle (fun p => if Nat.eqb (inst p) i then f p else p).
Proof.
  intros Hf p. destruct (Nat.eqb (inst p) i); [apply Hf | auto].
Qed.

Lemma keeps_updateInst (i : nat) (f : PdfPage -> PdfPage) (ps : list PdfPage) :
  gentle f -> keeps ps (updateInst i f ps).
Proof. intros Hf. apply keeps_map, gentle_updateInst, Hf. Qed.

Lemma rerender_page doc sc p ts cs :
  (rerender doc sc p ts cs).1.1 = seen doc sc p.
Proof.
  unfold rerender, seen.
  destruct (sameDoc _ _ && same_value _ _); [reflexivity|].
  destruct (runEffect doc sc p ts cs); reflexivity.
Qed.

Lemma rerenderAll_pages doc sc ps ts cs :
  (rerenderAll doc sc ps ts cs).1.1 = map (seen doc sc) ps.
Proof.
  revert ts cs. induction ps as [|p ps IH]; intros ts cs; simpl; [reflexivity|].
  pose proof (rerender_page doc sc p ts cs) as Hp.
  destruct (rerender doc sc p ts cs) as [[p' ts1] cs1]. simpl in Hp.
  specialize (IH ts1 cs1).
  destruct (rerenderAll doc sc ps ts1 cs1) as [[ps' ts2] cs2]. simpl in *.
  congruence.
Qed.

Lemma gentle_seen doc sc : gentle (seen doc sc).
Proof.
  intros p. unfold seen.
  destruct (sameDoc _ _ && same_value _ _); simpl; auto.
Qed.

Lemma zoom_pages (delta : number) (w : World) :
  error (state w) = None ->
  pages (step (ZoomBy delta) w)
  = map (seen (pdfDoc (state w)) (Zoom.zoom delta (scale (state w)))) (pages w).
Proof.
  intros He. unfold step. rewrite He.
  cbn [state pages tasks calls withState setScale pdfDoc scale].
  pose proof (rerenderAll_pages (pdfDoc (state w))
                (Zoom.zoom delta (scale (state w))) (pages w) (tasks w) (calls w)) as H.
  destruct (rerenderAll _ _ _ _ _) as [[ps ts] cs]. exact H.
Qed.

Lemma step_keeps (e : Event) (w : World) :
  sameSession e -> settled w ->
  keeps (pages w) (pages (step e w)) /\ settled (step e w).
Proof.
  intros He (Hpdf & Hwr & Hpl).
  destruct e as [ |data mime|n|name| |delta|k b|c h|t|ref]; simpl in He;
    try contradiction.
  - (* WorkerInitialized *)
    unfold step. rewrite Hwr. split; [apply keeps_refl | repeat split; assumption].
  - (* DecodeSucceeds *)
    unfold step. rewrite Hpl. split; [apply keeps_refl | repeat split; assumption].
  - (* DecodeFails *)
    unfold step. rewrite Hpl. split; [apply keeps_refl | repeat split; assumption].
  - (* ImageFails *)
    unfold step. rewrite Hpdf.
    destruct (error (state w)); (split; [apply keeps_refl | repeat split; assumption]).
  - (* ZoomBy *)
    destruct (error (state w)) eqn:Ee.
    + unfold step. rewrite Ee.
      split; [apply keeps_refl | repeat split; assumption].
    + split.
      * rewrite (zoom_pages delta w Ee). apply keeps_map, gentle_seen.
      * unfold step. rewrite Ee.
        destruct (rerenderAll _ _ _ _ _) as [[ps ts] cs].
        repeat split; assumption.
  - (* Intersects *)
    unfold step, intersects.
    destruct (pages w !! k) as [p|] eqn:Ek;
      [|split; [apply keeps_refl | repeat split; assumption]].
    destruct (observing p && b);
      [|split; [apply keeps_refl | repeat split; assumption]].
    destruct (isVisible p) eqn:Ev.
    + split; [|repeat split; assumption].
      apply (keeps_insert _ _ p); auto.
    + destruct (runEffect _ _ _ _ _) as [ts cs].
      split; [|repeat split; assumption].
      apply (keeps_insert _ _ p); auto.
  - (* Resumes *)
    unfold step.
    destruct (calls w !! c) as [call|];
      [|split; [apply keeps_refl | repeat split; assumption]].
    destruct (callAt call);
      try (split; [apply keeps_refl | repeat split; assumption]).
    unfold gotPage. destruct (isMounted _ _).
    + split; [|repeat split; assumption]. cbn [pages].
      eapply keeps_trans; apply keeps_updateInst; intros p; simpl; auto.
    + split; [|repeat split; assumption]. cbn [pages].
      apply keeps_updateInst; intros p; simpl; auto.
  - (* TaskCompletes *)
    unfold step, taskCompletes.
    destruct (tasks w !! t) as [T|];
      [|split; [apply keeps_refl | repeat split; assumption]].
    destruct (taskStatus T);
      try (split; [apply keeps_refl | repeat split; assumption]).
    split; [|repeat split; assumption]. cbn [pages withPages].
    apply keeps_updateInst; intros p; simpl; auto.
  - (* Jump *)
    unfold step.
    destruct (locationEffect_frame w
                (withProps (mkProps (fileData (props w)) (mimeType (props w))
                              (Some (Location.handleJumpToLocation ref))) w))
      as (Hp & Hs & Hps & _ & _ & Hl).
    split; [rewrite Hps; apply keeps_refl|].
    unfold settled, isPdf. rewrite Hp, Hs, Hl. repeat split; assumption.
Qed.

Lemma run_keeps (es : list Event) (w : World) :
  Forall sameSession es -> settled w ->
  keeps (pages w) (pages (run es w)) /\ settled (run es w).
Proof.
  revert w. induction es as [|e es IH]; intros w Hes Hw; simpl.
  - split; [apply keeps_refl | exact Hw].
  - inversion Hes as [|? ? He Hes']; subst.
    destruct (step_keeps e w He Hw) as (K1 & S1).
    destruct (IH (step e w) Hes' S1) as (K2 & S2).
    split; [eapply keeps_trans; eauto | exact S2].
Qed.

(** C5: in a settled PDF session, once the page at some place is
    visible, it is still mounted and visible after any events other than
    new props: scrolling in or out (the observer firing either way),
    zooming, renders resuming and completing, jumps.  Nothing in a
    session sets the flag back. *)
Theorem visibility_monotonic (w : World) (es : list Event) (k : nat) (p : PdfPage) :
  settled w -> Forall sameSession es ->
  pages w !! k = Some p -> isVisible p = true ->
  exists p', pages (run es w) !! k = Some p' /\ inst p' = inst p
             /\ isVisible p' = true.
Proof.
  intros Hw Hes Hk Hv.
  destruct (run_keeps es w Hes Hw) as (K & _).
  destruct (K k p Hk) as (p' & L & I & V).
  exists p'; auto.
Qed.

Lemma visibility_monotonic_witness :
  exists p',
    pages (run scrollingAbout firstPageVisible) !! 0 = Some p'
    /\ inst p' = 1 /\ isVisible p' = true.
Proof.
  apply (visibility_monotonic firstPageVisible scrollingAbout 0
           (mkPdfPage 1 true false None None false (Some 0) c0_9 [])).
  - repeat split; vm_compute; reflexivity.
  - repeat constructor.
  - vm_compute; reflexivity.
  - reflexivity.
Defined.

End VisibilityFacts.

(* ===================================================================== *)
(** ** The location bridge *)
(* ===================================================================== *)

Module LocationFacts.
Import JsNumber JsString JsStringFacts Viewer ViewerSpec Runs ViewerFacts
  VisibilityFacts.
Import Location.

(** The effect's test, for a PDF, in terms of [parseInt] alone. *)
Lemma targetPage_pdf (loc : jsstring) (n : nat) :
  targetPage (Some loc) true (Z.of_nat n)
  = match parseInt loc with
    | Some t => if inRange t n then Some t else None
    | None => None
    end.
Proof.
  unfold targetPage, inRange. destruct loc as [|c l]; [reflexivity|].
  simpl andb. destruct (0 <? Z.of_nat n)%Z eqn:Hn; [reflexivity|].
  destruct (parseInt (c :: l)) as [t|]; [|reflexivity].
  destruct (0 <? t)%Z eqn:Ht; [|reflexivity].
  destruct (t <=? Z.of_nat n)%Z eqn:Hle; [|reflexivity].
  apply Z.ltb_ge in Hn. apply Z.ltb_lt in Ht. apply Z.leb_le in Hle. lia.
Qed.

Lemma sameLocation_false (a : option jsstring) (l : jsstring) :
  a <> Some l -> sameLocation a (Some l) = false.
Proof.
  destruct a as [x|]; simpl; [|reflexivity].
  intros H. apply bool_decide_eq_false. congruence.
Qed.

Lemma sameLocation_refl (a : option jsstring) : sameLocation a a = true.
Proof.
  destruct a as [x|]; simpl; [|reflexivity].
  apply bool_decide_eq_true. reflexivity.
Qed.

(** What a jump that changes the location scrolls to. *)
Lemma jump_scrolls (ref : jsstring) (w : World) :
  isPdf w = true ->
  length (pages w) = numPages (state w) ->
  location (props w) <> Some (handleJumpToLocation ref) ->
  scrolled (step (Jump ref) w)
  = match parseInt (handleJumpToLocation ref) with
    | Some t => if inRange t (numPages (state w))
                then Z.to_nat t :: scrolled w else scrolled w
    | None => scrolled w
    end.
Proof.
  intros Hpdf Hlen Hloc. unfold step, locationEffect.
  cbn [props state withProps location].
  rewrite (sameLocation_false _ _ Hloc). cbn [andb].
  unfold jumpToLocation.
  cbn [props state pages scrolled withProps location].
  replace (isPdf (withProps _ w)) with true by (symmetry; exact Hpdf).
  rewrite targetPage_pdf.
  destruct (parseInt (handleJumpToLocation ref)) as [t|]; [|reflexivity].
  destruct (inRange t (numPages (state w))) eqn:Hr; [|reflexivity].
  unfold inRange in Hr. apply andb_true_iff in Hr as [Ht Hle].
  apply Z.ltb_lt in Ht. apply Z.leb_le in Hle.
  destruct (lookup_lt_is_Some_2 (pages w) (Z.to_nat t - 1)) as [p ->];
    [lia | reflexivity].
Qed.

(** A jump leaves the state of the viewer, its pages and its tasks as
    they are: it raises nothing and sets no error. *)
Lemma jump_frame (ref : jsstring) (w : World) :
  state (step (Jump ref) w) = state w
  /\ pages (step (Jump ref) w) = pages w
  /\ tasks (step (Jump ref) w) = tasks w
  /\ location (props (step (Jump ref) w)) = Some (handleJumpToLocation ref)
  /\ mimeType (props (step (Jump ref) w)) = mimeType (props w).
Proof.
  unfold step.
  destruct (locationEffect_frame w
              (withProps (mkProps (fileData (props w)) (mimeType (props w))
                            (Some (handleJumpToLocation ref))) w))
    as (-> & -> & -> & -> & _). repeat split.
Qed.

(** C6, as the code has it.  The reference is searched for the leftmost
    "page" (any case), white space, at most one [=], white space and
    digits.  In a PDF whose pages are all mounted, a jump that changes
    the location of the viewer
    - when digits were found, scrolls to the page of that number if it
      is one of the pages, and does nothing otherwise;
    - when none were found, hands the reference without its first [#] to
      the viewer, which reads it with [parseInt]: it scrolls to that page
      if it is one of the pages and does nothing otherwise.
    The state of the viewer is untouched either way. *)
Theorem jump_resolution (ref : jsstring) (w : World) :
  isPdf w = true ->
  length (pages w) = numPages (state w) ->
  location (props w) <> Some (handleJumpToLocation ref) ->
  let w' := step (Jump ref) w in
  state w' = state w /\
  match pageMatch ref with
  | Some ds =>
      PageRef ref ds /\
      scrolled w' = if inRange (decimal ds) (numPages (state w))
                    then Z.to_nat (decimal ds) :: scrolled w
                    else scrolled w
  | None =>
      (forall ds, ~ PageRef ref ds) /\
      scrolled w' = match parseInt (replaceFirstHash ref) with
                    | Some t => if inRange t (numPages (state w))
                                then Z.to_nat t :: scrolled w
                                else scrolled w
                    | None => scrolled w
                    end
  end.
Proof.
  intros Hpdf Hlen Hloc w'. subst w'.
  split; [apply jump_frame|].
  rewrite (jump_scrolls ref w Hpdf Hlen Hloc).
  unfold handleJumpToLocation.
  destruct (pageMatch ref) as [ds|] eqn:Em.
  - pose proof (pageMatch_sound ref ds Em) as HR.
    split; [exact HR|].
    destruct HR as [pre w1 eq w2 post p a g e _ _ _ _ _ Hne Hd _].
    destruct ds as [|d ds]; [contradiction|].
    rewrite (parseInt_digits d ds Hd). reflexivity.
  - split; [apply pageMatch_None, Em | reflexivity].
Qed.

Lemma jump_resolution_witness :
  scrolled (step (Jump (lit "see Page = 2, line 4")) threePages) = [2].
Proof.
  pose proof (jump_resolution (lit "see Page = 2, line 4") threePages
                ltac:(vm_compute; reflexivity)
                ltac:(vm_compute; reflexivity)
                ltac:(vm_compute; discriminate)) as (_ & H).
  vm_compute in H. destruct H as (_ & H). vm_compute. exact H.
Defined.

(** C6, as the spec states it, fails: in "#2" the expression finds no
    page number, and still the jump scrolls to page 2; so does the bare
    "2", and "3rd clause" scrolls to page 3. *)
Lemma jump_without_page_word_scrolls :
  pageMatch (lit "#2") = None
  /\ scrolled (step (Jump (lit "#2")) threePages) = [2]
  /\ pageMatch (lit "2") = None
  /\ scrolled (step (Jump (lit "2")) threePages) = [2]
  /\ pageMatch (lit "3rd clause") = None
  /\ scrolled (step (Jump (lit "3rd clause")) threePages) = [3].
Proof. vm_compute. repeat split. Qed.

(** Within a settled session the document stays the same. *)
Lemma step_same_document (e : Event) (w : World) :
  sameSession e -> settled w ->
  numPages (state (step e w)) = numPages (state w)
  /\ mimeType (props (step e w)) = mimeType (props w).
Proof.
  intros He (Hpdf & Hwr & Hpl).
  destruct e as [ |data mime|n|name| |delta|k b|c h|t|ref]; simpl in He;
    try contradiction.
  - unfold step. rewrite Hwr. split; reflexivity.
  - unfold step. rewrite Hpl. split; reflexivity.
  - unfold step. rewrite Hpl. split; reflexivity.
  - unfold step. rewrite Hpdf. destruct (error (state w)); split; reflexivity.
  - unfold step. destruct (error (state w)); [split; reflexivity|].
    destruct (rerenderAll _ _ _ _ _) as [[ps ts] cs]. split; reflexivity.
  - unfold step, intersects.
    destruct (pages w !! k) as [p|]; [|split; reflexivity].
    destruct (observing p && b); [|split; reflexivity].
    destruct (isVisible p); [split; reflexivity|].
    destruct (runEffect _ _ _ _ _) as [ts cs]. split; reflexivity.
  - unfold step.
    destruct (calls w !! c) as [call|]; [|split; reflexivity].
    destruct (callAt call); try (split; reflexivity).
    unfold gotPage. destruct (isMounted _ _); split; reflexivity.
  - unfold step, taskCompletes.
    destruct (tasks w !! t) as [T|]; [|split; reflexivity].
    destruct (taskStatus T); split; reflexivity.
  - destruct (jump_frame ref w) as (-> & _ & _ & _ & ->). split; reflexivity.
Qed.

Lemma run_same_document (es : list Event) (w : World) :
  Forall sameSession es -> settled w ->
  numPages (state (run es w)) = numPages (state w)
  /\ mimeType (props (run es w)) = mimeType (props w).
Proof.
  revert w. induction es as [|e es IH]; intros w Hes Hw; simpl.
  - split; reflexivity.
  - inversion Hes as [|? ? He Hes']; subst.
    destruct (step_same_document e w He Hw) as (N1 & M1).
    destruct (step_keeps e w He Hw) as (_ & S1).
    destruct (IH (step e w) Hes' S1) as (N2 & M2).
    split; congruence.
Qed.

Lemma designated_jump (ref : jsstring) (w : World) :
  designated (step (Jump ref) w)
  = targetPage (Some (handleJumpToLocation ref)) (isPdf w)
      (Z.of_nat (numPages (state w))).
Proof.
  unfold designated, isPdf.
  destruct (jump_frame ref w) as (-> & _ & _ & -> & ->). reflexivity.
Qed.

(** A jump to the location the viewer already has changes nothing. *)
Lemma jump_again (ref : jsstring) (w : World) :
  location (props w) = Some (handleJumpToLocation ref) ->
  step (Jump ref) w = w.
Proof.
  intros H. unfold step, locationEffect.
  cbn [props state withProps location].
  rewrite H, sameLocation_refl, Nat.eqb_refl. cbn [andb].
  replace (isPdf (withProps _ w)) with (isPdf w) by reflexivity.
  rewrite Bool.eqb_reflx.
  destruct w as [[fd mt loc] st ps ts cs pl fr sc]. simpl in *.
  subst loc. reflexivity.
Qed.

(** The page that the stored location designates.  In a settled PDF
    session, whatever happens between two jumps with the same reference
    (scrolling, zooming, renders resuming and completing, other jumps),
    the location stored by the second designates the page the first
    designated; that page depends on the reference and the page count
    only; jumping again at once changes nothing; and "page=3" on a
    document of at least three pages designates page 3.  This is about
    the location stored, not about the view: whether the view moves is
    the matter of [scrolled]. *)
Lemma jump_idempotent (ref : jsstring) (w : World) (between : list Event) :
  settled w -> Forall sameSession between ->
  let once := step (Jump ref) w in
  let twice := step (Jump ref) (run between once) in
  designated twice = designated once
  /\ designated once
     = targetPage (Some (handleJumpToLocation ref)) true
         (Z.of_nat (numPages (state w)))
  /\ step (Jump ref) once = once
  /\ (ref = lit "page=3" -> 3 <= numPages (state w) ->
      designated once = Some 3%Z).
Proof.
  intros Hw Hes once twice.
  assert (Honce : settled once).
  { apply (step_keeps (Jump ref) w I Hw). }
  assert (E1 : designated once
               = targetPage (Some (handleJumpToLocation ref)) true
                   (Z.of_nat (numPages (state w)))).
  { unfold once. rewrite designated_jump.
    destruct Hw as (-> & _). reflexivity. }
  split; [|split; [exact E1|split]].
  - rewrite E1. unfold twice. rewrite designated_jump.
    destruct (run_same_document between once Hes Honce) as (HN & HM).
    destruct (run_keeps between once Hes Honce) as (_ & (Hpdf & _)).
    rewrite Hpdf, HN. unfold once.
    destruct (jump_frame ref w) as (-> & _). reflexivity.
  - apply jump_again. unfold once. apply jump_frame.
  - intros -> Hn. rewrite E1, targetPage_pdf.
    change (parseInt (handleJumpToLocation (lit "page=3"))) with (Some 3%Z).
    unfold inRange. replace (3 <=? Z.of_nat (numPages (state w)))%Z with true;
      [reflexivity|].
    symmetry. apply Z.leb_le. lia.
Qed.

Lemma jump_idempotent_witness :
  designated
    (step (Jump (lit "page=3"))
       (run [Intersects 0 true; ZoomBy c0_1; Jump (lit "page 1");
             Resumes 0 (of_int 713); Intersects 2 true]
          (step (Jump (lit "page=3")) threePages)))
  = Some 3%Z.
Proof.
  destruct (jump_idempotent (lit "page=3") threePages
              [Intersects 0 true; ZoomBy c0_1; Jump (lit "page 1");
               Resumes 0 (of_int 713); Intersects 2 true])
    as (H2 & _ & _ & H3).
  - repeat split; vm_compute; reflexivity.
  - repeat constructor.
  - rewrite H2. apply H3; [reflexivity | vm_compute; lia].
Defined.

End LocationFacts.

(* ===================================================================== *)
(** ** Render tasks *)
(* ===================================================================== *)

Module RenderFacts.
Import JsNumber JsString Viewer ViewerSpec Runs ViewerFacts VisibilityFacts.

Lemma onlyCancels_evolves ts ts' : onlyCancels ts ts' -> evolves ts ts'.
Proof.
  intros H t T Ht. destruct (H t T Ht) as (T' & L & I & S & [E | (P & _)]).
  - exists T'; repeat split; auto.
  - exists T'; repeat split; auto. intros N; contradiction.
Qed.

Lemma onlyCancels_refl ts : onlyCancels ts ts.
Proof. intros t T H; exists T; repeat split; auto. Qed.

Lemma onlyCancels_trans ts1 ts2 ts3 :
  onlyCancels ts1 ts2 -> onlyCancels ts2 ts3 -> onlyCancels ts1 ts3.
Proof.
  intros H12 H23 t T H.
  destruct (H12 t T H) as (T2 & L2 & I2 & S2 & C2).
  destruct (H23 t T2 L2) as (T3 & L3 & I3 & S3 & C3).
  exists T3. split; [exact L3|]. split; [congruence|]. split; [congruence|].
  destruct C2 as [E2 | (P2 & K2)], C3 as [E3 | (P3 & K3)];
    try (left; congruence); try (right; split; congruence).
Qed.

Lemma evolves_refl ts : evolves ts ts.
Proof. apply onlyCancels_evolves, onlyCancels_refl. Qed.

Lemma evolves_trans ts1 ts2 ts3 :
  evolves ts1 ts2 -> evolves ts2 ts3 -> evolves ts1 ts3.
Proof.
  intros H12 H23 t T H.
  destruct (H12 t T H) as (T2 & L2 & I2 & S2 & C2).
  destruct (H23 t T2 L2) as (T3 & L3 & I3 & S3 & C3).
  exists T3. split; [exact L3|]. split; [congruence|]. split; [congruence|].
  intros N. rewrite C3; [apply C2, N | rewrite (C2 N); exact N].
Qed.

Lemma cancel_spec (T : RenderTask) :
  taskInst (cancel T) = taskInst T /\ taskScale (cancel T) = taskScale T
  /\ taskStatus (cancel T) <> Painting
  /\ (taskStatus (cancel T) = taskStatus T
      \/ (taskStatus T = Painting /\ taskStatus (cancel T) = Cancelled)).
Proof.
  unfold cancel. destruct (taskStatus T) eqn:E; simpl; rewrite ?E;
    repeat split; auto; discriminate.
Qed.

Lemma onlyCancels_alter (t : nat) (ts : list RenderTask) :
  onlyCancels ts (alter cancel t ts).
Proof.
  intros j T Hj. destruct (decide (j = t)) as [->|Hne].
  - exists (cancel T). rewrite list_lookup_alter_eq, Hj.
    split; [reflexivity|]. destruct (cancel_spec T) as (I & S & _ & C); auto.
  - exists T. rewrite list_lookup_alter_ne by congruence. auto.
Qed.

Lemma onlyCancels_cancelRef (r : option nat) (ts : list RenderTask) :
  onlyCancels ts (cancelRef r ts).
Proof.
  destruct r; [apply onlyCancels_alter | apply onlyCancels_refl].
Qed.

(** [cancel] through the ref leaves the task of the ref not painting. *)
Lemma cancelRef_settles (t : nat) (T : RenderTask) (ts : list RenderTask) :
  ts !! t = Some T ->
  exists T', cancelRef (Some t) ts !! t = Some T' /\ taskStatus T' <> Painting.
Proof.
  intros H. exists (cancel T). simpl. rewrite list_lookup_alter_eq, H.
  split; [reflexivity | apply cancel_spec].
Qed.

Lemma effectBody_tasks doc sc p ts :
  (effectBody doc sc p ts).1 = ts
  \/ (effectBody doc sc p ts).1 = cancelRef (renderTaskRef p) ts.
Proof.
  unfold effectBody. destruct doc; [|left; reflexivity].
  destruct (isVisible p); [|left; reflexivity].
  destruct (renderTaskRef p); [right | left]; reflexivity.
Qed.

Lemma runEffect_tasks doc sc p ts cs :
  onlyCancels (cancelRef (renderTaskRef p) ts) (runEffect doc sc p ts cs).1.
Proof.
  unfold runEffect, effectCleanup.
  pose proof (effectBody_tasks doc sc p (cancelRef (renderTaskRef p) ts)) as H.
  destruct (effectBody doc sc p (cancelRef (renderTaskRef p) ts)) as [ts' c].
  simpl in *. destruct H as [-> | ->].
  - apply onlyCancels_refl.
  - apply onlyCancels_cancelRef.
Qed.

Lemma runEffect_onlyCancels doc sc p ts cs :
  onlyCancels ts (runEffect doc sc p ts cs).1.
Proof.
  eapply onlyCancels_trans;
    [apply onlyCancels_cancelRef | apply runEffect_tasks].
Qed.

(** A run of the effect leaves the task of the ref not painting. *)
Lemma runEffect_settles doc sc p ts cs t T :
  renderTaskRef p = Some t -> ts !! t = Some T ->
  exists T', (runEffect doc sc p ts cs).1 !! t = Some T'
             /\ taskStatus T' <> Painting.
Proof.
  intros Hr Ht. pose proof (runEffect_tasks doc sc p ts cs) as H.
  rewrite Hr in H.
  destruct (cancelRef_settles t T ts Ht) as (T1 & L1 & N1).
  destruct (H t T1 L1) as (T2 & L2 & _ & _ & C).
  exists T2. split; [exact L2|].
  destruct C as [E | (P & _)]; [congruence | contradiction].
Qed.

Lemma rerender_onlyCancels doc sc p ts cs :
  onlyCancels ts (rerender doc sc p ts cs).1.2.
Proof.
  unfold rerender. destruct (sameDoc _ _ && same_value _ _).
  - apply onlyCancels_refl.
  - pose proof (runEffect_onlyCancels doc sc p ts cs) as H.
    destruct (runEffect doc sc p ts cs) as [ts' cs']. exact H.
Qed.

Lemma rerenderAll_onlyCancels doc sc ps ts cs :
  onlyCancels ts (rerenderAll doc sc ps ts cs).1.2.
Proof.
  revert ts cs. induction ps as [|p ps IH]; intros ts cs; simpl.
  - apply onlyCancels_refl.
  - pose proof (rerender_onlyCancels doc sc p ts cs) as Hp.
    destruct (rerender doc sc p ts cs) as [[p' ts1] cs1]. simpl in Hp.
    specialize (IH ts1 cs1).
    destruct (rerenderAll doc sc ps ts1 cs1) as [[ps' ts2] cs2]. simpl in *.
    eapply onlyCancels_trans; eauto.
Qed.

Lemma unmountAll_onlyCancels ps ts : onlyCancels ts (unmountAll ps ts).
Proof.
  revert ts. induction ps as [|p ps IH]; intros ts; simpl.
  - apply onlyCancels_refl.
  - eapply onlyCancels_trans; [apply onlyCancels_cancelRef | apply IH].
Qed.

(** Unmounting leaves the task of every ref not painting. *)
Lemma unmountAll_settles ps ts k p t T :
  ps !! k = Some p -> renderTaskRef p = Some t -> ts !! t = Some T ->
  exists T', unmountAll ps ts !! t = Some T' /\ taskStatus T' <> Painting.
Proof.
  revert ts k T. induction ps as [|q ps IH]; intros ts k T Hk Hr Ht;
    [discriminate|].
  destruct k as [|k]; simpl in Hk.
  - injection Hk as ->. simpl. unfold effectCleanup. rewrite Hr.
    destruct (cancelRef_settles t T ts Ht) as (T1 & L1 & N1).
    destruct (unmountAll_onlyCancels ps (cancelRef (Some t) ts) t T1 L1)
      as (T2 & L2 & _ & _ & C).
    exists T2. split; [exact L2|].
    destruct C as [E | (P & _)]; [congruence | contradiction].
  - simpl.
    destruct (onlyCancels_cancelRef (renderTaskRef q) ts t T Ht)
      as (T1 & L1 & _).
    apply (IH _ k T1 Hk Hr L1).
Qed.

Lemma reconcile_tasks (w : World) :
  exists kept cs,
    rerenderAll (pdfDoc (state w)) (scale (state w))
      (take (renderedPages w) (pages w))
      (unmountAll (drop (renderedPages w) (pages w)) (tasks w)) (calls w)
    = (kept, tasks (reconcile w), cs)
    /\ pages (reconcile w)
       = kept ++ map (fun i => mountPage (fresh w + i) (pdfDoc (state w))
                                (scale (state w)))
                   (seq 0 (renderedPages w - length kept)).
Proof.
  unfold reconcile.
  destruct (rerenderAll _ _ _ _ _) as [[kept ts1] cs1].
  exists kept, cs1. split; reflexivity.
Qed.

Lemma reconcile_onlyCancels (w : World) :
  onlyCancels (tasks w) (tasks (reconcile w)).
Proof.
  destruct (reconcile_tasks w) as (kept & cs & E & _).
  eapply onlyCancels_trans; [apply unmountAll_onlyCancels|].
  pose proof (rerenderAll_onlyCancels (pdfDoc (state w)) (scale (state w))
                (take (renderedPages w) (pages w))
                (unmountAll (drop (renderedPages w) (pages w)) (tasks w))
                (calls w)) as H.
  rewrite E in H. exact H.
Qed.

Lemma commit_onlyCancels (before w : World) :
  onlyCancels (tasks w) (tasks (locationEffect before (reconcile w))).
Proof.
  destruct (locationEffect_frame before (reconcile w)) as (_ & _ & _ & -> & _).
  apply reconcile_onlyCancels.
Qed.

Lemma loadEffect_frame (w : World) :
  tasks (loadEffect w) = tasks w /\ pages (loadEffect w) = pages w
  /\ props (loadEffect w) = props w.
Proof.
  unfold loadEffect. destruct (fileData (props w)); [repeat split|].
  destruct (isPdf w && negb (workerReady (state w))); [repeat split|].
  destruct (isPdf w); repeat split.
Qed.

Lemma evolves_app (ts : list RenderTask) (T : RenderTask) :
  evolves ts (ts ++ [T]).
Proof.
  intros t T0 H. exists T0. split; [|auto].
  apply lookup_app_l_Some, H.
Qed.

Lemma evolves_complete (ts : list RenderTask) (t : nat) (T : RenderTask) :
  ts !! t = Some T -> taskStatus T = Painting ->
  evolves ts (<[t := setStatus Completed T]> ts).
Proof.
  intros Ht HP j T0 Hj. destruct (decide (j = t)) as [->|Hne].
  - exists (setStatus Completed T).
    rewrite list_lookup_insert_eq by (eapply lookup_lt_Some; eauto).
    rewrite Ht in Hj; injection Hj as <-.
    repeat split; auto. intros N; contradiction.
  - exists T0. rewrite list_lookup_insert_ne by congruence. auto.
Qed.

(** Through every event a task keeps its place, its canvas and its
    scale, and once it no longer paints its status is final. *)
Lemma step_evolves (e : Event) (w : World) :
  evolves (tasks w) (tasks (step e w)).
Proof.
  destruct e as [ |data mime|n|name| |delta|k b|c h|t|ref]; unfold step.
  - destruct (workerReady (state w)); [apply evolves_refl|].
    unfold afterLoadEffect. apply onlyCancels_evolves.
    eapply onlyCancels_trans; [|apply commit_onlyCancels].
    destruct (loadEffect_frame (withState (setWorkerReady true (state w)) w))
      as (-> & _). apply onlyCancels_refl.
  - destruct (_ && _); [apply evolves_refl|].
    unfold afterLoadEffect. apply onlyCancels_evolves.
    eapply onlyCancels_trans; [|apply commit_onlyCancels].
    match goal with |- onlyCancels _ (tasks (loadEffect ?x)) =>
      destruct (loadEffect_frame x) as (-> & _) end.
    apply (commit_onlyCancels w
             (withProps (mkProps data mime (location (props w))) w)).
  - destruct (pendingLoads w); [apply evolves_refl|].
    apply onlyCancels_evolves.
    match goal with |- onlyCancels _ (tasks (locationEffect _ (reconcile ?x))) =>
      apply (commit_onlyCancels w x) end.
  - destruct (pendingLoads w); [apply evolves_refl|].
    apply onlyCancels_evolves.
    match goal with |- onlyCancels _ (tasks (locationEffect _ (reconcile ?x))) =>
      apply (commit_onlyCancels w x) end.
  - destruct (error (state w)); [apply evolves_refl|].
    destruct (isPdf w); [apply evolves_refl|].
    apply onlyCancels_evolves.
    match goal with |- onlyCancels _ (tasks (locationEffect _ (reconcile ?x))) =>
      apply (commit_onlyCancels w x) end.
  - destruct (error (state w)); [apply evolves_refl|].
    cbn [state pages tasks calls withState].
    match goal with |- context [rerenderAll ?d ?s ?p ?t ?c] =>
      pose proof (rerenderAll_onlyCancels d s p t c) as H;
      destruct (rerenderAll d s p t c) as [[ps ts] cs] end.
    apply onlyCancels_evolves. exact H.
  - unfold intersects. destruct (pages w !! k) as [p|]; [|apply evolves_refl].
    destruct (observing p && b); [|apply evolves_refl].
    destruct (isVisible p); [apply evolves_refl|].
    match goal with |- context [runEffect ?d ?s ?p ?t ?c] =>
      pose proof (runEffect_onlyCancels d s p t c) as H;
      destruct (runEffect d s p t c) as [ts cs] end.
    apply onlyCancels_evolves. exact H.
  - destruct (calls w !! c) as [call|]; [|apply evolves_refl].
    destruct (callAt call); try apply evolves_refl.
    unfold gotPage. destruct (isMounted _ _); cbn [tasks].
    + apply evolves_app.
    + apply evolves_refl.
  - unfold taskCompletes. destruct (tasks w !! t) as [T|] eqn:Et;
      [|apply evolves_refl].
    destruct (taskStatus T) eqn:Es; try apply evolves_refl.
    cbn [tasks withPages withTasks]. apply evolves_complete; assumption.
  - destruct (locationEffect_frame w
                (withProps (mkProps (fileData (props w)) (mimeType (props w))
                              (Some (Location.handleJumpToLocation ref))) w))
      as (_ & _ & _ & -> & _).
    apply evolves_refl.
Qed.

Lemma run_evolves (es : list Event) (w : World) :
  evolves (tasks w) (tasks (run es w)).
Proof.
  revert w. induction es as [|e es IH]; intros w; simpl.
  - apply evolves_refl.
  - eapply evolves_trans; [apply step_evolves | apply IH].
Qed.

(** The decoder completing a task that no longer paints changes
    nothing: nothing reaches the canvas. *)
Lemma settled_task_never_commits (t : nat) (T : RenderTask) (w : World) :
  tasks w !! t = Some T -> taskStatus T <> Painting ->
  step (TaskCompletes t) w = w.
Proof.
  intros Ht HN. unfold step, taskCompletes. rewrite Ht.
  destruct (taskStatus T); [contradiction | reflexivity | reflexivity].
Qed.

End RenderFacts.

(* ===================================================================== *)
(** ** A render superseded by another *)
(* ===================================================================== *)

Module SupersedeFacts.
Import JsNumber JsString Viewer ViewerSpec Runs ViewerFacts VisibilityFacts
  RenderFacts.

Lemma rerender_settles doc sc p ts cs t T :
  renderTaskRef p = Some t ->
  sameDoc (seenDoc p) doc && same_value (seenScale p) sc = false ->
  ts !! t = Some T ->
  exists T', (rerender doc sc p ts cs).1.2 !! t = Some T'
             /\ taskStatus T' <> Painting.
Proof.
  intros Hr Hd Ht. unfold rerender. rewrite Hd.
  pose proof (runEffect_settles doc sc p ts cs t T Hr Ht) as H.
  destruct (runEffect doc sc p ts cs) as [ts' cs']. exact H.
Qed.

(** Rendering the pages again cancels the task in the ref of every page
    whose deps changed. *)
Lemma rerenderAll_settles doc sc ps ts cs k p t T :
  ps !! k = Some p -> renderTaskRef p = Some t ->
  sameDoc (seenDoc p) doc && same_value (seenScale p) sc = false ->
  ts !! t = Some T ->
  exists T', (rerenderAll doc sc ps ts cs).1.2 !! t = Some T'
             /\ taskStatus T' <> Painting.
Proof.
  revert ts cs k T. induction ps as [|q ps IH]; intros ts cs k T Hk Hr Hd Ht;
    [discriminate|].
  simpl. destruct k as [|k]; simpl in Hk.
  - injection Hk as ->.
    pose proof (rerender_settles doc sc p ts cs t T Hr Hd Ht) as (T1 & L1 & N1).
    destruct (rerender doc sc p ts cs) as [[p' ts1] cs1]. simpl in L1.
    pose proof (rerenderAll_onlyCancels doc sc ps ts1 cs1 t T1 L1)
      as (T2 & L2 & _ & _ & C).
    destruct (rerenderAll doc sc ps ts1 cs1) as [[ps' ts2] cs2]. simpl in *.
    exists T2. split; [exact L2|].
    destruct C as [E | (P & _)]; [congruence | contradiction].
  - pose proof (rerender_onlyCancels doc sc q ts cs t T Ht) as (T1 & L1 & _).
    destruct (rerender doc sc q ts cs) as [[q' ts1] cs1]. simpl in L1.
    specialize (IH ts1 cs1 k T1 Hk Hr Hd L1).
    destruct (rerenderAll doc sc ps ts1 cs1) as [[ps' ts2] cs2]. exact IH.
Qed.

(** X7: when a render has reached [page.render], so that its task is
    in the ref of the page and still painting, a zoom that changes the
    scale cancels that task; whatever happens afterwards it stays
    cancelled, and the decoder reporting its completion late changes
    nothing. *)
Lemma registered_task_superseded (w : World) (k : nat) (p : PdfPage)
  (t : nat) (T : RenderTask) (delta : number) (es : list Event) :
  error (state w) = None ->
  pages w !! k = Some p -> renderTaskRef p = Some t ->
  tasks w !! t = Some T -> taskStatus T = Painting ->
  same_value (seenScale p) (Zoom.zoom delta (scale (state w))) = false ->
  let w' := run es (step (ZoomBy delta) w) in
  exists T', tasks w' !! t = Some T' /\ taskStatus T' = Cancelled
             /\ step (TaskCompletes t) w' = w'.
Proof.
  intros He Hk Hr Ht HP Hs w'.
  assert (H1 : exists T1, tasks (step (ZoomBy delta) w) !! t = Some T1
                          /\ taskStatus T1 = Cancelled).
  { unfold step. rewrite He. cbn [state pages tasks calls withState].
    assert (Hd : sameDoc (seenDoc p) (pdfDoc (setScale (Zoom.zoom delta) (state w)))
                 && same_value (seenScale p)
                      (scale (setScale (Zoom.zoom delta) (state w))) = false).
    { cbn [scale setScale]. rewrite Hs. apply andb_false_r. }
    pose proof (rerenderAll_settles _ _ (pages w) (tasks w) (calls w)
                  k p t T Hk Hr Hd Ht) as (T1 & L1 & N1).
    pose proof (rerenderAll_onlyCancels
                  (pdfDoc (setScale (Zoom.zoom delta) (state w)))
                  (scale (setScale (Zoom.zoom delta) (state w)))
                  (pages w) (tasks w) (calls w) t T Ht) as (T2 & L2 & _ & _ & C).
    destruct (rerenderAll _ _ _ _ _) as [[ps ts] cs]. simpl in *.
    exists T1. split; [exact L1|].
    rewrite L1 in L2; injection L2 as <-.
    destruct C as [E | (_ & E)]; [congruence | exact E]. }
  destruct H1 as (T1 & L1 & C1).
  destruct (run_evolves es (step (ZoomBy delta) w) t T1 L1)
    as (T2 & L2 & _ & _ & K).
  assert (C2 : taskStatus T2 = Cancelled).
  { rewrite K; [exact C1 | rewrite C1; discriminate]. }
  exists T2. split; [exact L2|]. split; [exact C2|].
  apply (settled_task_never_commits t T2); [exact L2 | rewrite C2; discriminate].
Qed.

Lemma registered_task_superseded_witness :
  exists T',
    tasks (run Reachable.afterZoom (step (ZoomBy c0_1) Reachable.paintingWorld)) !! 0
    = Some T'
    /\ taskStatus T' = Cancelled
    /\ step (TaskCompletes 0)
         (run Reachable.afterZoom (step (ZoomBy c0_1) Reachable.paintingWorld))
       = run Reachable.afterZoom (step (ZoomBy c0_1) Reachable.paintingWorld).
Proof.
  eapply (registered_task_superseded Reachable.paintingWorld 0 _ 0 _ c0_1
            Reachable.afterZoom).
  - vm_compute; reflexivity.
  - vm_compute; reflexivity.
  - vm_compute; reflexivity.
  - vm_compute; reflexivity.
  - vm_compute; reflexivity.
  - vm_compute; reflexivity.
Defined.

(** C1 at the runs [zoomBeforeGetPage], [bothRender] and [thirdRender].
    - The user zooms while the first [renderPage] waits for [getPage]:
      when the second render starts the first has no task yet, so nothing
      is cancelled; both tasks are created, neither is ever cancelled,
      both complete, and the canvas last receives the pixels of the first
      task, painted at the old scale 0.9 while the scale is 1.
    - The user then zooms again with both tasks painting: the ref holds
      the later task, only that one is cancelled, the first goes on and
      completes after the task of the third render; the canvas last
      receives pixels painted at 0.9 while the scale is 1.1. *)
Theorem late_first_render_overwrites :
  let w1 := run zoomBeforeGetPage (mount (lit "JVBERi0xLjQK") "application/pdf") in
  let w2 := run bothRender w1 in
  let w3 := run thirdRender w1 in
  (map callAt (calls w1) = [AwaitGetPage; AwaitGetPage]
   /\ tasks w1 = []
   /\ scale (state w2) = c1_0
   /\ map taskScale (tasks w2) = [c0_9; c1_0]
   /\ map taskStatus (tasks w2) = [Completed; Completed]
   /\ map canvas (pages w2) = [[0; 1]]
   /\ map renderTaskRef (pages w2) = [Some 1])
  /\ (map taskStatus (tasks (run (take 2 thirdRender) w1)) = [Painting; Painting]
      /\ map taskStatus (tasks (run (take 3 thirdRender) w1)) = [Painting; Cancelled]
      /\ map taskStatus (tasks w3) = [Completed; Cancelled; Completed]
      /\ map taskScale (tasks w3) = [c0_9; c1_0; Zoom.zoomIn c1_0]
      /\ scale (state w3) = Zoom.zoomIn c1_0
      /\ map canvas (pages w3) = [[0; 2]]).
Proof. vm_compute. repeat split. Qed.

End SupersedeFacts.

(* ===================================================================== *)
(** ** Loading another document *)
(* ===================================================================== *)

Module ReloadFacts.
Import JsNumber JsString Viewer ViewerSpec Runs ViewerFacts VisibilityFacts
  RenderFacts.

Lemma loadEffect_resets (w : World) :
  fileData (props w) <> [] ->
  isPdf w = false \/ workerReady (state w) = true ->
  error (state (loadEffect w)) = None
  /\ pdfDoc (state (loadEffect w)) = None
  /\ numPages (state (loadEffect w)) = 0
  /\ estimatedPageHeight (state (loadEffect w)) = None.
Proof.
  intros Hd Hw. unfold loadEffect.
  destruct (fileData (props w)); [contradiction|].
  destruct (isPdf w) eqn:Hp.
  - destruct Hw as [Hw|Hw]; [discriminate|]. rewrite Hw. simpl. repeat split.
  - simpl. repeat split.
Qed.

Lemma renderedPages_no_doc (w : World) :
  pdfDoc (state w) = None -> renderedPages w = 0.
Proof.
  intros H. unfold renderedPages. rewrite H.
  destruct (error (state w)); [reflexivity|].
  destruct (isPdf w); reflexivity.
Qed.

(** Without a document the commit unmounts every page. *)
Lemma reconcile_no_doc (w : World) :
  pdfDoc (state w) = None ->
  pages (reconcile w) = []
  /\ tasks (reconcile w) = unmountAll (pages w) (tasks w).
Proof.
  intros H. unfold reconcile. rewrite (renderedPages_no_doc w H).
  rewrite take_0, drop_0. simpl. split; reflexivity.
Qed.

(** A commit keeps a page, with its ref, or unmounts it. *)
Lemma reconcile_page (w : World) (k : nat) (p : PdfPage) :
  pages w !! k = Some p ->
  (exists p', pages (reconcile w) !! k = Some p'
              /\ renderTaskRef p' = renderTaskRef p)
  \/ (exists j, drop (renderedPages w) (pages w) !! j = Some p).
Proof.
  intros Hk. destruct (reconcile_tasks w) as (kept & cs & E & ->).
  pose proof (rerenderAll_pages (pdfDoc (state w)) (scale (state w))
                (take (renderedPages w) (pages w))
                (unmountAll (drop (renderedPages w) (pages w)) (tasks w))
                (calls w)) as Hkept.
  rewrite E in Hkept. simpl in Hkept. subst kept.
  destruct (decide (k < renderedPages w)) as [Hlt|Hge].
  - left. exists (seen (pdfDoc (state w)) (scale (state w)) p). split.
    + apply lookup_app_l_Some.
      change (map ?f ?l) with (f <$> l).
      rewrite list_lookup_fmap, lookup_take_lt by exact Hlt.
      rewrite Hk. reflexivity.
    + unfold seen. destruct (_ && _); reflexivity.
  - right. exists (k - renderedPages w).
    rewrite lookup_drop. rewrite <- Hk. f_equal. lia.
Qed.

(** X8: new props with data, for an image or once the worker is
    ready, clear the error, drop the document, set the page count to
    zero, clear the estimate, unmount every page, and leave no task that
    is in the ref of a page painting. *)
Lemma new_document_resets (w : World) (data : jsstring) (mime : string) :
  data <> [] ->
  mime <> "application/pdf"%string \/ workerReady (state w) = true ->
  data <> fileData (props w) ->
  let w' := step (NewDocument data mime) w in
  error (state w') = None
  /\ pdfDoc (state w') = None
  /\ numPages (state w') = 0
  /\ estimatedPageHeight (state w') = None
  /\ pages w' = []
  /\ (forall k p t T,
        pages w !! k = Some p -> renderTaskRef p = Some t ->
        tasks w !! t = Some T ->
        exists T', tasks w' !! t = Some T' /\ taskStatus T' <> Painting).
Proof.
  intros Hd Hw Hne w'. subst w'. unfold step.
  rewrite (bool_decide_eq_false_2 _ Hne). cbn [andb].
  set (w1 := withProps (mkProps data mime (location (props w))) w).
  set (w2 := locationEffect w (reconcile w1)).
  unfold afterLoadEffect.
  assert (Hprops : props w2 = props w1) by exact (props_commit w w1).
  assert (Hstate : state w2 = state w) by exact (state_commit w w1).
  assert (Hreset : error (state (loadEffect w2)) = None
                   /\ pdfDoc (state (loadEffect w2)) = None
                   /\ numPages (state (loadEffect w2)) = 0
                   /\ estimatedPageHeight (state (loadEffect w2)) = None).
  { apply loadEffect_resets.
    - rewrite Hprops. exact Hd.
    - unfold isPdf. rewrite Hprops, Hstate. cbn [props w1 withProps mimeType].
      destruct Hw as [Hm|Hr]; [left | right; exact Hr].
      destruct (String.eqb_spec mime "application/pdf"); [contradiction | reflexivity]. }
  destruct Hreset as (R1 & R2 & R3 & R4).
  rewrite state_commit.
  split; [exact R1|]. split; [exact R2|]. split; [exact R3|].
  split; [exact R4|].
  destruct (locationEffect_frame w2 (reconcile (loadEffect w2)))
    as (_ & _ & -> & -> & _).
  destruct (reconcile_no_doc (loadEffect w2) R2) as (-> & ->).
  split; [reflexivity|].
  destruct (loadEffect_frame w2) as (-> & -> & _).
  intros k p t T Hk Hr Ht.
  assert (Htasks2 : onlyCancels (tasks w) (tasks w2)).
  { apply (commit_onlyCancels w w1). }
  assert (Hpages2 : pages w2 = pages (reconcile w1)).
  { apply (locationEffect_frame w (reconcile w1)). }
  assert (Ht2 : tasks w2 = tasks (reconcile w1)).
  { apply (locationEffect_frame w (reconcile w1)). }
  destruct (reconcile_page w1 k p Hk) as [(p' & Hk' & Hr') | (j & Hj)].
  - (* kept by the first commit, unmounted by the second *)
    destruct (Htasks2 t T Ht) as (T2 & L2 & _).
    apply (unmountAll_settles (pages w2) (tasks w2) k p' t T2);
      [rewrite Hpages2; exact Hk' | congruence | exact L2].
  - (* unmounted by the first commit *)
    destruct (reconcile_tasks w1) as (kept & cs & E & _).
    destruct (unmountAll_settles _ (tasks w1) j p t T Hj Hr Ht)
      as (T1 & L1 & N1).
    pose proof (rerenderAll_onlyCancels (pdfDoc (state w1)) (scale (state w1))
                  (take (renderedPages w1) (pages w1))
                  (unmountAll (drop (renderedPages w1) (pages w1)) (tasks w1))
                  (calls w1) t T1 L1) as (T2 & L2 & _ & _ & C).
    rewrite E in L2. simpl in L2. rewrite <- Ht2 in L2.
    destruct (unmountAll_onlyCancels (pages w2) (tasks w2) t T2 L2)
      as (T3 & L3 & _ & _ & C3).
    exists T3. split; [exact L3|].
    destruct C as [E2 | (P & _)]; [|contradiction].
    destruct C3 as [E3 | (P3 & _)]; congruence.
Qed.

Lemma new_document_resets_witness :
  let w' := step (NewDocument (lit "JVBERi0xLjcK") "application/pdf")
              Reachable.paintingWorld in
  error (state w') = None
  /\ pdfDoc (state w') = None
  /\ numPages (state w') = 0
  /\ estimatedPageHeight (state w') = None
  /\ pages w' = []
  /\ (forall k p t T,
        pages Reachable.paintingWorld !! k = Some p -> renderTaskRef p = Some t ->
        tasks Reachable.paintingWorld !! t = Some T ->
        exists T', tasks w' !! t = Some T' /\ taskStatus T' <> Painting).
Proof.
  apply (new_document_resets Reachable.paintingWorld (lit "JVBERi0xLjcK")
           "application/pdf").
  - vm_compute; discriminate.
  - right. vm_compute; reflexivity.
  - vm_compute; discriminate.
Defined.

(** The component under new props, which the application does not send
    to a mounted viewer (it shows every document in a viewer of its
    own), at the runs [reloadBeforeGetPage], [staleGetPage] and
    [reloadWithTwoTasks].
    - New props arrive while the [renderPage] of a visible page waits for
      [getPage].  The new props do clear the state and unmount the pages;
      but that activation is not cancelled, and when its page arrives it
      still calls [onDimensionsResolved]: the estimate of the new document
      is the height of a page of the old one, and the three placeholders
      of the new document are sized with it.
    - New props arrive while two tasks paint the same page, the earlier
      one in no ref: it is not cancelled, and it completes afterwards. *)
Lemma reload_leaves_residue :
  let w1 := run reloadBeforeGetPage (mount (lit "JVBERi0xLjQK") "application/pdf") in
  let w2 := run staleGetPage w1 in
  let w3 := run reloadWithTwoTasks (mount (lit "JVBERi0xLjQK") "application/pdf") in
  (pdfDoc (state w1) = None /\ estimatedPageHeight (state w1) = None
   /\ pages w1 = [] /\ map callAt (calls w1) = [AwaitGetPage]
   /\ estimatedPageHeight (state w2) = Some (of_int 713)
   /\ option_map docNumPages (pdfDoc (state w2)) = Some 3
   /\ map (fun p => Estimate.heightStyle (pageHeight p)
                      (estimatedPageHeight (state w2))) (pages w2)
      = [of_int 713; of_int 713; of_int 713])
  /\ (pages w3 = []
      /\ map taskStatus (tasks w3) = [Painting; Cancelled]
      /\ map taskStatus (tasks (step (TaskCompletes 0) w3))
         = [Completed; Cancelled]).
Proof. vm_compute. repeat split. Qed.

End ReloadFacts.

(* ===================================================================== *)
(** ** Reachable states *)
(* ===================================================================== *)

Module InvariantFacts.
Import JsNumber JsString Viewer ViewerSpec Runs ViewerFacts VisibilityFacts
  RenderFacts.

Lemma rerenderAll_length doc sc ps ts cs :
  length (rerenderAll doc sc ps ts cs).1.1 = length ps.
Proof. rewrite rerenderAll_pages. apply length_map. Qed.

Lemma reconcile_consistent (w : World) : consistent (reconcile w).
Proof.
  unfold consistent.
  destruct (reconcile_tasks w) as (kept & cs & E & ->).
  pose proof (rerenderAll_length (pdfDoc (state w)) (scale (state w))
                (take (renderedPages w) (pages w))
                (unmountAll (drop (renderedPages w) (pages w)) (tasks w))
                (calls w)) as HL.
  rewrite E in HL. simpl in HL. rewrite length_take in HL.
  rewrite length_app, length_map, length_seq.
  assert (Hn : renderedPages (reconcile w) = renderedPages w).
  { unfold renderedPages, isPdf.
    destruct (reconcile_frame w) as (-> & -> & _). reflexivity. }
  rewrite Hn. lia.
Qed.

Lemma commit_consistent (before w : World) :
  consistent (locationEffect before (reconcile w)).
Proof.
  pose proof (reconcile_consistent w) as H. unfold consistent in *.
  destruct (locationEffect_frame before (reconcile w)) as (Hp & Hs & -> & _).
  unfold renderedPages, isPdf in *. rewrite Hp, Hs. exact H.
Qed.

Lemma updateInst_length i f ps : length (updateInst i f ps) = length ps.
Proof. apply length_map. Qed.

(** Every event keeps the children in step with the state. *)
Lemma step_consistent (e : Event) (w : World) :
  consistent w -> consistent (step e w).
Proof.
  intros Hc.
  destruct e as [ |data mime|n|name| |delta|k b|c h|t|ref]; unfold step.
  - destruct (workerReady (state w)); [exact Hc | apply commit_consistent].
  - destruct (_ && _); [exact Hc | apply commit_consistent].
  - destruct (pendingLoads w); [exact Hc | apply commit_consistent].
  - destruct (pendingLoads w); [exact Hc | apply commit_consistent].
  - destruct (error (state w)); [exact Hc|].
    destruct (isPdf w); [exact Hc | apply commit_consistent].
  - destruct (error (state w)) eqn:Ee; [exact Hc|].
    cbn [state pages tasks calls withState].
    match goal with |- context [rerenderAll ?d ?s ?p ?t ?c] =>
      pose proof (rerenderAll_length d s p t c) as H;
      destruct (rerenderAll d s p t c) as [[ps ts] cs] end.
    unfold consistent in *. simpl in H. cbn [pages withCalls withTasks withPages].
    rewrite H, Hc. unfold renderedPages, isPdf. simpl. rewrite Ee. reflexivity.
  - unfold intersects. destruct (pages w !! k) as [p|]; [|exact Hc].
    destruct (observing p && b); [|exact Hc].
    destruct (isVisible p).
    + unfold consistent in *. cbn [pages withPages].
      rewrite length_insert. exact Hc.
    + destruct (runEffect _ _ _ _ _) as [ts cs].
      unfold consistent in *. cbn [pages withCalls withTasks withPages].
      rewrite length_insert. exact Hc.
  - destruct (calls w !! c) as [call|]; [|exact Hc].
    destruct (callAt call); try exact Hc.
    unfold gotPage, consistent in *.
    destruct (isMounted _ _); cbn [pages];
      rewrite ?updateInst_length; rewrite Hc; reflexivity.
  - unfold taskCompletes. destruct (tasks w !! t) as [T|]; [|exact Hc].
    destruct (taskStatus T); try exact Hc.
    unfold consistent in *. cbn [pages withPages withTasks].
    rewrite updateInst_length. exact Hc.
  - unfold consistent in *.
    destruct (locationEffect_frame w
                (withProps (mkProps (fileData (props w)) (mimeType (props w))
                              (Some (Location.handleJumpToLocation ref))) w))
      as (Hp & Hs & -> & _).
    unfold renderedPages, isPdf in *. rewrite Hp, Hs. exact Hc.
Qed.

(** In every state a mounted viewer reaches, the mounted pages are the
    pages the state asks for; when a PDF is shown without error there is
    one page per page of the document. *)
Lemma reachable_consistent (data : jsstring) (mime : string) (es : list Event) :
  consistent (run es (mount data mime)).
Proof.
  assert (H0 : consistent (mount data mime)).
  { unfold mount, afterLoadEffect. apply commit_consistent. }
  revert H0. generalize (mount data mime).
  induction es as [|e es IH]; intros w Hw; simpl; [exact Hw|].
  apply IH, step_consistent, Hw.
Qed.

Lemma ready_pages (w : World) :
  consistent w -> isPdf w = true -> loadState (state w) = Ready ->
  length (pages w) = numPages (state w).
Proof.
  unfold consistent, renderedPages, loadState. intros -> -> H.
  destruct (error (state w)); [discriminate|].
  destruct (loading (state w)); [discriminate|].
  destruct (pdfDoc (state w)); [reflexivity | discriminate].
Qed.

End InvariantFacts.

(* ===================================================================== *)
(** ** The scale and the estimate along a run *)
(* ===================================================================== *)

Module SessionFacts.
Import JsNumber JsNumberFacts JsString Viewer ViewerSpec Runs ViewerFacts
  VisibilityFacts RenderFacts ZoomFacts EstimateFacts.

Lemma in_range_number (x : number) :
  Zoom.in_range x = true ->
  is_nan x = false /\ forall d, oppositeInfinities x d = false.
Proof.
  destruct x as [s|s| |s m e]; try (split; [reflexivity | intros d; reflexivity]).
  - destruct s; vm_compute; discriminate.
  - vm_compute; discriminate.
Qed.

Lemma zoom_keeps_range (delta prev : number) :
  is_nan delta = false -> Zoom.in_range prev = true ->
  Zoom.in_range (Zoom.zoom delta prev) = true.
Proof.
  intros Hd Hp. destruct (in_range_number prev Hp) as (Hn & Ho).
  destruct (zoom_range_or_nan delta prev) as (-> & _).
  rewrite add_nan, Hn, Hd, Ho. reflexivity.
Qed.

Lemma loadEffect_scale (w : World) :
  scale (state (loadEffect w)) = scale (state w).
Proof.
  unfold loadEffect. destruct (fileData (props w)); [reflexivity|].
  destruct (isPdf w && negb (workerReady (state w))); [reflexivity|].
  destruct (isPdf w); reflexivity.
Qed.

Lemma loadPdfFails_scale (name : string) (s : ViewerState) :
  scale (loadPdfFails name s) = scale s.
Proof. unfold loadPdfFails. destruct (classify name); reflexivity. Qed.

(** Every event with a numeric delta keeps the scale in [0.5, 2.5]. *)
Lemma step_scale_in_range (e : Event) (w : World) :
  numericDelta e -> Zoom.in_range (scale (state w)) = true ->
  Zoom.in_range (scale (state (step e w))) = true.
Proof.
  intros He Hw.
  destruct e as [ |data mime|n|name| |delta|k b|c h|t|ref]; unfold step.
  - destruct (workerReady (state w)); [exact Hw|].
  unfold afterLoadEffect. rewrite state_commit, loadEffect_scale. exact Hw.
  - destruct (_ && _); [exact Hw|].
  unfold afterLoadEffect. rewrite state_commit, loadEffect_scale, state_commit.
  exact Hw.
  - destruct (pendingLoads w); [exact Hw|].
  rewrite state_commit. vm_compute. reflexivity.
  - destruct (pendingLoads w); [exact Hw|].
  rewrite state_commit. cbn [state withPendingLoads withState].
  rewrite loadPdfFails_scale. exact Hw.
  - destruct (error (state w)); [exact Hw|].
  destruct (isPdf w); [exact Hw|]. rewrite state_commit. exact Hw.
  - destruct (error (state w)); [exact Hw|].
  destruct (rerenderAll _ _ _ _ _) as [[ps ts] cs].
  cbn [state withCalls withTasks withPages withState scale setScale].
  apply zoom_keeps_range; [exact He | exact Hw].
  - unfold intersects. destruct (pages w !! k) as [p|]; [|exact Hw].
  destruct (observing p && b); [|exact Hw].
  destruct (isVisible p); [exact Hw|].
  destruct (runEffect _ _ _ _ _) as [ts cs]. exact Hw.
  - destruct (calls w !! c) as [call|]; [|exact Hw].
  destruct (callAt call); try exact Hw.
  unfold gotPage. destruct (isMounted _ _); exact Hw.
  - unfold taskCompletes. destruct (tasks w !! t) as [T|]; [|exact Hw].
  destruct (taskStatus T); exact Hw.
  - destruct (locationEffect_frame w
              (withProps (mkProps (fileData (props w)) (mimeType (props w))
                            (Some (Location.handleJumpToLocation ref))) w))
    as (_ & -> & _). exact Hw.
Qed.

(** From its mount on, whatever the browser delivers, the scale of the
  viewer lies in [0.5, 2.5] as long as no zoom is asked with a NaN
  delta; the controls only ask for 0.1 and -0.1. *)
Lemma reachable_scale_in_range (data : jsstring) (mime : string)
  (es : list Event) :
  Forall numericDelta es ->
  Zoom.in_range (scale (state (run es (mount data mime)))) = true.
Proof.
  assert (H0 : Zoom.in_range (scale (state (mount data mime))) = true).
  { unfold mount, afterLoadEffect. rewrite state_commit, loadEffect_scale.
  vm_compute. reflexivity. }
  revert H0. generalize (mount data mime).
  induction es as [|e es IH]; intros w Hw Hes; simpl; [exact Hw|].
  inversion Hes as [|? ? He Hes']; subst.
  apply IH; [apply step_scale_in_range; assumption | exact Hes'].
Qed.

(** In a settled session an estimate that is a non-zero number is kept
  by every event. *)
Lemma step_keeps_estimate (e : Event) (w : World) (h : number) :
  sameSession e -> settled w -> truthy h = true ->
  estimatedPageHeight (state w) = Some h ->
  estimatedPageHeight (state (step e w)) = Some h.
Proof.
  intros He (Hpdf & Hwr & Hpl) Hh Hw.
  destruct e as [ |data mime|n|name| |delta|k b|c h'|t|ref]; simpl in He;
  try contradiction; unfold step.
  - rewrite Hwr. exact Hw.
  - rewrite Hpl. exact Hw.
  - rewrite Hpl. exact Hw.
  - rewrite Hpdf. destruct (error (state w)); exact Hw.
  - destruct (error (state w)); [exact Hw|].
  destruct (rerenderAll _ _ _ _ _) as [[ps ts] cs]. exact Hw.
  - unfold intersects. destruct (pages w !! k) as [p|]; [|exact Hw].
  destruct (observing p && b); [|exact Hw].
  destruct (isVisible p); [exact Hw|].
  destruct (runEffect _ _ _ _ _) as [ts cs]. exact Hw.
  - destruct (calls w !! c) as [call|]; [|exact Hw].
  destruct (callAt call); try exact Hw.
  unfold gotPage.
  destruct (isMounted _ _);
    cbn [state estimatedPageHeight setEstimatedPageHeight];
    rewrite Hw; apply handleDimensionsResolved_keeps, Hh.
  - unfold taskCompletes. destruct (tasks w !! t) as [T|]; [|exact Hw].
  destruct (taskStatus T); exact Hw.
  - destruct (locationEffect_frame w
              (withProps (mkProps (fileData (props w)) (mimeType (props w))
                            (Some (Location.handleJumpToLocation ref))) w))
    as (_ & -> & _). exact Hw.
Qed.

Lemma run_keeps_estimate (es : list Event) (w : World) (h : number) :
  Forall sameSession es -> settled w -> truthy h = true ->
  estimatedPageHeight (state w) = Some h ->
  estimatedPageHeight (state (run es w)) = Some h.
Proof.
  revert w. induction es as [|e es IH]; intros w Hes Hw Hh He; simpl;
  [exact He|].
  inversion Hes as [|? ? H1 Hes']; subst.
  apply IH; [exact Hes' | apply (step_keeps e w H1 Hw) | exact Hh|].
  apply step_keeps_estimate; assumption.
Qed.

(** C4: for the lifetime of one loaded document the estimate is assigned
    once, from the first page whose height becomes known, and never again.
    - For the callback: called from the cleared state with a first height
      and any later heights, it stores the first, and this is the only one
      of the calls that changes the estimate.
    - For the viewer: in a settled session whose estimate is still clear,
      when [getPage] resolves for some activation of [renderPage] the
      estimate becomes the height of that page, and it is this height
      after any later events of the session, whatever heights they
      report.
    The height is a page height in pixels: a number other than zero. *)
Theorem estimate_assigned_once (h : number) :
  truthy h = true ->
  (forall later : list number,
     Estimate.resolveAll (h :: later) None = Some h
     /\ Estimate.assignments (h :: later) None = 1%nat)
  /\ (forall (w : World) (c : nat) (call : RenderCall) (later : list Event),
        settled w -> estimatedPageHeight (state w) = None ->
        calls w !! c = Some call -> callAt call = AwaitGetPage ->
        Forall sameSession later ->
        estimatedPageHeight (state (step (Resumes c h) w)) = Some h
        /\ estimatedPageHeight (state (run later (step (Resumes c h) w)))
           = Some h).
Proof.
  intros Hh. split; [intros later; apply first_height_kept, Hh|].
  intros w c call later Hw He Hc Ha Hl.
  assert (E1 : estimatedPageHeight (state (step (Resumes c h) w)) = Some h).
  { unfold step. rewrite Hc, Ha. unfold gotPage.
    destruct (isMounted _ _);
      cbn [state estimatedPageHeight setEstimatedPageHeight];
      rewrite He; reflexivity. }
  split; [exact E1|].
  apply run_keeps_estimate; [exact Hl | | exact Hh | exact E1].
  apply (step_keeps (Resumes c h) w I Hw).
Qed.

Lemma estimate_assigned_once_witness :
  Estimate.resolveAll [of_int 713; of_int 792; of_int 0; of_int 1056] None
  = Some (of_int 713)
  /\ estimatedPageHeight
       (state (run laterHeights (step (Resumes 0 (of_int 713)) firstPageVisible)))
     = Some (of_int 713).
Proof.
  destruct (estimate_assigned_once (of_int 713) eq_refl) as (Hc & Hv).
  split.
  - apply (Hc [of_int 792; of_int 0; of_int 1056]).
  - apply (Hv firstPageVisible 0 (mkRenderCall 1 c0_9 AwaitGetPage) laterHeights).
    + repeat split; vm_compute; reflexivity.
    + vm_compute; reflexivity.
    + vm_compute; reflexivity.
    + reflexivity.
    + repeat constructor.
Defined.

End SessionFacts.

(* ===================================================================== *)
(** ** The zoom label *)
(* ===================================================================== *)

Module ToolbarFacts.
Import JsNumber JsNumberFacts JsString Viewer ViewerSpec Runs ViewerFacts
  SessionFacts Toolbar.

Lemma member_In (x : number) (l : list number) :
  member x l = true <-> In x l.
Proof.
  unfold member. rewrite existsb_exists. split.
  - intros (y & Hy & E). apply same_value_eq in E. subst y. exact Hy.
  - intros H. exists x. split; [exact H | apply same_value_eq; reflexivity].
Qed.

(** The scale after one event: the scale before, the default scale of a
    decoded document, or the zoom of the scale before. *)
Lemma step_scale_cases (e : Event) (w : World) :
  scale (state (step e w)) = scale (state w)
  \/ scale (state (step e w)) = Zoom.defaultScale
  \/ exists delta, e = ZoomBy delta
       /\ scale (state (step e w)) = Zoom.zoom delta (scale (state w)).
Proof.
  destruct e as [ |data mime|n|name| |delta|k b|c h|t|ref]; unfold step.
  - left. destruct (workerReady (state w)); [reflexivity|].
    unfold afterLoadEffect. rewrite state_commit, loadEffect_scale. reflexivity.
  - left. destruct (_ && _); [reflexivity|].
    unfold afterLoadEffect.
    rewrite state_commit, loadEffect_scale, state_commit. reflexivity.
  - destruct (pendingLoads w); [left; reflexivity|].
    right; left. rewrite state_commit. reflexivity.
  - left. destruct (pendingLoads w); [reflexivity|].
    rewrite state_commit. cbn [state withPendingLoads withState].
    apply loadPdfFails_scale.
  - left. destruct (error (state w)); [reflexivity|].
    destruct (isPdf w); [reflexivity|]. rewrite state_commit. reflexivity.
  - destruct (error (state w)); [left; reflexivity|].
    right; right. exists delta. split; [reflexivity|].
    destruct (rerenderAll _ _ _ _ _) as [[ps ts] cs]. reflexivity.
  - left. unfold intersects. destruct (pages w !! k) as [p|]; [|reflexivity].
    destruct (observing p && b); [|reflexivity].
    destruct (isVisible p); [reflexivity|].
    destruct (runEffect _ _ _ _ _) as [ts cs]. reflexivity.
  - left. destruct (calls w !! c) as [call|]; [|reflexivity].
    destruct (callAt call); try reflexivity.
    unfold gotPage. destruct (isMounted _ _); reflexivity.
  - left. unfold taskCompletes. destruct (tasks w !! t) as [T|]; [|reflexivity].
    destruct (taskStatus T); reflexivity.
  - left.
    destruct (locationEffect_frame w
                (withProps (mkProps (fileData (props w)) (mimeType (props w))
                              (Some (Location.handleJumpToLocation ref))) w))
      as (_ & -> & _). reflexivity.
Qed.

Lemma mount_scale (data : jsstring) (mime : string) :
  scale (state (mount data mime)) = Zoom.initialScale.
Proof.
  unfold mount, afterLoadEffect. rewrite state_commit, loadEffect_scale.
  reflexivity.
Qed.

Lemma handleKeyDown_delta (key : string) (delta : number) :
  handleKeyDown key = Some delta -> delta = c0_1 \/ delta = neg c0_1.
Proof.
  unfold handleKeyDown.
  destruct (_ || _); [intros [= <-]; left; reflexivity|].
  destruct (String.eqb key "-"); [intros [= <-]; right; reflexivity|].
  discriminate.
Qed.

Lemma fromControls_delta (delta : number) :
  fromControls (ZoomBy delta) -> delta = c0_1 \/ delta = neg c0_1.
Proof.
  intros [H | (key & H)].
  - simpl in H. destruct H as [<- | [<- | []]]; [right | left]; reflexivity.
  - exact (handleKeyDown_delta key delta H).
Qed.

(** The computed set is closed under the two zooms and holds the initial
    and the default scale. *)
Lemma controlScales_closed :
  forallb (fun x => member (Zoom.zoomIn x) controlScales
                    && member (Zoom.zoomOut x) controlScales) controlScales
  = true.
Proof. vm_compute. reflexivity. Qed.

Lemma controlScales_labels :
  forallb (fun x => tidyLabel (Math_round (mul x (of_int 100)))) controlScales
  = true.
Proof. vm_compute. reflexivity. Qed.

Lemma step_controlScales (e : Event) (w : World) :
  fromControls e -> In (scale (state w)) controlScales ->
  In (scale (state (step e w))) controlScales.
Proof.
  intros He Hw.
  destruct (step_scale_cases e w) as [-> | [-> | (delta & -> & ->)]].
  - exact Hw.
  - apply member_In. vm_compute. reflexivity.
  - pose proof controlScales_closed as Hc.
    rewrite forallb_forall in Hc. specialize (Hc _ Hw).
    apply andb_true_iff in Hc as [Hin Hout].
    apply member_In.
    destruct (fromControls_delta delta He) as [-> | ->]; assumption.
Qed.

(** X1: whatever the user does with the zoom buttons and the keys [=],
    [+] and [-], and whatever else happens to the viewer from its mount
    on, the percentage [Math.round(scale * 100)] in the zoom label is a
    multiple of ten from 50 to 250, although the scale itself drifts away
    from the exact tenths in binary64. *)
Theorem zoom_label_multiple_of_ten (data : jsstring) (mime : string)
  (es : list Event) :
  Forall fromControls es ->
  exists k : Z,
    zoomLabel (state (run es (mount data mime))) = Some (10 * k)%Z
    /\ (5 <= k <= 25)%Z.
Proof.
  intros Hes.
  assert (Hin : In (scale (state (run es (mount data mime)))) controlScales).
  { assert (H0 : In (scale (state (mount data mime))) controlScales).
    { rewrite mount_scale. apply member_In. vm_compute. reflexivity. }
    revert H0 Hes. generalize (mount data mime).
    induction es as [|e es IH]; intros w Hw Hes; simpl; [exact Hw|].
    inversion Hes as [|? ? He Hes']; subst.
    apply IH; [apply step_controlScales; assumption | exact Hes']. }
  pose proof controlScales_labels as Hl.
  rewrite forallb_forall in Hl. specialize (Hl _ Hin).
  unfold zoomLabel.
  destruct (Math_round _) as [z|]; [|discriminate].
  simpl in Hl. apply andb_true_iff in Hl as [Hl H250].
  apply andb_true_iff in Hl as [Hmod H50].
  apply Z.eqb_eq in Hmod. apply Z.leb_le in H50. apply Z.leb_le in H250.
  exists (z / 10)%Z. split.
  - f_equal. rewrite (Z.div_mod z 10) at 1 by lia. lia.
  - split.
    + apply Z.div_le_lower_bound; lia.
    + apply Z.div_le_upper_bound; lia.
Qed.

Lemma zoom_label_multiple_of_ten_witness :
  exists k : Z,
    zoomLabel
      (state (run [WorkerInitialized; DecodeSucceeds 3; ZoomBy c0_1;
                   ZoomBy c0_1; ZoomBy (neg c0_1); Intersects 0 true]
                (mount (lit "JVBERi0xLjQK") "application/pdf")))
    = Some (10 * k)%Z
    /\ (5 <= k <= 25)%Z.
Proof.
  apply (zoom_label_multiple_of_ten (lit "JVBERi0xLjQK") "application/pdf"
           [WorkerInitialized; DecodeSucceeds 3; ZoomBy c0_1;
            ZoomBy c0_1; ZoomBy (neg c0_1); Intersects 0 true]).
  repeat (constructor; [first [exact I | left; simpl; tauto] |]).
  constructor.
Defined.

End ToolbarFacts.

(* ===================================================================== *)
(** ** What every reachable state of the viewer satisfies *)
(* ===================================================================== *)

Module ReachableFacts.
Import JsNumber JsNumberFacts JsString JsStringFacts Viewer ViewerSpec Runs
  ViewerFacts LocationFacts InvariantFacts SessionFacts Reachable.
Import Location.
Local Open Scope string_scope.

Lemma loadEffect_documentPages (w : World) :
  numPages (state w) = documentPages (state w) ->
  numPages (state (loadEffect w)) = documentPages (state (loadEffect w)).
Proof.
  intros H. unfold loadEffect. destruct (fileData (props w)); [exact H|].
  destruct (isPdf w && negb (workerReady (state w))); [exact H|].
  destruct (isPdf w); reflexivity.
Qed.

Lemma loadPdfFails_documentPages (name : string) (s : ViewerState) :
  numPages (loadPdfFails name s) = numPages s
  /\ documentPages (loadPdfFails name s) = documentPages s.
Proof. unfold loadPdfFails. destruct (classify name). split; reflexivity. Qed.

(** Every event keeps the page count of the state equal to that of the
    document it holds. *)
Lemma step_documentPages (e : Event) (w : World) :
  numPages (state w) = documentPages (state w) ->
  numPages (state (step e w)) = documentPages (state (step e w)).
Proof.
  intros Hw.
  destruct e as [ |data mime|n|name| |delta|k b|c h|t|ref]; unfold step.
  - destruct (workerReady (state w)); [exact Hw|].
    unfold afterLoadEffect. rewrite state_commit.
    apply loadEffect_documentPages. exact Hw.
  - destruct (_ && _); [exact Hw|].
    unfold afterLoadEffect. rewrite state_commit.
    apply loadEffect_documentPages. rewrite state_commit. exact Hw.
  - destruct (pendingLoads w); [exact Hw|].
    rewrite state_commit. reflexivity.
  - destruct (pendingLoads w); [exact Hw|].
    rewrite state_commit. cbn [state withPendingLoads withState].
    destruct (loadPdfFails_documentPages name (state w)) as (-> & ->). exact Hw.
  - destruct (error (state w)); [exact Hw|].
    destruct (isPdf w); [exact Hw|]. rewrite state_commit. exact Hw.
  - destruct (error (state w)); [exact Hw|].
    destruct (rerenderAll _ _ _ _ _) as [[ps ts] cs]. exact Hw.
  - unfold intersects. destruct (pages w !! k) as [p|]; [|exact Hw].
    destruct (observing p && b); [|exact Hw].
    destruct (isVisible p); [exact Hw|].
    destruct (runEffect _ _ _ _ _) as [ts cs]. exact Hw.
  - destruct (calls w !! c) as [call|]; [|exact Hw].
    destruct (callAt call); try exact Hw.
    unfold gotPage. destruct (isMounted _ _); exact Hw.
  - unfold taskCompletes. destruct (tasks w !! t) as [T|]; [|exact Hw].
    destruct (taskStatus T); exact Hw.
  - destruct (locationEffect_frame w
                (withProps (mkProps (fileData (props w)) (mimeType (props w))
                              (Some (handleJumpToLocation ref))) w))
      as (_ & -> & _). exact Hw.
Qed.

Lemma mount_state (data : jsstring) (mime : string) :
  numPages (state (mount data mime)) = 0
  /\ pdfDoc (state (mount data mime)) = None
  /\ errorType (state (mount data mime)) = generic.
Proof.
  unfold mount, afterLoadEffect. rewrite state_commit.
  unfold loadEffect. cbn [props fileData state].
  destruct data; [repeat split|].
  destruct (isPdf _ && _); [repeat split|].
  destruct (isPdf _); repeat split.
Qed.

(** X2: in every state a mounted viewer reaches, whatever the events and
    their order, the page count of the state is the page count of the
    document it holds (zero without one), and the mounted [PdfPage]
    children are exactly that many for a PDF without error, and none on
    the error screen or for an image. *)
Theorem pages_follow_document (data : jsstring) (mime : string)
  (es : list Event) :
  let w := run es (mount data mime) in
  numPages (state w) = documentPages (state w)
  /\ length (pages w)
     = match error (state w) with
       | Some _ => 0
       | None => if isPdf w then documentPages (state w) else 0
       end.
Proof.
  intros w.
  assert (H1 : numPages (state w) = documentPages (state w)).
  { subst w.
    assert (H0 : numPages (state (mount data mime))
                 = documentPages (state (mount data mime))).
    { destruct (mount_state data mime) as (Hn & Hd & _).
      unfold documentPages. rewrite Hn, Hd. reflexivity. }
    revert H0. generalize (mount data mime).
    induction es as [|e es IH]; intros w Hw; simpl; [exact Hw|].
    apply IH, step_documentPages, Hw. }
  split; [exact H1|].
  pose proof (reachable_consistent data mime es) as Hc.
  fold w in Hc. unfold consistent, renderedPages in Hc. rewrite Hc.
  destruct (error (state w)); [reflexivity|].
  destruct (isPdf w); [|reflexivity].
  rewrite H1. unfold documentPages.
  destruct (pdfDoc (state w)); reflexivity.
Qed.

(** X3: from the mount of the viewer on, whatever the events and their
    order, the scale lies in [0.5, 2.5] as long as no zoom is asked with
    a NaN delta; deltas beyond the range and infinite ones are clamped. *)
Theorem scale_always_in_range (data : jsstring) (mime : string)
  (es : list Event) :
  Forall numericDelta es ->
  le c0_5 (scale (state (run es (mount data mime)))) = true
  /\ le (scale (state (run es (mount data mime)))) c2_5 = true.
Proof.
  intros Hes. apply andb_true_iff.
  exact (reachable_scale_in_range data mime es Hes).
Qed.

Lemma scale_always_in_range_witness :
  le c0_5 (scale (state (run zoomingAbout
                           (mount (lit "JVBERi0xLjQK") "application/pdf"))))
  = true
  /\ le (scale (state (run zoomingAbout
                         (mount (lit "JVBERi0xLjQK") "application/pdf"))))
       c2_5 = true.
Proof.
  apply (scale_always_in_range (lit "JVBERi0xLjQK") "application/pdf"
           zoomingAbout).
  repeat (constructor; [first [exact I | reflexivity] |]).
  constructor.
Defined.

(** On the error screen, with the worker ready and no load in flight,
    an event other than new props changes neither the message, nor the
    kind, nor the scale, and starts no load. *)
Lemma step_on_error_screen (e : Event) (w : World) (m : string) :
  sameSession e ->
  error (state w) = Some m -> workerReady (state w) = true ->
  pendingLoads w = 0 ->
  error (state (step e w)) = Some m
  /\ errorType (state (step e w)) = errorType (state w)
  /\ scale (state (step e w)) = scale (state w)
  /\ workerReady (state (step e w)) = true
  /\ pendingLoads (step e w) = 0.
Proof.
  intros He Herr Hwr Hpl.
  destruct e as [ |data mime|n|name| |delta|k b|c h|t|ref]; simpl in He;
    try contradiction; unfold step.
  - rewrite Hwr. repeat split; assumption.
  - rewrite Hpl. repeat split; assumption.
  - rewrite Hpl. repeat split; assumption.
  - rewrite Herr. repeat split; assumption.
  - rewrite Herr. repeat split; assumption.
  - unfold intersects. destruct (pages w !! k) as [p|]; [|repeat split; assumption].
    destruct (observing p && b); [|repeat split; assumption].
    destruct (isVisible p); [repeat split; assumption|].
    destruct (runEffect _ _ _ _ _) as [ts cs]. repeat split; assumption.
  - destruct (calls w !! c) as [call|]; [|repeat split; assumption].
    destruct (callAt call); try (repeat split; assumption).
    unfold gotPage. destruct (isMounted _ _); repeat split; assumption.
  - unfold taskCompletes. destruct (tasks w !! t) as [T|]; [|repeat split; assumption].
    destruct (taskStatus T); repeat split; assumption.
  - destruct (locationEffect_frame w
                (withProps (mkProps (fileData (props w)) (mimeType (props w))
                              (Some (handleJumpToLocation ref))) w))
      as (_ & -> & _ & _ & _ & ->). repeat split; assumption.
Qed.

(** X4: the error screen is final for the document.  Once an error is
    set, with the worker ready and no load in flight, no zoom, key,
    jump, page coming into view, late [getPage], late task or late
    decode changes the message, its kind or the scale: only new props
    leave the screen. *)
Theorem error_screen_is_final (w : World) (m : string) (es : list Event) :
  error (state w) = Some m -> workerReady (state w) = true ->
  pendingLoads w = 0 -> Forall sameSession es ->
  error (state (run es w)) = Some m
  /\ errorType (state (run es w)) = errorType (state w)
  /\ scale (state (run es w)) = scale (state w).
Proof.
  revert w. induction es as [|e es IH]; intros w Herr Hwr Hpl Hes; simpl.
  - repeat split; assumption.
  - inversion Hes as [|? ? He Hes']; subst.
    destruct (step_on_error_screen e w m He Herr Hwr Hpl)
      as (E1 & E2 & E3 & E4 & E5).
    destruct (IH (step e w) E1 E4 E5 Hes') as (F1 & F2 & F3).
    repeat split; congruence.
Qed.

Lemma error_screen_is_final_witness :
  error (state (run onErrorScreen failedWorld))
  = Some "The PDF file appears to be corrupted or invalid. Please try another file."
  /\ errorType (state (run onErrorScreen failedWorld)) = corrupt
  /\ scale (state (run onErrorScreen failedWorld)) = c1_0.
Proof.
  apply (error_screen_is_final failedWorld
           "The PDF file appears to be corrupted or invalid. Please try another file."
           onErrorScreen).
  - vm_compute; reflexivity.
  - vm_compute; reflexivity.
  - vm_compute; reflexivity.
  - repeat (constructor; [exact I |]). constructor.
Defined.

Lemma loadEffect_errorType (w : World) :
  errorType (state (loadEffect w)) = errorType (state w).
Proof.
  unfold loadEffect. destruct (fileData (props w)); [reflexivity|].
  destruct (isPdf w && negb (workerReady (state w))); [reflexivity|].
  destruct (isPdf w); reflexivity.
Qed.

Lemma classify_unclassified (name : string) :
  unclassified (DecodeFails name) -> (classify name).2 = generic.
Proof.
  intros (H1 & H2 & H3). unfold classify.
  destruct (String.eqb_spec name "PasswordException"); [contradiction|].
  destruct (String.eqb_spec name "InvalidPDFException"); [contradiction|].
  destruct (String.eqb_spec name "MissingPDFException"); [contradiction|].
  reflexivity.
Qed.

Lemma step_unclassified (e : Event) (w : World) :
  unclassified e -> errorType (state w) = generic ->
  errorType (state (step e w)) = generic.
Proof.
  intros He Hw.
  destruct e as [ |data mime|n|name| |delta|k b|c h|t|ref]; unfold step.
  - destruct (workerReady (state w)); [exact Hw|].
    unfold afterLoadEffect. rewrite state_commit, loadEffect_errorType. exact Hw.
  - destruct (_ && _); [exact Hw|].
    unfold afterLoadEffect.
    rewrite state_commit, loadEffect_errorType, state_commit. exact Hw.
  - destruct (pendingLoads w); [exact Hw|]. rewrite state_commit. exact Hw.
  - destruct (pendingLoads w); [exact Hw|]. rewrite state_commit.
    cbn [state withPendingLoads withState]. unfold loadPdfFails.
    pose proof (classify_unclassified name He) as Hk.
    destruct (classify name) as [msg kind]. simpl in Hk. subst kind. reflexivity.
  - destruct (error (state w)); [exact Hw|].
    destruct (isPdf w); [exact Hw|]. rewrite state_commit. exact Hw.
  - destruct (error (state w)); [exact Hw|].
    destruct (rerenderAll _ _ _ _ _) as [[ps ts] cs]. exact Hw.
  - unfold intersects. destruct (pages w !! k) as [p|]; [|exact Hw].
    destruct (observing p && b); [|exact Hw].
    destruct (isVisible p); [exact Hw|].
    destruct (runEffect _ _ _ _ _) as [ts cs]. exact Hw.
  - destruct (calls w !! c) as [call|]; [|exact Hw].
    destruct (callAt call); try exact Hw.
    unfold gotPage. destruct (isMounted _ _); exact Hw.
  - unfold taskCompletes. destruct (tasks w !! t) as [T|]; [|exact Hw].
    destruct (taskStatus T); exact Hw.
  - destruct (locationEffect_frame w
                (withProps (mkProps (fileData (props w)) (mimeType (props w))
                              (Some (handleJumpToLocation ref))) w))
      as (_ & -> & _). exact Hw.
Qed.

(** X5: a viewer in which no decode has failed with one of the three
    names the code tells apart shows every error, an image failure
    included, with the generic icon: the kind can only be other than
    generic after a password, invalid or missing PDF failure in the same
    mounted viewer. *)
Theorem error_kind_generic_unless_classified (data : jsstring) (mime : string)
  (es : list Event) :
  Forall unclassified es ->
  errorType (state (run es (mount data mime))) = generic
  /\ forall kind, loadState (state (run es (mount data mime))) = Error kind ->
       kind = generic.
Proof.
  intros Hes.
  assert (H : errorType (state (run es (mount data mime))) = generic).
  { assert (H0 : errorType (state (mount data mime)) = generic)
      by apply mount_state.
    revert H0 Hes. generalize (mount data mime).
    induction es as [|e es IH]; intros w Hw Hes; simpl; [exact Hw|].
    inversion Hes as [|? ? He Hes']; subst.
    apply IH; [apply step_unclassified; assumption | exact Hes']. }
  split; [exact H|].
  intros kind. unfold loadState.
  destruct (error _); [rewrite H; congruence|].
  destruct (loading _); [discriminate|].
  destruct (pdfDoc _); discriminate.
Qed.

Lemma error_kind_generic_unless_classified_witness :
  loadState (state (run unclassifiedFailures (mount (lit "iVBORw0KGgo=") "image/png")))
  = Error generic.
Proof.
  destruct (error_kind_generic_unless_classified (lit "iVBORw0KGgo=") "image/png"
              unclassifiedFailures) as (H & _).
  - repeat (constructor;
            [first [exact I | repeat split; discriminate] |]).
    constructor.
  - unfold loadState. rewrite H. vm_compute. reflexivity.
Defined.

(** X6: a reference clicked while the document is still being decoded
    scrolls nothing at the time, and is applied when the decode
    succeeds: the view then scrolls to the page the stored location
    designates, if the new document has that page. *)
Theorem pending_location_applied_on_decode (w : World) (ref : jsstring)
  (n : nat) :
  isPdf w = true -> error (state w) = None -> numPages (state w) = 0 ->
  pendingLoads w <> 0 ->
  let w1 := step (Jump ref) w in
  let w2 := step (DecodeSucceeds n) w1 in
  scrolled w1 = scrolled w
  /\ scrolled w2
     = match parseInt (handleJumpToLocation ref) with
       | Some t => if inRange t n then Z.to_nat t :: scrolled w
                   else scrolled w
       | None => scrolled w
       end.
Proof.
  intros Hpdf Herr Hn Hpl w1 w2.
  destruct (jump_frame ref w) as (Hs1 & Hp1 & _ & Hl1 & Hm1).
  fold w1 in Hs1, Hp1, Hl1, Hm1.
  assert (Hsc1 : scrolled w1 = scrolled w).
  { unfold w1, step, locationEffect.
    destruct (_ && _); [reflexivity|].
    unfold jumpToLocation, targetPage.
    cbn [props state withProps location]. rewrite Hn.
    destruct (handleJumpToLocation ref); [reflexivity|].
    rewrite andb_false_r. reflexivity. }
  split; [exact Hsc1|].
  assert (Hpl1 : pendingLoads w1 = pendingLoads w).
  { unfold w1, step.
    apply (locationEffect_frame w
             (withProps (mkProps (fileData (props w)) (mimeType (props w))
                           (Some (handleJumpToLocation ref))) w)). }
  assert (Hpdf1 : isPdf w1 = true).
  { unfold isPdf in *. rewrite Hm1. exact Hpdf. }
  unfold w2, step. rewrite Hpl1.
  destruct (pendingLoads w) as [|k]; [contradiction|].
  set (w' := withFresh _ _).
  assert (Hst : state w' = loadPdfSucceeds (mkPdfDoc (fresh w1) n) (state w1))
    by reflexivity.
  assert (Hpr : props (reconcile w') = props w1)
    by (transitivity (props w'); [apply reconcile_frame | reflexivity]).
  assert (Hsr : state (reconcile w') = state w')
    by apply reconcile_frame.
  assert (Hscr : scrolled (reconcile w') = scrolled w).
  { transitivity (scrolled w'); [apply reconcile_frame | exact Hsc1]. }
  assert (Hnp : numPages (state (reconcile w')) = n)
    by (rewrite Hsr, Hst; reflexivity).
  assert (Hlen : length (pages (reconcile w')) = n).
  { pose proof (reconcile_consistent w') as Hc.
    unfold consistent, renderedPages in Hc.
    unfold isPdf in Hc, Hpdf1. rewrite Hpr, Hpdf1, Hsr, Hst in Hc.
    cbn [error loadPdfSucceeds setLoading setScale setNumPages setPdfDoc
         pdfDoc numPages] in Hc.
    rewrite Hs1, Herr in Hc. exact Hc. }
  unfold locationEffect. rewrite Hpr, sameLocation_refl, Hnp, Hs1, Hn.
  unfold isPdf at 1 2. rewrite Hpr. rewrite Bool.eqb_reflx.
  cbn [andb]. rewrite andb_true_r.
  destruct n as [|n'].
  - cbn [Nat.eqb]. rewrite Hscr.
    destruct (parseInt _) as [t|]; [|reflexivity].
    unfold inRange.
    destruct (0 <? t)%Z eqn:Ht; [|reflexivity].
    destruct (t <=? Z.of_nat 0)%Z eqn:Hle; [|reflexivity].
    apply Z.ltb_lt in Ht. apply Z.leb_le in Hle. lia.
  - cbn [Nat.eqb]. unfold jumpToLocation.
    unfold isPdf at 1. rewrite Hpr. fold (isPdf w1). rewrite Hpdf1, Hl1, Hnp.
    rewrite targetPage_pdf.
    destruct (parseInt _) as [t|]; [|exact Hscr].
    destruct (inRange t (S n')) eqn:Hr; [|exact Hscr].
    unfold inRange in Hr. apply andb_true_iff in Hr as [Ht Hle].
    apply Z.ltb_lt in Ht. apply Z.leb_le in Hle.
    destruct (lookup_lt_is_Some_2 (pages (reconcile w')) (Z.to_nat t - 1))
      as [p ->]; [lia|].
    cbn [scrolled withScrolled]. rewrite Hscr. reflexivity.
Qed.

Lemma pending_location_applied_on_decode_witness :
  scrolled (step (Jump (lit "#page=2")) loadingWorld) = []
  /\ scrolled (step (DecodeSucceeds 3) (step (Jump (lit "#page=2")) loadingWorld))
     = [2].
Proof.
  apply (pending_location_applied_on_decode loadingWorld (lit "#page=2") 3).
  - vm_compute; reflexivity.
  - vm_compute; reflexivity.
  - vm_compute; reflexivity.
  - vm_compute; discriminate.
Defined.

End ReachableFacts.

(* ===================================================================== *)
(** ** The reference formats the prompts prescribe *)
(* ===================================================================== *)

Module ReferenceFacts.
Import JsString JsStringFacts Viewer ViewerSpec Runs ViewerFacts
  LocationFacts References.
Import Location.
Local Open Scope N_scope.

Lemma pageMatchAt_other (c : N) (s : jsstring) :
  matchesLetter 112 c = false -> pageMatchAt (c :: s) = None.
Proof.
  intros H. destruct s as [|a [|g [|e r]]]; try reflexivity.
  unfold pageMatchAt. rewrite H. reflexivity.
Qed.

(** The scan passes over a prefix without [p] and [P]. *)
Lemma pageMatch_skip (pre s : jsstring) :
  forallb (fun c => negb (matchesLetter 112 c)) pre = true ->
  pageMatch (pre ++ s) = pageMatch s.
Proof.
  induction pre as [|c pre IH]; simpl app; [reflexivity|].
  cbn [forallb]. rewrite andb_true_iff, negb_true_iff. intros [Hc Hpre].
  rewrite pageMatch_unfold, (pageMatchAt_other c _ Hc). apply IH, Hpre.
Qed.

Lemma digits_no_p (ds : jsstring) :
  forallb isDigit ds = true ->
  forallb (fun c => negb (matchesLetter 112 c)) ds = true.
Proof.
  induction ds as [|d ds IH]; [reflexivity|].
  cbn [forallb]. rewrite !andb_true_iff. intros [Hd Hds].
  split; [|apply IH, Hds].
  destruct (digit_cases d Hd) as [->|[->|[->|[->|[->|[->|[->|[->|[->| ->]]]]]]]]];
    reflexivity.
Qed.

Lemma digits_no_hash (ds : jsstring) :
  forallb isDigit ds = true -> replaceFirstHash ds = ds.
Proof.
  induction ds as [|d ds IH]; [reflexivity|].
  cbn [forallb]. rewrite andb_true_iff. intros [Hd Hds].
  simpl. rewrite (IH Hds).
  destruct (digit_cases d Hd) as [->|[->|[->|[->|[->|[->|[->|[->|[->| ->]]]]]]]]];
    reflexivity.
Qed.

(** The three ways to write page [ds] hand the same digits to the
    viewer. *)
Lemma page_reference_forms (ds : jsstring) :
  ds <> [] -> forallb isDigit ds = true ->
  handleJumpToLocation (lit "#page=" ++ ds) = ds
  /\ handleJumpToLocation (lit "Page " ++ ds) = ds
  /\ handleJumpToLocation ds = ds.
Proof.
  intros Hne Hd. unfold handleJumpToLocation.
  split; [|split].
  - replace (lit "#page=" ++ ds)
      with ([35] ++ ([112; 97; 103; 101] ++ [] ++ [61] ++ [] ++ ds ++ []))
      by (simpl; rewrite app_nil_r; reflexivity).
    rewrite (pageMatch_skip [35]) by reflexivity.
    rewrite pageMatch_unfold, pageMatchAt_complete;
      [ | reflexivity | reflexivity | right; reflexivity | reflexivity
        | exact Hne | exact Hd ].
    simpl takeDigits. rewrite app_nil_r.
    destruct ds; [contradiction | reflexivity].
  - replace (lit "Page " ++ ds)
      with ([80; 97; 103; 101] ++ [32] ++ [] ++ [] ++ ds ++ [])
      by (simpl; rewrite app_nil_r; reflexivity).
    rewrite pageMatch_unfold, pageMatchAt_complete;
      [ | reflexivity | reflexivity | left; reflexivity | reflexivity
        | exact Hne | exact Hd ].
    simpl takeDigits. rewrite app_nil_r.
    destruct ds; [contradiction | reflexivity].
  - rewrite <- (app_nil_r ds) at 1.
    rewrite (pageMatch_skip ds []) by (apply digits_no_p, Hd).
    simpl pageMatch. apply digits_no_hash, Hd.
Qed.

(** A jump depends on the reference through the location it resolves to
    only. *)
Lemma jump_by_location (r1 r2 : jsstring) (w : World) :
  handleJumpToLocation r1 = handleJumpToLocation r2 ->
  step (Jump r1) w = step (Jump r2) w.
Proof. intros H. unfold step. rewrite H. reflexivity. Qed.

(** X9: the two formats the prompts prescribe for a page, the citation
    link [#page=N] of a chat reply and the location [Page N] of a
    section, are equivalent.  For any digits [N], in a PDF whose pages
    are mounted, clicking either one stores exactly these digits as the
    location, shown in the badge, and leaves the state of the viewer
    alone.  When the location of the viewer was not [N] already, the
    click scrolls to page N if the document has that page and nowhere
    otherwise; when it was [N] already (the same page clicked again),
    the click changes nothing and scrolls nowhere. *)
Theorem prescribed_page_references (ds : jsstring) (w : World) :
  ds <> [] -> forallb isDigit ds = true ->
  isPdf w = true -> length (pages w) = numPages (state w) ->
  let w' := clickLink (Some (lit "#page=" ++ ds)) w in
  clickSectionLocation (Some (lit "Page " ++ ds)) w = w'
  /\ state w' = state w
  /\ locationBadge w' = Some ds
  /\ (location (props w) <> Some ds ->
      scrolled w'
      = if inRange (decimal ds) (numPages (state w))
        then Z.to_nat (decimal ds) :: scrolled w else scrolled w)
  /\ (location (props w) = Some ds -> w' = w).
Proof.
  intros Hne Hd Hpdf Hlen w'.
  destruct (page_reference_forms ds Hne Hd) as (H1 & H2 & _).
  assert (Ew : w' = step (Jump (lit "#page=" ++ ds)) w) by reflexivity.
  assert (Es : clickSectionLocation (Some (lit "Page " ++ ds)) w
               = step (Jump (lit "Page " ++ ds)) w) by reflexivity.
  rewrite Es, Ew. clear Ew Es w'.
  split; [apply jump_by_location; congruence|].
  destruct (jump_frame (lit "#page=" ++ ds) w) as (Hs & _ & _ & Hl & Hm).
  split; [exact Hs|]. split; [|split].
  - unfold locationBadge, isPdf. rewrite Hl, Hm, H1.
    fold (isPdf w). rewrite Hpdf.
    destruct ds; [contradiction | reflexivity].
  - intros Hloc.
    rewrite jump_scrolls; rewrite ?H1; [|exact Hpdf | exact Hlen | exact Hloc].
    destruct ds as [|d ds']; [contradiction|].
    rewrite (parseInt_digits d ds' Hd). reflexivity.
  - intros Hloc. apply jump_again. rewrite H1. exact Hloc.
Qed.

Lemma prescribed_page_references_witness :
  clickSectionLocation (Some (lit "Page 12")) Reachable.twentyPages
  = clickLink (Some (lit "#page=12")) Reachable.twentyPages
  /\ locationBadge (clickLink (Some (lit "#page=12")) Reachable.twentyPages)
     = Some (lit "12")
  /\ scrolled (clickLink (Some (lit "#page=12")) Reachable.twentyPages) = [12%nat]
  /\ clickLink (Some (lit "#page=" ++ lit "12"))
       (clickLink (Some (lit "#page=" ++ lit "12")) Reachable.twentyPages)
     = clickLink (Some (lit "#page=" ++ lit "12")) Reachable.twentyPages.
Proof.
  destruct (prescribed_page_references (lit "12") Reachable.twentyPages)
    as (H1 & _ & H3 & H4 & _).
  - discriminate.
  - reflexivity.
  - vm_compute; reflexivity.
  - vm_compute; reflexivity.
  - split; [exact H1|]. split; [exact H3|]. split.
    + etransitivity;
        [exact (H4 ltac:(vm_compute; discriminate)) | vm_compute; reflexivity].
    + destruct (prescribed_page_references (lit "12")
                  (clickLink (Some (lit "#page=" ++ lit "12"))
                     Reachable.twentyPages))
        as (_ & _ & _ & _ & H5).
      * discriminate.
      * reflexivity.
      * vm_compute; reflexivity.
      * vm_compute; reflexivity.
      * exact (H5 ltac:(vm_compute; reflexivity)).
Defined.

(** X10: the other format the chat prompt prescribes, [#section=N],
    never moves the view.  Whatever follows [#section=], as long as no
    page reference is in it, the click scrolls nowhere and changes
    neither the state nor the pages; it stores the text after [#] as the
    location, which the badge of a PDF then shows after the word
    "Page". *)
Theorem section_citation_never_scrolls (rest : jsstring) (w : World) :
  pageMatch rest = None ->
  let w' := clickLink (Some (lit "#section=" ++ rest)) w in
  scrolled w' = scrolled w
  /\ state w' = state w
  /\ pages w' = pages w
  /\ locationBadge w'
     = if isPdf w then Some (lit "section=" ++ rest) else None.
Proof.
  intros Hrest w'.
  assert (Ew : w' = step (Jump (lit "#section=" ++ rest)) w) by reflexivity.
  rewrite Ew. clear Ew w'.
  assert (Hh : handleJumpToLocation (lit "#section=" ++ rest)
               = lit "section=" ++ rest).
  { unfold handleJumpToLocation.
    rewrite (pageMatch_skip (lit "#section=") rest) by reflexivity.
    rewrite Hrest. reflexivity. }
  destruct (jump_frame (lit "#section=" ++ rest) w) as (Hs & Hp & _ & Hl & Hm).
  split; [|split; [exact Hs | split; [exact Hp|]]].
  - unfold step, locationEffect. rewrite Hh.
    destruct (_ && _); [reflexivity|].
    unfold jumpToLocation, targetPage.
    cbn [props state withProps location].
    destruct (isPdf _ && _); reflexivity.
  - unfold locationBadge, isPdf. rewrite Hl, Hm, Hh. reflexivity.
Qed.

Lemma section_citation_never_scrolls_witness :
  scrolled (clickLink (Some (lit "#section=5")) Reachable.twentyPages) = []
  /\ locationBadge (clickLink (Some (lit "#section=5")) Reachable.twentyPages)
     = Some (lit "section=5").
Proof.
  destruct (section_citation_never_scrolls (lit "5") Reachable.twentyPages)
    as (H1 & _ & _ & H4).
  - reflexivity.
  - split; [etransitivity; [exact H1 | vm_compute; reflexivity] | exact H4].
Defined.

End ReferenceFacts.

(* ===================================================================== *)
(** ** The library in [localStorage] *)
(* ===================================================================== *)

Module StorageFacts.
Import JsString Types Storage.

Lemma filter_length_le {A} (f : A -> bool) (l : list A) :
  length (List.filter f l) <= length l.
Proof.
  induction l as [|x l IH]; simpl; [lia|].
  destruct (f x); simpl; lia.
Qed.

Lemma filter_sublist {A} (f : A -> bool) (l : list A) :
  sublist (List.filter f l) l.
Proof.
  induction l as [|x l IH]; simpl; [constructor|].
  destruct (f x); [apply sublist_skip | apply sublist_cons]; exact IH.
Qed.

Lemma filter_filter {A} (f : A -> bool) (l : list A) :
  List.filter f (List.filter f l) = List.filter f l.
Proof.
  induction l as [|x l IH]; simpl; [reflexivity|].
  destruct (f x) eqn:E; simpl; rewrite ?E, IH; reflexivity.
Qed.

Lemma apply_bounded (op : Op) (item : Item) :
  length (getDocuments item) <= 5 ->
  length (getDocuments (apply op item)) <= 5.
Proof.
  intros H. destruct op as [doc [|]|id [|]]; simpl; try exact H.
  - rewrite length_take. lia.
  - pose proof (filter_length_le
                  (fun d => negb (bool_decide (docId (analysisOf d) = id)))
                  (getDocuments item)). lia.
Qed.

(** X11: the library never holds more than five documents.  Starting
    from a storage of at most five (an empty, unreadable or foreign item
    counts as none), after any sequence of saves and deletions, each
    succeeding or hitting the quota, [getDocuments] returns at most five
    documents. *)
Theorem library_at_most_five (ops : list Op) (item : Item) :
  length (getDocuments item) <= 5 ->
  length (getDocuments (applyAll ops item)) <= 5.
Proof.
  revert item. induction ops as [|op ops IH]; intros item H; simpl;
    [exact H|].
  apply IH, apply_bounded, H.
Qed.

Lemma library_at_most_five_witness :
  length (getDocuments (applyAll Samples.busyDay Samples.fullLibrary)) <= 5.
Proof.
  apply (library_at_most_five Samples.busyDay Samples.fullLibrary).
  simpl. lia.
Defined.

(** X12: a successful deletion in the library removes every stored
    document with that id and no other, keeps the order of the rest,
    leaves the list the component shows equal to the stored one, and is
    idempotent. *)
Theorem delete_removes_by_id (id : jsstring) (item : Item) :
  let lib := handleDelete true id (mountLibrary item) in
  lib.2 = getDocuments lib.1
  /\ (forall d, In d lib.2
        <-> In d (getDocuments item) /\ docId (analysisOf d) <> id)
  /\ sublist lib.2 (getDocuments item)
  /\ handleDelete true id lib = lib.
Proof.
  simpl. split; [reflexivity|]. split; [|split].
  - intros d. rewrite filter_In, negb_true_iff, bool_decide_eq_false.
    reflexivity.
  - apply filter_sublist.
  - unfold handleDelete, deleteDocument. simpl.
    rewrite filter_filter. reflexivity.
Qed.

End StorageFacts.

(* ===================================================================== *)
(** ** Files taken in by [Analyzer] *)
(* ===================================================================== *)

Module UploadFacts.
Import JsString Types Storage Upload StorageFacts.
Local Open Scope string_scope.

Lemma endsWithPdf_anyCase (name : jsstring) :
  endsWithPdf name = true -> endsWithPdfAnyCase name = true.
Proof.
  unfold endsWithPdf, endsWithPdfAnyCase.
  destruct (rev name) as [|f [|d [|p [|dot r]]]]; try discriminate.
  intros H. apply andb_true_iff in H as [H Hf].
  apply andb_true_iff in H as [H Hd]. apply andb_true_iff in H as [H Hp].
  apply N.eqb_eq in H, Hf, Hd, Hp. subst. reflexivity.
Qed.

(** What [handleFile] went through when it loads a file. *)
Lemma handleFile_loaded (f : File) (head : option (list N))
  (read : DataUrlRead) (fd : jsstring) (mt at' : string) (nm : jsstring) :
  handleFile f head read = Loaded fd mt at' nm ->
  (size f <= 10485760)%N
  /\ validatePdfHeader f head = true
  /\ (exists result, read = ReadResult result /\ result <> []
                     /\ fd = base64Data result)
  /\ mt = (if negb (String.eqb (type f) "") then type f
           else if endsWithPdf (name f) then "application/pdf"
           else "image/jpeg")
  /\ at' = type f /\ nm = name f.
Proof.
  unfold handleFile. intros H.
  destruct (10 * 1024 * 1024 <? size f)%N eqn:Hs; [discriminate|].
  destruct (validatePdfHeader f head) eqn:Hv; [|discriminate].
  destruct read as [|[|c r]]; try discriminate.
  simpl in H. injection H as <- <- <- <-.
  apply N.ltb_ge in Hs.
  split; [exact Hs|]. split; [reflexivity|].
  split; [exists (c :: r); repeat split; discriminate|].
  repeat split.
Qed.

Lemma validated_pdf (f : File) (head : option (list N)) :
  validatePdfHeader f head = true ->
  (size f <> 0)%N
  /\ (String.eqb (type f) "application/pdf" || endsWithPdfAnyCase (name f) = true ->
      exists bytes, head = Some bytes /\ take 5 bytes = pdfSignature).
Proof.
  unfold validatePdfHeader.
  destruct (size f =? 0)%N eqn:Hz; [discriminate|].
  apply N.eqb_neq in Hz. intros Hv. split; [exact Hz|].
  intros Hp.
  destruct (String.eqb (type f) "application/pdf"), (endsWithPdfAnyCase (name f));
    try discriminate; simpl in Hv;
    (destruct head as [bytes|]; [|discriminate]);
    exists bytes; (split; [reflexivity|]);
    apply bool_decide_eq_true in Hv; exact Hv.
Qed.

(** X13: every file [handleFile] hands to the viewer and to the
    analysis has between one byte and ten mebibytes (ten exactly is
    let in), its data is the field after the first comma of what
    [readAsDataURL] gave, the viewer gets a type that is not empty, and
    whenever that type is [application/pdf] the first five bytes read
    from the file were [%PDF-]. *)
Theorem loaded_file_was_checked (f : File) (head : option (list N))
  (read : DataUrlRead) (fd : jsstring) (mt at' : string) (nm : jsstring) :
  handleFile f head read = Loaded fd mt at' nm ->
  (0 < size f <= 10 * 1024 * 1024)%N
  /\ (exists result, read = ReadResult result /\ fd = base64Data result)
  /\ mt <> ""
  /\ (mt = "application/pdf" ->
      exists bytes, head = Some bytes /\ take 5 bytes = pdfSignature).
Proof.
  intros H.
  destruct (handleFile_loaded f head read fd mt at' nm H)
    as (Hs & Hv & (result & Hr & _ & Hfd) & Hm & _ & _).
  destruct (validated_pdf f head Hv) as (Hz & Hp).
  split; [change (10 * 1024 * 1024)%N with 10485760%N; lia|].
  split; [exists result; split; assumption|].
  destruct (String.eqb_spec (type f) "") as [Et|Et]; simpl in Hm.
  - destruct (endsWithPdf (name f)) eqn:He; subst mt.
    + split; [discriminate|]. intros _. apply Hp.
      rewrite (endsWithPdf_anyCase _ He). apply orb_true_r.
    + split; discriminate.
  - subst mt. split; [exact Et|]. intros E. apply Hp.
    rewrite E. reflexivity.
Qed.

Lemma loaded_file_was_checked_witness :
  (0 < 10485760 <= 10 * 1024 * 1024)%N
  /\ (exists result,
        ReadResult (lit "data:application/pdf;base64,JVBERi0xLjQK") = ReadResult result
        /\ lit "JVBERi0xLjQK" = base64Data result)
  /\ "application/pdf" <> ""
  /\ ("application/pdf" = "application/pdf" ->
      exists bytes, Some [37; 80; 68; 70; 45]%N = Some bytes
                    /\ take 5 bytes = pdfSignature).
Proof.
  apply (loaded_file_was_checked
           (mkFile (lit "lease.pdf") "application/pdf" 10485760)
           (Some [37; 80; 68; 70; 45]%N)
           (ReadResult (lit "data:application/pdf;base64,JVBERi0xLjQK"))
           (lit "JVBERi0xLjQK") "application/pdf" "application/pdf"
           (lit "lease.pdf")).
  vm_compute. reflexivity.
Defined.

Lemma mount_props (data : jsstring) (mime : string) :
  Viewer.props (Viewer.mount data mime) = Viewer.mkProps data mime None.
Proof.
  unfold Viewer.mount, Viewer.afterLoadEffect.
  rewrite ViewerFacts.props_commit.
  apply RenderFacts.loadEffect_frame.
Qed.

(** X14: the two tests of the extension disagree on capitals.  A file
    without a reported type whose name ends in [.pdf] in another case
    than lower case ([.PDF], [.Pdf]) is validated as a PDF, so it is
    only let in when its first five bytes are [%PDF-], and is then
    handed to the viewer as [image/jpeg]: the viewer treats this PDF as
    an image. *)
Theorem capital_extension_shown_as_image (f : File) (head : option (list N))
  (read : DataUrlRead) (fd : jsstring) (mt at' : string) (nm : jsstring) :
  type f = "" ->
  endsWithPdfAnyCase (name f) = true -> endsWithPdf (name f) = false ->
  handleFile f head read = Loaded fd mt at' nm ->
  (exists bytes, head = Some bytes /\ take 5 bytes = pdfSignature)
  /\ mt = "image/jpeg"
  /\ Viewer.isPdf (Viewer.mount fd mt) = false.
Proof.
  intros Ht Ha He H.
  destruct (handleFile_loaded f head read fd mt at' nm H)
    as (_ & Hv & _ & Hm & _ & _).
  destruct (validated_pdf f head Hv) as (_ & Hp).
  rewrite Ht, He in Hm. simpl in Hm. subst mt.
  split; [apply Hp; rewrite Ha; apply orb_true_r|].
  split; [reflexivity|].
  unfold Viewer.isPdf. rewrite mount_props. reflexivity.
Qed.

Lemma capital_extension_shown_as_image_witness :
  (exists bytes, Samples.pdfHead = Some bytes /\ take 5 bytes = pdfSignature)
  /\ "image/jpeg" = "image/jpeg"
  /\ Viewer.isPdf (Viewer.mount (lit "JVBERi0xLjQK") "image/jpeg") = false.
Proof.
  apply (capital_extension_shown_as_image Samples.untypedUpperPdf
           Samples.pdfHead Samples.pdfDataUrl (lit "JVBERi0xLjQK")
           "image/jpeg" "" (lit "LEASE.PDF")).
  - reflexivity.
  - vm_compute; reflexivity.
  - vm_compute; reflexivity.
  - vm_compute; reflexivity.
Defined.

Lemma step_mimeType (e : Viewer.Event) (w : Viewer.World) :
  ViewerSpec.sameSession e ->
  Viewer.mimeType (Viewer.props (Viewer.step e w))
  = Viewer.mimeType (Viewer.props w).
Proof.
  intros He.
  destruct e as [ |data mime|n|name| |delta|k b|c h|t|ref]; simpl in He;
    try contradiction; unfold Viewer.step.
  - destruct (Viewer.workerReady _); [reflexivity|].
    unfold Viewer.afterLoadEffect. rewrite ViewerFacts.props_commit.
    destruct (RenderFacts.loadEffect_frame
                (Viewer.withState
                   (Viewer.setWorkerReady true (Viewer.state w)) w))
      as (_ & _ & ->). reflexivity.
  - destruct (Viewer.pendingLoads w); [reflexivity|].
    rewrite ViewerFacts.props_commit. reflexivity.
  - destruct (Viewer.pendingLoads w); [reflexivity|].
    rewrite ViewerFacts.props_commit. reflexivity.
  - destruct (Viewer.error _); [reflexivity|].
    destruct (Viewer.isPdf w); [reflexivity|].
    rewrite ViewerFacts.props_commit. reflexivity.
  - destruct (Viewer.error _); [reflexivity|].
    destruct (Viewer.rerenderAll _ _ _ _ _) as [[ps ts] cs]. reflexivity.
  - unfold Viewer.intersects.
    destruct (Viewer.pages w !! k) as [p|]; [|reflexivity].
    destruct (Viewer.observing p && b); [|reflexivity].
    destruct (Viewer.isVisible p); [reflexivity|].
    destruct (Viewer.runEffect _ _ _ _ _) as [ts cs]. reflexivity.
  - destruct (Viewer.calls w !! c) as [call|]; [|reflexivity].
    destruct (Viewer.callAt call); try reflexivity.
    unfold Viewer.gotPage. destruct (Viewer.isMounted _ _); reflexivity.
  - unfold Viewer.taskCompletes.
    destruct (Viewer.tasks w !! t) as [T|]; [|reflexivity].
    destruct (Viewer.taskStatus T); reflexivity.
  - apply LocationFacts.jump_frame.
Qed.

Lemma run_mimeType (es : list Viewer.Event) (w : Viewer.World) :
  Forall ViewerSpec.sameSession es ->
  Viewer.mimeType (Viewer.props (Viewer.run es w))
  = Viewer.mimeType (Viewer.props w).
Proof.
  revert w. induction es as [|e es IH]; intros w Hes; simpl; [reflexivity|].
  inversion Hes as [|? ? He Hes']; subst.
  rewrite (IH _ Hes'). apply step_mimeType, He.
Qed.

(** X15: a PDF for which the browser reports no type is shown as a PDF
    on upload and as an image when it is opened again from the library.
    For a file without type whose name ends in [.pdf], [handleFile]
    gives the viewer the type [application/pdf] but [startAnalysis] the
    empty type; the document it stores carries the empty type, and the
    viewer [Analyzer] mounts for the stored document is not a PDF viewer:
    it mounts no page, whatever happens while its props stay. *)
Theorem untyped_pdf_reopens_as_image (f : File) (head : option (list N))
  (read : DataUrlRead) (fd : jsstring) (mt at' : string) (nm : jsstring)
  (result : DocumentAnalysis) (item : Item) (es : list Viewer.Event) :
  type f = "" -> endsWithPdf (name f) = true ->
  handleFile f head read = Loaded fd mt at' nm ->
  fd <> [] -> Forall ViewerSpec.sameSession es ->
  Viewer.isPdf (Viewer.mount fd mt) = true
  /\ exists d rest w,
       getDocuments (startAnalysis result fd at' None true true item)
       = d :: rest
       /\ analysisOf d = result /\ Types.mimeType d = ""
       /\ openStored d = Some w
       /\ Viewer.isPdf (Viewer.run es w) = false
       /\ Viewer.pages (Viewer.run es w) = [].
Proof.
  intros Ht He H Hfd Hes.
  destruct (handleFile_loaded f head read fd mt at' nm H)
    as (_ & _ & _ & Hm & Ha & _).
  rewrite Ht, He in Hm. simpl in Hm. subst mt. rewrite Ht in Ha. subst at'.
  split; [unfold Viewer.isPdf; rewrite mount_props; reflexivity|].
  exists (mkStoredDocument result fd ""), (take 4 (getDocuments item)),
    (Viewer.mount fd "").
  assert (Hpdf : Viewer.isPdf (Viewer.run es (Viewer.mount fd "")) = false).
  { unfold Viewer.isPdf. rewrite (run_mimeType es _ Hes), mount_props.
    reflexivity. }
  split; [reflexivity|]. split; [reflexivity|]. split; [reflexivity|].
  split; [unfold openStored; simpl; destruct fd; [contradiction | reflexivity]|].
  split; [exact Hpdf|].
  pose proof (InvariantFacts.reachable_consistent fd "" es) as Hc.
  unfold ViewerSpec.consistent, Viewer.renderedPages in Hc.
  rewrite Hpdf in Hc.
  destruct (Viewer.error _) in Hc; apply length_zero_iff_nil; exact Hc.
Qed.

Lemma untyped_pdf_reopens_as_image_witness :
  Viewer.isPdf (Viewer.mount (lit "JVBERi0xLjQK") "application/pdf") = true
  /\ exists d rest w,
       getDocuments
         (startAnalysis (Samples.analysis "k") (lit "JVBERi0xLjQK") "" None
            true true Samples.fullLibrary)
       = d :: rest
       /\ analysisOf d = Samples.analysis "k" /\ Types.mimeType d = ""
       /\ openStored d = Some w
       /\ Viewer.isPdf (Viewer.run Samples.viewing w) = false
       /\ Viewer.pages (Viewer.run Samples.viewing w) = [].
Proof.
  apply (untyped_pdf_reopens_as_image Samples.untypedPdf Samples.pdfHead
           Samples.pdfDataUrl (lit "JVBERi0xLjQK") "application/pdf" ""
           (lit "lease.pdf") (Samples.analysis "k") Samples.fullLibrary
           Samples.viewing).
  - reflexivity.
  - vm_compute; reflexivity.
  - vm_compute; reflexivity.
  - discriminate.
  - repeat (constructor; [exact I |]). constructor.
Defined.

Lemma ids_cons2 (a b : StoredDocument) (l : list StoredDocument) :
  docId (analysisOf a) = docId (analysisOf b) -> ~ NoDup (ids (a :: b :: l)).
Proof.
  intros E Hn. unfold ids in Hn. simpl in Hn.
  apply NoDup_cons in Hn as [Hn _]. apply Hn. rewrite E. left.
Qed.

(** X16: an analysis whose illustration arrives is stored twice.
    [startAnalysis] saves the result, and saves it again with the image
    under the same [docId]: when both writes fit, the library then
    starts with these two entries, which share their id, followed by the
    three most recent of the documents it had, so that one analysis
    pushes out two older documents of a full library; deleting that id
    removes both entries. *)
Theorem analysis_with_visual_stored_twice (result : DocumentAnalysis)
  (data : jsstring) (type : string) (v : jsstring) (item : Item) :
  v <> [] ->
  let item' := startAnalysis result data type (Some v) true true item in
  getDocuments item'
  = mkStoredDocument (setVisualImage v result) data type
    :: mkStoredDocument result data type :: take 3 (getDocuments item)
  /\ ~ NoDup (ids (getDocuments item'))
  /\ (handleDelete true (docId result) (mountLibrary item')).2
     = List.filter
         (fun d => negb (bool_decide (docId (analysisOf d) = docId result)))
         (take 3 (getDocuments item)).
Proof.
  intros Hv item'.
  assert (E : getDocuments item'
              = mkStoredDocument (setVisualImage v result) data type
                :: mkStoredDocument result data type
                :: take 3 (getDocuments item)).
  { subst item'. destruct v as [|c v]; [contradiction|].
    unfold startAnalysis, saveDocument. cbn [getDocuments].
    change (take 5 (?a :: ?l)) with (a :: take 4 l).
    change (take 4 (?a :: ?l)) with (a :: take 3 l).
    rewrite take_take. reflexivity. }
  split; [exact E|]. split.
  - rewrite E. apply ids_cons2. reflexivity.
  - unfold handleDelete, mountLibrary, deleteDocument. cbn [fst snd getDocuments].
    rewrite E. cbn [List.filter analysisOf setVisualImage docId].
    rewrite !bool_decide_eq_true_2 by reflexivity. reflexivity.
Qed.

Lemma analysis_with_visual_stored_twice_witness :
  let item' := startAnalysis (Samples.analysis "k") (lit "JVBERi0xLjQK")
                 "application/pdf" (Some (lit "iVBORw0KGgo=")) true true
                 Samples.fullLibrary in
  getDocuments item'
  = mkStoredDocument (setVisualImage (lit "iVBORw0KGgo=") (Samples.analysis "k"))
      (lit "JVBERi0xLjQK") "application/pdf"
    :: mkStoredDocument (Samples.analysis "k") (lit "JVBERi0xLjQK")
         "application/pdf"
    :: take 3 (getDocuments Samples.fullLibrary)
  /\ ~ NoDup (ids (getDocuments item'))
  /\ (handleDelete true (docId (Samples.analysis "k")) (mountLibrary item')).2
     = List.filter
         (fun d => negb (bool_decide
                           (docId (analysisOf d) = docId (Samples.analysis "k"))))
         (take 3 (getDocuments Samples.fullLibrary)).
Proof.
  apply (analysis_with_visual_stored_twice (Samples.analysis "k")
           (lit "JVBERi0xLjQK") "application/pdf" (lit "iVBORw0KGgo=")
           Samples.fullLibrary).
  discriminate.
Defined.

End UploadFacts.

(* ===================================================================== *)
(** ** Cleaning the reply of the model *)
(* ===================================================================== *)

Module GeminiFacts.
Import JsString JsStringFacts Gemini.
Local Open Scope N_scope.

Lemma space_is_bullet (c : N) :
  isWhiteSpace c = true -> isBulletOrSpace c = true.
Proof. intros H. unfold isBulletOrSpace. rewrite H. reflexivity. Qed.

Lemma dropBullets_split (s : jsstring) :
  exists pre, s = pre ++ dropBullets s /\ forallb isBulletOrSpace pre = true.
Proof.
  induction s as [|c r (pre & E & Hp)]; simpl.
  - exists []; split; reflexivity.
  - destruct (isBulletOrSpace c) eqn:Hc.
    + exists (c :: pre); simpl; rewrite Hc, Hp, <- E; split; reflexivity.
    + exists []; split; reflexivity.
Qed.

Lemma dropBullets_head (s : jsstring) :
  match dropBullets s with
  | c :: _ => isBulletOrSpace c = false
  | [] => True
  end.
Proof.
  induction s as [|c r IH]; simpl; [exact I|].
  destruct (isBulletOrSpace c) eqn:Hc; [exact IH | exact Hc].
Qed.

Lemma skipWhiteSpace_head (s : jsstring) :
  match skipWhiteSpace s with
  | c :: _ => isWhiteSpace c = false
  | [] => True
  end.
Proof.
  induction s as [|c r IH]; simpl; [exact I|].
  destruct (isWhiteSpace c) eqn:Hc; [exact IH | exact Hc].
Qed.

Lemma skipWhiteSpace_fixed (c : N) (r : jsstring) :
  isWhiteSpace c = false -> skipWhiteSpace (c :: r) = c :: r.
Proof. intros H. simpl. rewrite H. reflexivity. Qed.

Lemma skipWhiteSpace_idem (s : jsstring) :
  skipWhiteSpace (skipWhiteSpace s) = skipWhiteSpace s.
Proof.
  pose proof (skipWhiteSpace_head s) as H.
  destruct (skipWhiteSpace s) as [|c r]; [reflexivity|].
  apply skipWhiteSpace_fixed, H.
Qed.

Lemma skipWhiteSpace_snoc (l : jsstring) (c : N) :
  isWhiteSpace c = false ->
  exists x, skipWhiteSpace (l ++ [c]) = x ++ [c].
Proof.
  intros Hc. induction l as [|a l (x & IH)]; simpl.
  - rewrite Hc. exists []. reflexivity.
  - destruct (isWhiteSpace a); [exists x; exact IH|].
    exists (a :: l). reflexivity.
Qed.

Lemma forallb_rev {A} (f : A -> bool) (l : list A) :
  forallb f (rev l) = forallb f l.
Proof.
  induction l as [|a l IH]; [reflexivity|].
  simpl. rewrite forallb_app, IH. simpl. rewrite andb_true_r. apply andb_comm.
Qed.

Lemma trimEnd_split (s : jsstring) :
  exists post, s = trimEnd s ++ post /\ forallb isWhiteSpace post = true.
Proof.
  destruct (skipWhiteSpace_split (rev s)) as (w & E & Hw).
  exists (rev w). split.
  - unfold trimEnd. rewrite <- rev_app_distr, <- E. symmetry. apply rev_involutive.
  - rewrite forallb_rev. exact Hw.
Qed.

Lemma trimEnd_idem (s : jsstring) : trimEnd (trimEnd s) = trimEnd s.
Proof.
  unfold trimEnd. rewrite rev_involutive, skipWhiteSpace_idem. reflexivity.
Qed.

Lemma trimEnd_head (c : N) (r : jsstring) :
  isWhiteSpace c = false -> exists r', trimEnd (c :: r) = c :: r'.
Proof.
  intros Hc. unfold trimEnd. simpl rev.
  destruct (skipWhiteSpace_snoc (rev r) c Hc) as (x & ->).
  exists (rev x). rewrite rev_app_distr. reflexivity.
Qed.

Lemma bullet_not_space (c : N) :
  isBulletOrSpace c = false -> isWhiteSpace c = false.
Proof.
  intros H. destruct (isWhiteSpace c) eqn:E; [|reflexivity].
  rewrite (space_is_bullet c E) in H. discriminate.
Qed.

(** What [cleanString] gives, through [trimEnd] alone. *)
Lemma cleanString_trimEnd (s : jsstring) :
  cleanString s = trimEnd (dropBullets s).
Proof.
  unfold cleanString, trim. f_equal.
  pose proof (dropBullets_head s) as H.
  destruct (dropBullets s) as [|c r]; [reflexivity|].
  apply skipWhiteSpace_fixed, bullet_not_space, H.
Qed.

Lemma cleanString_head (s : jsstring) :
  match cleanString s with
  | c :: _ => isBulletOrSpace c = false
  | [] => True
  end.
Proof.
  rewrite cleanString_trimEnd.
  pose proof (dropBullets_head s) as H.
  destruct (dropBullets s) as [|c r]; [exact I|].
  destruct (trimEnd_head c r (bullet_not_space c H)) as (r' & ->). exact H.
Qed.

(** X17: [cleanString] only strips the two ends of a key point: the
    text is a run of white space, bullets, dashes and stars, then the
    result, then white space.  The result begins with none of these
    marks and ends with no white space, and cleaning it again changes
    nothing. *)
Theorem cleanString_strips_ends (s : jsstring) :
  (exists pre post,
     s = pre ++ cleanString s ++ post
     /\ forallb isBulletOrSpace pre = true
     /\ forallb isWhiteSpace post = true)
  /\ match cleanString s with
     | c :: _ => isBulletOrSpace c = false
     | [] => True
     end
  /\ match rev (cleanString s) with
     | c :: _ => isWhiteSpace c = false
     | [] => True
     end
  /\ cleanString (cleanString s) = cleanString s.
Proof.
  split; [|split; [apply cleanString_head | split]].
  - destruct (dropBullets_split s) as (pre & E & Hp).
    destruct (trimEnd_split (dropBullets s)) as (post & E' & Hq).
    exists pre, post. rewrite cleanString_trimEnd, <- E'.
    repeat split; assumption.
  - rewrite cleanString_trimEnd. unfold trimEnd. rewrite rev_involutive.
    apply skipWhiteSpace_head.
  - pose proof (cleanString_head s) as H.
    rewrite (cleanString_trimEnd (cleanString s)).
    destruct (cleanString s) as [|c r] eqn:E; [reflexivity|].
    simpl dropBullets. rewrite H.
    rewrite <- E, cleanString_trimEnd. apply trimEnd_idem.
Qed.

Lemma stripPrefix_app (p s : jsstring) : stripPrefix p (p ++ s) = Some s.
Proof.
  induction p as [|a p IH]; simpl; [destruct s; reflexivity|].
  rewrite N.eqb_refl. exact IH.
Qed.

Lemma stripPrefix_common (p q s : jsstring) :
  stripPrefix (p ++ q) (p ++ s) = stripPrefix q s.
Proof.
  induction p as [|a p IH]; [reflexivity|].
  cbn [app stripPrefix]. rewrite N.eqb_refl. exact IH.
Qed.

Lemma stripPrefix_cons_ne (a : N) (p : jsstring) (c : N) (s : jsstring) :
  (a =? c) = false -> stripPrefix (a :: p) (c :: s) = None.
Proof. intros H. cbn [stripPrefix]. rewrite H. reflexivity. Qed.

Lemma space_not (c k : N) :
  isWhiteSpace c = true -> isWhiteSpace k = false -> (k =? c) = false.
Proof.
  intros Hc Hk. destruct (N.eqb_spec k c) as [->|]; [congruence | reflexivity].
Qed.

(** The closing fence after an object. *)
Lemma stripCloseFence_object (mid ws2 : jsstring) :
  forallb isWhiteSpace ws2 = true ->
  stripCloseFence ((123 :: mid ++ [125]) ++ ws2 ++ fence)
  = 123 :: mid ++ [125].
Proof.
  intros H2. unfold stripCloseFence.
  rewrite !rev_app_distr.
  change (rev fence) with fence. rewrite <- app_assoc, stripPrefix_app.
  rewrite skipWhiteSpace_app by (rewrite forallb_rev; exact H2).
  change (123 :: mid ++ [125]) with ((123 :: mid) ++ [125]).
  rewrite (rev_app_distr (123 :: mid) [125]).
  change (rev [125] ++ rev (123 :: mid)) with (125 :: rev (123 :: mid)).
  rewrite skipWhiteSpace_fixed by reflexivity.
  change (125 :: rev (123 :: mid)) with (rev [125] ++ rev (123 :: mid)).
  rewrite <- rev_app_distr. apply rev_involutive.
Qed.

(** X18: a reply that is a JSON object wrapped in a fence is unwrapped:
    with a [json] fence or a plain one, and any white space inside the
    fences, the text handed to [JSON.parse] is the object; an object
    without fences is handed over as it is.  One newline after the
    closing fence defeats this: the closing fence then stays in the
    text. *)
Theorem fenced_object_unwrapped (mid ws1 ws2 : jsstring) :
  forallb isWhiteSpace ws1 = true -> forallb isWhiteSpace ws2 = true ->
  let object := 123 :: mid ++ [125] in
  replyText (Some (fence ++ lit "json" ++ ws1 ++ object ++ ws2 ++ fence))
  = object
  /\ replyText (Some (fence ++ ws1 ++ object ++ ws2 ++ fence)) = object
  /\ replyText (Some object) = object
  /\ replyText (Some (fence ++ lit "json" ++ ws1 ++ object ++ ws2 ++ fence
                      ++ [10]))
     = object ++ ws2 ++ fence ++ [10].
Proof.
  intros H1 H2 object.
  assert (Hobj : forall rest, skipWhiteSpace (ws1 ++ object ++ rest)
                              = object ++ rest).
  { intros rest. rewrite skipWhiteSpace_app by exact H1. reflexivity. }
  assert (Hopen : forall rest, stripOpenFence (object ++ rest) = object ++ rest)
    by reflexivity.
  assert (Hjson : forall rest,
            stripJsonFence (fence ++ lit "json" ++ ws1 ++ object ++ rest)
            = object ++ rest).
  { intros rest. unfold stripJsonFence.
    change (fence ++ lit "json" ++ ws1 ++ object ++ rest)
      with ((fence ++ lit "json") ++ ws1 ++ object ++ rest).
    rewrite stripPrefix_app. apply Hobj. }
  assert (Hplain : forall rest,
            stripOpenFence (stripJsonFence (fence ++ ws1 ++ object ++ rest))
            = object ++ rest).
  { intros rest.
    assert (E : stripJsonFence (fence ++ ws1 ++ object ++ rest)
                = fence ++ ws1 ++ object ++ rest).
    { unfold stripJsonFence. destruct ws1 as [|c ws1']; [reflexivity|].
      simpl in H1. apply andb_true_iff in H1 as [Hc _].
      change (fence ++ (c :: ws1') ++ object ++ rest)
        with (fence ++ c :: ws1' ++ object ++ rest).
      rewrite stripPrefix_common.
      rewrite (stripPrefix_cons_ne 106 (lit "son") c)
        by (apply (space_not c 106 Hc); reflexivity).
      reflexivity. }
    rewrite E. unfold stripOpenFence. rewrite stripPrefix_app. apply Hobj. }
  assert (Hre : forall t, replyText (Some (fence ++ t))
                          = stripCloseFence
                              (stripOpenFence (stripJsonFence (fence ++ t))))
    by reflexivity.
  split; [|split; [|split]].
  - rewrite Hre, Hjson, Hopen. apply stripCloseFence_object, H2.
  - rewrite Hre, Hplain. apply stripCloseFence_object, H2.
  - change (replyText (Some object)) with (stripCloseFence object).
    unfold stripCloseFence, object.
    change (123 :: mid ++ [125]) with ((123 :: mid) ++ [125]).
    rewrite rev_app_distr. reflexivity.
  - rewrite Hre, Hjson, Hopen. unfold stripCloseFence.
    rewrite !app_assoc, rev_app_distr. reflexivity.
Qed.

Lemma fenced_object_unwrapped_witness :
  replyText (Some (fence ++ lit "json" ++ [10] ++ lit "{ }" ++ [10] ++ fence))
  = lit "{ }"
  /\ replyText (Some (fence ++ [10] ++ lit "{ }" ++ [10] ++ fence)) = lit "{ }"
  /\ replyText (Some (lit "{ }")) = lit "{ }"
  /\ replyText (Some (fence ++ lit "json" ++ [10] ++ lit "{ }" ++ [10] ++ fence
                      ++ [10]))
     = lit "{ }" ++ [10] ++ fence ++ [10].
Proof.
  apply (fenced_object_unwrapped [32] [10] [10]); reflexivity.
Defined.

End GeminiFacts.

(* ===================================================================== *)
(** ** The suggested questions *)
(* ===================================================================== *)

Module SuggestionFacts.
Import JsString Types Suggestions.

Lemma unique_spec (seen xs : list jsstring) :
  NoDup (unique seen xs)
  /\ forall x, x ∈ unique seen xs <-> x ∈ xs /\ x ∉ seen.
Proof.
  revert seen. induction xs as [|a xs IH]; intros seen; simpl.
  - split; [constructor|]. intros x. rewrite elem_of_nil. tauto.
  - destruct (decide (a ∈ seen)) as [Hin|Hout].
    + rewrite (bool_decide_eq_true_2 _ Hin).
      destruct (IH seen) as (Hn & Hx). split; [exact Hn|].
      intros x. rewrite Hx, elem_of_cons. split; [tauto|].
      intros [[->|H] Hs]; [contradiction | tauto].
    + rewrite (bool_decide_eq_false_2 _ Hout).
      destruct (IH (a :: seen)) as (Hn & Hx). split.
      * apply NoDup_cons. split; [|exact Hn].
        rewrite Hx, elem_of_cons. tauto.
      * intros x. rewrite !elem_of_cons, Hx, elem_of_cons.
        destruct (decide (x = a)) as [->|Hne]; tauto.
Qed.

Lemma unique_seen (s1 s2 xs : list jsstring) :
  (forall x, x ∈ s1 <-> x ∈ s2) -> unique s1 xs = unique s2 xs.
Proof.
  revert s1 s2. induction xs as [|a xs IH]; intros s1 s2 H; simpl;
    [reflexivity|].
  destruct (decide (a ∈ s1)) as [Hin|Hout].
  - rewrite (bool_decide_eq_true_2 _ Hin).
    rewrite (bool_decide_eq_true_2 (a ∈ s2)) by (apply H, Hin).
    apply IH, H.
  - rewrite (bool_decide_eq_false_2 _ Hout).
    rewrite (bool_decide_eq_false_2 (a ∈ s2)) by (rewrite <- H; exact Hout).
    f_equal. apply IH. intros x. rewrite !elem_of_cons, H. reflexivity.
Qed.

Lemma unique_app (seen xs ys : list jsstring) :
  unique seen (xs ++ ys) = unique seen xs ++ unique (xs ++ seen) ys.
Proof.
  revert seen. induction xs as [|a xs IH]; intros seen; simpl; [reflexivity|].
  destruct (decide (a ∈ seen)) as [Hin|Hout].
  - rewrite (bool_decide_eq_true_2 _ Hin), IH. f_equal.
    apply unique_seen. intros x. rewrite elem_of_cons, !elem_of_app.
    split; [tauto|]. intros [->|H]; tauto.
  - rewrite (bool_decide_eq_false_2 _ Hout), IH. simpl. do 2 f_equal.
    apply unique_seen. intros x.
    rewrite elem_of_cons, !elem_of_app, elem_of_cons. tauto.
Qed.

Lemma fill_cons (qs ds : list jsstring) (d : jsstring) :
  fill qs (d :: ds)
  = fill (if (8 <=? length qs)%nat then qs
          else if bool_decide (d ∈ qs) then qs else qs ++ [d]) ds.
Proof. reflexivity. Qed.

(** [fill] appends; it keeps a list without duplicates so; and each
    default is in the result unless the result has eight entries. *)
Lemma fill_spec (ds qs : list jsstring) :
  (exists extra, fill qs ds = qs ++ extra)
  /\ (NoDup qs -> NoDup (fill qs ds))
  /\ (forall d, d ∈ ds -> d ∈ fill qs ds \/ 8 <= length (fill qs ds)).
Proof.
  revert qs. induction ds as [|d ds IH]; intros qs.
  - change (fill qs []) with qs.
    split; [exists []; rewrite app_nil_r; reflexivity|].
    split; [tauto|]. intros d. rewrite elem_of_nil. tauto.
  - rewrite fill_cons.
    set (qs' := if (8 <=? length qs)%nat then qs
                else if bool_decide (d ∈ qs) then qs else qs ++ [d]).
    destruct (IH qs') as ((extra & E) & Hn & Hd).
    assert (Hqs' : (exists e, qs' = qs ++ e) /\ (NoDup qs -> NoDup qs')
                   /\ (d ∈ qs' \/ 8 <= length qs')).
    { subst qs'. destruct (8 <=? length qs)%nat eqn:H8.
      - apply Nat.leb_le in H8.
        split; [exists []; rewrite app_nil_r; reflexivity|]. split; [tauto|].
        right; exact H8.
      - destruct (decide (d ∈ qs)) as [Hin|Hout].
        + rewrite (bool_decide_eq_true_2 _ Hin).
          split; [exists []; rewrite app_nil_r; reflexivity|]. split; [tauto|].
          left; exact Hin.
        + rewrite (bool_decide_eq_false_2 _ Hout).
          split; [exists [d]; reflexivity|]. split.
          * intros Hq. apply NoDup_app. split; [exact Hq|]. split.
            -- intros x Hx Hx'. apply list_elem_of_singleton in Hx'. subst x.
               contradiction.
            -- apply NoDup_singleton.
          * left. apply elem_of_app. right. apply list_elem_of_singleton.
            reflexivity. }
    destruct Hqs' as ((e & Ee) & Hn' & Hd').
    split; [exists (e ++ extra); rewrite E, Ee, app_assoc; reflexivity|].
    split; [intros Hq; apply Hn, Hn', Hq|].
    intros x Hx. apply elem_of_cons in Hx as [->|Hx]; [|apply Hd, Hx].
    rewrite E. destruct Hd' as [Hin|H8].
    + left. apply elem_of_app. left. exact Hin.
    + right. rewrite length_app. lia.
Qed.

Lemma defaults_NoDup : NoDup defaults.
Proof.
  unfold defaults.
  repeat (apply NoDup_cons; split;
          [rewrite ?elem_of_cons, elem_of_nil; intros H;
           repeat (destruct H as [H|H]; [discriminate H|]); exact H |]).
  apply NoDup_nil. exact I.
Qed.

(** X19: whatever the analysis holds, the chat shows between five and
    eight suggested questions, and no question twice. *)
Theorem suggestions_five_to_eight (a : DocumentAnalysis) :
  NoDup (suggestedQuestions a)
  /\ 5 <= length (suggestedQuestions a) <= 8.
Proof.
  unfold suggestedQuestions.
  set (u := unique [] (extractedQuestions a)).
  destruct (fill_spec defaults u) as (_ & Hn & Hd).
  assert (Hf : NoDup (fill u defaults))
    by (apply Hn, (unique_spec [] (extractedQuestions a))).
  split.
  - apply (sublist_NoDup _ (fill u defaults)); [exact Hf | apply sublist_take].
  - rewrite length_take. split; [|lia].
    destruct (decide (8 <= length (fill u defaults))) as [H8|H8]; [lia|].
    assert (Hsub : defaults ⊆+ fill u defaults).
    { apply NoDup_submseteq; [apply defaults_NoDup|].
      intros d Hd'. destruct (Hd d Hd') as [H|H]; [exact H | contradiction]. }
    apply submseteq_length in Hsub.
    change (length defaults) with 5 in Hsub. lia.
Qed.

(** X20: the questions of the red flags of severity HIGH come first.
    Each of them is among the suggestions, unless all eight suggestions
    are questions of HIGH flags already. *)
Theorem high_flag_questions_first (a : DocumentAnalysis) (q : jsstring) :
  q ∈ getQs "HIGH" (redFlags a) ->
  q ∈ suggestedQuestions a
  \/ (length (suggestedQuestions a) = 8
      /\ forall x, x ∈ suggestedQuestions a -> x ∈ getQs "HIGH" (redFlags a)).
Proof.
  intros Hq. unfold suggestedQuestions.
  set (high := getQs "HIGH" (redFlags a)) in *.
  assert (Hex : exists rest, extractedQuestions a = high ++ rest).
  { unfold extractedQuestions, fromFlags. fold high.
    destruct (_ <? _)%nat; eexists; rewrite <- ?app_assoc; reflexivity. }
  destruct Hex as (rest & ->).
  rewrite unique_app.
  destruct (fill_spec defaults (unique [] high ++ unique (high ++ []) rest))
    as ((extra & ->) & _ & _).
  rewrite <- app_assoc.
  destruct (unique_spec [] high) as (_ & Hu).
  assert (Hqu : q ∈ unique [] high).
  { apply Hu. split; [exact Hq | apply not_elem_of_nil]. }
  destruct (decide (length (unique [] high) <= 8)) as [Hle|Hgt].
  - left. rewrite take_app_ge by exact Hle.
    apply elem_of_app. left. exact Hqu.
  - right. rewrite take_app_le by lia. split.
    + rewrite length_take. lia.
    + intros x Hx. apply elem_of_take in Hx as (i & Hx & _).
      apply list_elem_of_lookup_2 in Hx. apply Hu in Hx. tauto.
Qed.

Lemma high_flag_questions_first_witness :
  lit "How do I stop the renewal?" ∈ suggestedQuestions Samples.flagged
  \/ (length (suggestedQuestions Samples.flagged) = 8
      /\ forall x, x ∈ suggestedQuestions Samples.flagged ->
           x ∈ getQs "HIGH" (redFlags Samples.flagged)).
Proof.
  apply (high_flag_questions_first Samples.flagged
           (lit "How do I stop the renewal?")).
  vm_compute. repeat constructor.
Defined.

End SuggestionFacts.

(* ===================================================================== *)
(** ** When pages are rendered again *)
(* ===================================================================== *)

Module RenderingFacts.
Import JsNumber JsNumberFacts JsString Viewer ViewerSpec Runs ViewerFacts
  VisibilityFacts RenderFacts Rendering.

Lemma sameDoc_eq (a : option nat) (doc : option PdfDoc) :
  sameDoc a doc = true <-> a = option_map docId doc.
Proof.
  destruct a as [x|], doc as [d|]; simpl;
    try (split; [discriminate | intros E; discriminate E]).
  - rewrite Nat.eqb_eq. split; congruence.
  - split; reflexivity.
Qed.

Lemma seen_inSync (doc : option PdfDoc) (sc : number) (p : PdfPage) :
  seenDoc (seen doc sc p) = option_map docId doc
  /\ seenScale (seen doc sc p) = sc.
Proof.
  unfold seen.
  destruct (sameDoc (seenDoc p) doc && same_value (seenScale p) sc) eqn:E;
    [|split; reflexivity].
  apply andb_true_iff in E as [Ed Es].
  split; [apply sameDoc_eq, Ed | apply same_value_eq, Es].
Qed.

Lemma Forall_map_all {A B} (P : B -> Prop) (f : A -> B) (l : list A) :
  (forall x, P (f x)) -> Forall P (map f l).
Proof.
  intros H. induction l as [|a l IH]; simpl; constructor; [apply H | exact IH].
Qed.

(** After a commit every page is in step with the state. *)
Lemma reconcile_inSync (w : World) : inSync (reconcile w).
Proof.
  destruct (reconcile_tasks w) as (kept & cs & E & _).
  pose proof (rerenderAll_pages (pdfDoc (state w)) (scale (state w))
                (take (renderedPages w) (pages w))
                (unmountAll (drop (renderedPages w) (pages w)) (tasks w))
                (calls w)) as Hkept.
  rewrite E in Hkept. simpl in Hkept.
  unfold inSync, reconcile. rewrite E. cbn [pages state].
  apply Forall_app. split.
  - rewrite Hkept. apply Forall_map_all. intros q. apply seen_inSync.
  - apply Forall_map_all. intros i. split; reflexivity.
Qed.

Lemma commit_inSync (before w : World) :
  inSync (locationEffect before (reconcile w)).
Proof.
  pose proof (reconcile_inSync w) as H. unfold inSync in *.
  destruct (locationEffect_frame before (reconcile w)) as (_ & -> & -> & _).
  exact H.
Qed.

Lemma Forall_updateInst (P : PdfPage -> Prop) (i : nat)
  (f : PdfPage -> PdfPage) (ps : list PdfPage) :
  (forall p, P p -> P (f p)) -> Forall P ps -> Forall P (updateInst i f ps).
Proof.
  intros Hf H. unfold updateInst.
  induction H as [|p ps Hp _ IH]; simpl; constructor; [|exact IH].
  destruct (Nat.eqb (inst p) i); [apply Hf, Hp | exact Hp].
Qed.

Lemma step_inSync (e : Event) (w : World) : inSync w -> inSync (step e w).
Proof.
  intros Hw.
  destruct e as [ |data mime|n|name| |delta|k b|c h|t|ref]; unfold step.
  - destruct (workerReady (state w)); [exact Hw | apply commit_inSync].
  - destruct (_ && _); [exact Hw | apply commit_inSync].
  - destruct (pendingLoads w); [exact Hw | apply commit_inSync].
  - destruct (pendingLoads w); [exact Hw | apply commit_inSync].
  - destruct (error (state w)); [exact Hw|].
    destruct (isPdf w); [exact Hw | apply commit_inSync].
  - destruct (error (state w)); [exact Hw|].
    cbn [state pages tasks calls withState].
    match goal with |- context [rerenderAll ?d ?s ?p ?t ?c] =>
      pose proof (rerenderAll_pages d s p t c) as H;
      destruct (rerenderAll d s p t c) as [[ps ts] cs] end.
    simpl in H. unfold inSync. cbn [pages state withCalls withTasks withPages withState].
    rewrite H. apply Forall_map_all. intros q. apply seen_inSync.
  - unfold intersects. destruct (pages w !! k) as [p|] eqn:Hk; [|exact Hw].
    destruct (observing p && b); [|exact Hw].
    assert (Hi : Forall (fun q => seenDoc q = option_map docId (pdfDoc (state w))
                                  /\ seenScale q = scale (state w))
                   (<[k := disconnect (setIsVisible true p)]> (pages w))).
    { apply Forall_insert; [exact Hw|].
      unfold inSync in Hw. rewrite Forall_forall in Hw.
      apply (Hw p), (list_elem_of_lookup_2 _ k), Hk. }
    destruct (isVisible p); [exact Hi|].
    destruct (runEffect _ _ _ _ _) as [ts cs]. exact Hi.
  - destruct (calls w !! c) as [call|]; [|exact Hw].
    destruct (callAt call); try exact Hw.
    unfold gotPage, inSync in *.
    destruct (isMounted _ _); cbn [pages state pdfDoc scale setEstimatedPageHeight];
      repeat apply Forall_updateInst; try exact Hw; intros p Hp; exact Hp.
  - unfold taskCompletes. destruct (tasks w !! t) as [T|]; [|exact Hw].
    destruct (taskStatus T); try exact Hw.
    unfold inSync in *. cbn [pages state withPages withTasks].
    apply Forall_updateInst; [intros p Hp; exact Hp | exact Hw].
  - unfold inSync in *.
    destruct (locationEffect_frame w
                (withProps (mkProps (fileData (props w)) (mimeType (props w))
                              (Some (Location.handleJumpToLocation ref))) w))
      as (_ & -> & -> & _). exact Hw.
Qed.

Lemma reachable_inSync (data : jsstring) (mime : string) (es : list Event) :
  inSync (run es (mount data mime)).
Proof.
  assert (H0 : inSync (mount data mime)).
  { unfold mount, afterLoadEffect. apply commit_inSync. }
  revert H0. generalize (mount data mime).
  induction es as [|e es IH]; intros w Hw; simpl; [exact Hw|].
  apply IH, step_inSync, Hw.
Qed.

(** Pages in step with the document and the scale are left alone. *)
Lemma rerenderAll_inSync doc sc ps ts cs :
  Forall (fun p => seenDoc p = option_map docId doc /\ seenScale p = sc) ps ->
  rerenderAll doc sc ps ts cs = (ps, ts, cs).
Proof.
  induction ps as [|p ps IH]; intros H; simpl; [reflexivity|].
  inversion H as [|? ? (Hd & Hs) H']; subst.
  unfold rerender.
  rewrite (proj2 (sameDoc_eq _ _) Hd), (proj2 (same_value_eq _ _) eq_refl).
  simpl. rewrite (IH H'). reflexivity.
Qed.

(** X21: a zoom that leaves the scale as it is does nothing at all: no
    page is rendered again, no task is cancelled, no activation starts.
    This is what happens at the two ends of the range: zooming in at 2.5
    and zooming out at 0.5. *)
Theorem zoom_without_effect (data : jsstring) (mime : string)
  (es : list Event) (delta : number) :
  let w := run es (mount data mime) in
  Zoom.zoom delta (scale (state w)) = scale (state w) ->
  step (ZoomBy delta) w = w.
Proof.
  intros w Hz. pose proof (reachable_inSync data mime es) as Hs. fold w in Hs.
  unfold step. destruct (error (state w)); [reflexivity|].
  assert (E : withState (setScale (Zoom.zoom delta) (state w)) w = w).
  { destruct w as [pr st ps ts cs pl fr sc]. destruct st. simpl in *.
    unfold withState, setScale. simpl. rewrite Hz. reflexivity. }
  rewrite E. rewrite (rerenderAll_inSync _ _ _ _ _ Hs).
  destruct w; reflexivity.
Qed.

Lemma zoom_without_effect_witness :
  step (ZoomBy c0_1)
    (run atUpperLimit (mount (lit "JVBERi0xLjQK") "application/pdf"))
  = run atUpperLimit (mount (lit "JVBERi0xLjQK") "application/pdf").
Proof.
  apply (zoom_without_effect (lit "JVBERi0xLjQK") "application/pdf"
           atUpperLimit c0_1).
  vm_compute. reflexivity.
Defined.

Lemma rerender_restarts (d : PdfDoc) (sc : number) (p : PdfPage)
  (ts : list RenderTask) (cs : list RenderCall) :
  same_value (seenScale p) sc = false ->
  (rerender (Some d) sc p ts cs).2 = cs ++ restarted sc p.
Proof.
  intros H. unfold rerender, runEffect, effectBody, effectCleanup, restarted.
  rewrite H, andb_false_r.
  destruct (isVisible p); [|simpl; reflexivity].
  destruct (renderTaskRef p); reflexivity.
Qed.

Lemma rerenderAll_restarts (d : PdfDoc) (sc : number) (ps : list PdfPage)
  (ts : list RenderTask) (cs : list RenderCall) :
  Forall (fun p => same_value (seenScale p) sc = false) ps ->
  (rerenderAll (Some d) sc ps ts cs).2 = cs ++ flat_map (restarted sc) ps.
Proof.
  revert ts cs. induction ps as [|p ps IH]; intros ts cs H; simpl.
  - rewrite app_nil_r. reflexivity.
  - inversion H as [|? ? Hp H']; subst.
    pose proof (rerender_restarts d sc p ts cs Hp) as E.
    destruct (rerender (Some d) sc p ts cs) as [[p' ts1] cs1]. simpl in E.
    specialize (IH ts1 cs1 H').
    destruct (rerenderAll (Some d) sc ps ts1 cs1) as [[ps' ts2] cs2].
    simpl in *. rewrite IH, E, app_assoc. reflexivity.
Qed.

(** X22: a zoom that changes the scale of a shown document starts the
    render again for exactly the pages that have been in view, in page
    order, at the new scale, and for no other page: the activations of
    [renderPage] grow by one per such page, which first awaits the
    cancellation of the task in the ref of the page when there is
    one. *)
Theorem zoom_restarts_pages_in_view (data : jsstring) (mime : string)
  (es : list Event) (delta : number) (d : PdfDoc) :
  let w := run es (mount data mime) in
  error (state w) = None -> pdfDoc (state w) = Some d ->
  Zoom.zoom delta (scale (state w)) <> scale (state w) ->
  calls (step (ZoomBy delta) w)
  = calls w ++ flat_map (restarted (Zoom.zoom delta (scale (state w)))) (pages w).
Proof.
  intros w He Hd Hz. pose proof (reachable_inSync data mime es) as Hs.
  fold w in Hs. unfold step. rewrite He.
  cbn [state pages tasks calls withState setScale pdfDoc scale].
  rewrite Hd.
  pose proof (rerenderAll_restarts d (Zoom.zoom delta (scale (state w)))
                (pages w) (tasks w) (calls w)) as H.
  destruct (rerenderAll _ _ _ _ _) as [[ps ts] cs]. simpl in *.
  apply H. unfold inSync in Hs. rewrite Forall_forall in *.
  intros p Hp. destruct (Hs p Hp) as (_ & ->).
  destruct (same_value _ _) eqn:E; [|reflexivity].
  apply same_value_eq in E. congruence.
Qed.

Lemma zoom_restarts_pages_in_view_witness :
  calls (step (ZoomBy c0_1)
           (run twoPagesOnePainting (mount (lit "JVBERi0xLjQK") "application/pdf")))
  = calls (run twoPagesOnePainting (mount (lit "JVBERi0xLjQK") "application/pdf"))
    ++ [mkRenderCall 1 c1_0 AwaitCancel].
Proof.
  etransitivity.
  - apply (zoom_restarts_pages_in_view (lit "JVBERi0xLjQK") "application/pdf"
             twoPagesOnePainting c0_1 (mkPdfDoc 0 2)).
    + vm_compute; reflexivity.
    + vm_compute; reflexivity.
    + vm_compute; discriminate.
  - vm_compute. reflexivity.
Defined.

End RenderingFacts.

(* ===================================================================== *)
(** ** Pages out of view cost nothing *)
(* ===================================================================== *)

Module LazyFacts.
Import JsNumber JsNumberFacts JsString Viewer ViewerSpec Runs ViewerFacts
  VisibilityFacts RenderFacts RenderingFacts Lazy.

Lemma lazyOf_fresh ps tis cis fr fr' :
  fr <= fr' -> lazyOf ps tis cis fr -> lazyOf ps tis cis fr'.
Proof.
  intros Hle (Hn & Hp & Hc & Ht). split; [exact Hn|].
  split; [|split].
  - eapply Forall_impl; [exact Hp|]. intros p (H1 & H2). split; [lia | exact H2].
  - eapply Forall_impl; [exact Hc|]. intros i (H1 & H2). split; [lia | exact H2].
  - eapply Forall_impl; [exact Ht|]. intros i (H1 & H2). split; [lia | exact H2].
Qed.

Lemma map_inst_steady (f : PdfPage -> PdfPage) (ps : list PdfPage) :
  steady f -> map inst (map f ps) = map inst ps.
Proof.
  intros Hf. rewrite map_map. apply map_ext. intros p. apply Hf.
Qed.

Lemma inView_map (f : PdfPage -> PdfPage) (ps : list PdfPage) (i : nat) :
  steady f -> inView ps i -> inView (map f ps) i.
Proof.
  intros Hf H. unfold inView in *.
  induction H as [|p ps Hp _ IH]; simpl; constructor; [|exact IH].
  destruct (Hf p) as (-> & -> & _). exact Hp.
Qed.

Lemma cosmetic_steady f : cosmetic f -> steady f.
Proof. intros H p. destruct (H p) as (H1 & H2 & H3 & _). repeat split; assumption. Qed.

Lemma lazyOf_map (f : PdfPage -> PdfPage) ps tis cis fr :
  cosmetic f -> lazyOf ps tis cis fr -> lazyOf (map f ps) tis cis fr.
Proof.
  intros Hf (Hn & Hp & Hc & Ht).
  pose proof (cosmetic_steady f Hf) as Hs.
  split; [rewrite map_inst_steady by exact Hs; exact Hn|].
  split; [|split].
  - clear Hn Hc Ht.
    induction Hp as [|p ps (H1 & H2 & H3) _ IH]; simpl; constructor; [|exact IH].
    destruct (Hf p) as (-> & -> & -> & Hu). split; [exact H1|].
    split; [exact H2|]. intros Hv. apply Hu, H3, Hv.
  - eapply Forall_impl; [exact Hc|]. intros i (H1 & H2).
    split; [exact H1 | apply inView_map; assumption].
  - eapply Forall_impl; [exact Ht|]. intros i (H1 & H2).
    split; [exact H1 | apply inView_map; assumption].
Qed.

Lemma lazyOf_take (n : nat) ps tis cis fr :
  lazyOf ps tis cis fr -> lazyOf (take n ps) tis cis fr.
Proof.
  intros (Hn & Hp & Hc & Ht). split.
  - change (map inst (take n ps)) with (inst <$> take n ps).
    rewrite fmap_take. apply (sublist_NoDup _ (inst <$> ps));
      [exact Hn | apply sublist_take].
  - split; [apply Forall_take, Hp|]. split.
    + eapply Forall_impl; [exact Hc|]. intros i (H1 & H2).
      split; [exact H1 | apply Forall_take, H2].
    + eapply Forall_impl; [exact Ht|]. intros i (H1 & H2).
      split; [exact H1 | apply Forall_take, H2].
Qed.

(** With distinct instances, the instance of a page in view is in
    view. *)
Lemma inView_page (ps : list PdfPage) (k : nat) (p : PdfPage) :
  NoDup (map inst ps) -> ps !! k = Some p -> isVisible p = true ->
  inView ps (inst p).
Proof.
  intros Hn Hk Hv. apply Forall_lookup. intros j q Hj E.
  assert (j = k).
  { apply (NoDup_lookup (inst <$> ps) j k (inst p) Hn).
    - rewrite list_lookup_fmap, Hj. simpl. congruence.
    - rewrite list_lookup_fmap, Hk. reflexivity. }
  subst j. congruence.
Qed.

Lemma lazyOf_calls ps tis cis fr (new : list nat) :
  Forall (fun i => exists k p, ps !! k = Some p /\ isVisible p = true
                               /\ inst p = i) new ->
  lazyOf ps tis cis fr -> lazyOf ps tis (cis ++ new) fr.
Proof.
  intros Hnew (Hn & Hp & Hc & Ht).
  split; [exact Hn|]. split; [exact Hp|]. split; [|exact Ht].
  apply Forall_app. split; [exact Hc|].
  eapply Forall_impl; [exact Hnew|]. intros i (k & p & Hk & Hv & <-).
  split.
  - rewrite Forall_lookup in Hp. apply (Hp k p Hk).
  - apply (inView_page ps k p Hn Hk Hv).
Qed.

Lemma mountPage_untouched i doc sc :
  inst (mountPage i doc sc) = i /\ untouched (mountPage i doc sc).
Proof. split; [reflexivity | repeat split]. Qed.

Lemma lazyOf_mount ps tis cis fr (m : nat) doc sc :
  lazyOf ps tis cis fr ->
  lazyOf (ps ++ map (fun i => mountPage (fr + i) doc sc) (seq 0 m))
    tis cis (fr + m).
Proof.
  intros (Hn & Hp & Hc & Ht).
  assert (Hm : Forall (fun p => fr <= inst p < fr + m
                                /\ observing p = negb (isVisible p)
                                /\ untouched p)
                 (map (fun i => mountPage (fr + i) doc sc) (seq 0 m))).
  { apply Forall_forall. intros p Hp'.
    apply list_elem_of_fmap in Hp' as (i & -> & Hi).
    apply elem_of_seq in Hi. split; [simpl; lia | repeat split]. }
  assert (Hold : forall i, i < fr -> inView ps i ->
                   inView (ps ++ map (fun i => mountPage (fr + i) doc sc) (seq 0 m)) i).
  { intros i Hi Hv. apply Forall_app. split; [exact Hv|].
    eapply Forall_impl; [exact Hm|]. intros p (H1 & _) E. lia. }
  split; [|split; [|split]].
  - rewrite map_app. apply NoDup_app. split; [exact Hn|]. split.
    + intros x Hx Hx'.
      apply list_elem_of_fmap in Hx as (p & -> & Hp1).
      apply list_elem_of_fmap in Hx' as (q & E & Hq).
      rewrite Forall_forall in Hp, Hm.
      destruct (Hp p Hp1) as (H1 & _). destruct (Hm q Hq) as (H2 & _). lia.
    + rewrite map_map. simpl.
      assert (Hinj : Inj eq eq (fun i => fr + i)) by (intros a b E; lia).
      apply (NoDup_fmap_2 (fun i => fr + i)), NoDup_seq.
  - apply Forall_app. split.
    + eapply Forall_impl; [exact Hp|]. intros p (H1 & H2). split; [lia | exact H2].
    + eapply Forall_impl; [exact Hm|]. intros p (H1 & H2 & H3).
      split; [lia|]. split; [exact H2 | intros _; exact H3].
  - eapply Forall_impl; [exact Hc|]. intros i (H1 & H2).
    split; [lia | apply Hold; assumption].
  - eapply Forall_impl; [exact Ht|]. intros i (H1 & H2).
    split; [lia | apply Hold; assumption].
Qed.

Lemma alter_cancel_insts (t : nat) (ts : list RenderTask) :
  map taskInst (alter cancel t ts) = map taskInst ts.
Proof.
  revert t. induction ts as [|T ts IH]; intros [|t]; simpl; try reflexivity.
  - unfold cancel. destruct (taskStatus T); reflexivity.
  - f_equal. apply IH.
Qed.

Lemma cancelRef_insts (r : option nat) (ts : list RenderTask) :
  map taskInst (cancelRef r ts) = map taskInst ts.
Proof. destruct r; [apply alter_cancel_insts | reflexivity]. Qed.

(** What a run of the effect adds: no task, and at most an activation
    for this page, which is then in view. *)
Lemma runEffect_insts doc sc p ts cs :
  map taskInst (runEffect doc sc p ts cs).1 = map taskInst ts
  /\ exists new, map callInst (runEffect doc sc p ts cs).2
                 = map callInst cs ++ new
       /\ Forall (fun i => isVisible p = true /\ inst p = i) new.
Proof.
  unfold runEffect, effectBody, effectCleanup.
  destruct doc as [d|]; [destruct (isVisible p) eqn:Hv;
                         [destruct (renderTaskRef p) as [t|] eqn:Hr|]|];
    cbn [fst snd cancelRef option_list].
  - split; [rewrite !alter_cancel_insts; reflexivity|].
    exists [inst p]. rewrite map_app. split; [reflexivity|].
    repeat constructor.
  - split; [reflexivity|].
    exists [inst p]. rewrite map_app. split; [reflexivity|].
    repeat constructor.
  - split; [apply cancelRef_insts|].
    exists []. rewrite !app_nil_r. split; [reflexivity | constructor].
  - split; [apply cancelRef_insts|].
    exists []. rewrite !app_nil_r. split; [reflexivity | constructor].
Qed.

Lemma rerender_insts doc sc p ts cs :
  map taskInst (rerender doc sc p ts cs).1.2 = map taskInst ts
  /\ exists new, map callInst (rerender doc sc p ts cs).2
                 = map callInst cs ++ new
       /\ Forall (fun i => isVisible p = true /\ inst p = i) new.
Proof.
  unfold rerender. destruct (_ && _).
  - split; [reflexivity|]. exists []. rewrite app_nil_r.
    split; [reflexivity | constructor].
  - pose proof (runEffect_insts doc sc p ts cs) as H.
    destruct (runEffect doc sc p ts cs) as [ts' cs']. exact H.
Qed.

Lemma rerenderAll_insts doc sc ps ts cs :
  map taskInst (rerenderAll doc sc ps ts cs).1.2 = map taskInst ts
  /\ exists new, map callInst (rerenderAll doc sc ps ts cs).2
                 = map callInst cs ++ new
       /\ Forall (fun i => exists k p, ps !! k = Some p
                             /\ isVisible p = true /\ inst p = i) new.
Proof.
  revert ts cs. induction ps as [|p ps IH]; intros ts cs; simpl.
  - split; [reflexivity|]. exists []. rewrite app_nil_r.
    split; [reflexivity | constructor].
  - pose proof (rerender_insts doc sc p ts cs) as (Ht & new1 & Hc & Hn).
    destruct (rerender doc sc p ts cs) as [[p' ts1] cs1]. simpl in Ht, Hc.
    specialize (IH ts1 cs1). destruct IH as (Ht2 & new2 & Hc2 & Hn2).
    destruct (rerenderAll doc sc ps ts1 cs1) as [[ps' ts2] cs2].
    simpl in *. split; [congruence|].
    exists (new1 ++ new2). split; [rewrite Hc2, Hc, app_assoc; reflexivity|].
    apply Forall_app. split.
    + eapply Forall_impl; [exact Hn|]. intros i (Hv & E).
      exists 0, p. repeat split; assumption.
    + eapply Forall_impl; [exact Hn2|]. intros i (k & q & Hk & Hv & E).
      exists (S k), q. repeat split; assumption.
Qed.

Lemma unmountAll_insts (ps : list PdfPage) (ts : list RenderTask) :
  map taskInst (unmountAll ps ts) = map taskInst ts.
Proof.
  unfold unmountAll. revert ts. induction ps as [|p ps IH]; intros ts; simpl;
    [reflexivity|].
  rewrite IH. apply cancelRef_insts.
Qed.

Lemma cosmetic_seen doc sc : cosmetic (seen doc sc).
Proof.
  intros p. unfold seen. destruct (_ && _); repeat split; try tauto;
    destruct H as (H1 & H2 & H3 & H4); assumption.
Qed.

(** The pages left alone by a re-render of all pages. *)
Lemma lazyOf_rerenderAll doc sc ps ts cs fr :
  lazyOf ps (map taskInst ts) (map callInst cs) fr ->
  lazyOf (rerenderAll doc sc ps ts cs).1.1
    (map taskInst (rerenderAll doc sc ps ts cs).1.2)
    (map callInst (rerenderAll doc sc ps ts cs).2) fr.
Proof.
  intros H.
  destruct (rerenderAll_insts doc sc ps ts cs) as (-> & new & -> & Hn).
  rewrite rerenderAll_pages.
  apply lazyOf_map; [apply cosmetic_seen|].
  apply lazyOf_calls; assumption.
Qed.

Lemma reconcile_lazy (w : World) : lazy w -> lazy (reconcile w).
Proof.
  unfold lazy. intros H.
  pose proof (lazyOf_rerenderAll (pdfDoc (state w)) (scale (state w))
                (take (renderedPages w) (pages w))
                (unmountAll (drop (renderedPages w) (pages w)) (tasks w))
                (calls w) (fresh w)) as Hr.
  unfold reconcile.
  destruct (rerenderAll _ _ _ _ _) as [[kept ts1] cs1].
  cbn [pages tasks calls fresh]. simpl in Hr.
  apply lazyOf_mount, Hr.
  rewrite unmountAll_insts. apply lazyOf_take, H.
Qed.

Lemma locationEffect_lazy (before w : World) :
  lazy w -> lazy (locationEffect before w).
Proof.
  intros H. unfold locationEffect. destruct (_ && _); [exact H|].
  unfold jumpToLocation. destruct (Location.targetPage _ _ _); [|exact H].
  destruct (pages w !! _); exact H.
Qed.

Lemma loadEffect_lazy (w : World) : lazy w -> lazy (loadEffect w).
Proof.
  intros H. unfold loadEffect. destruct (fileData (props w)); [exact H|].
  destruct (isPdf w && negb (workerReady (state w))); [exact H|].
  destruct (isPdf w); exact H.
Qed.

Lemma commit_lazy (before w : World) :
  lazy w -> lazy (locationEffect before (reconcile w)).
Proof. intros H. apply locationEffect_lazy, reconcile_lazy, H. Qed.

Lemma map_inst_updateInst i f ps :
  steady f -> map inst (updateInst i f ps) = map inst ps.
Proof.
  intros Hf. unfold updateInst. rewrite map_map. apply map_ext.
  intros p. destruct (Nat.eqb (inst p) i); [apply Hf | reflexivity].
Qed.

Lemma inView_updateInst i f ps j :
  steady f -> inView ps j -> inView (updateInst i f ps) j.
Proof.
  intros Hf H. unfold inView, updateInst in *.
  induction H as [|p ps Hp _ IH]; simpl; constructor; [|exact IH].
  destruct (Nat.eqb (inst p) i); [|exact Hp].
  destruct (Hf p) as (-> & -> & _). exact Hp.
Qed.

(** Updating the pages of an instance that is in view. *)
Lemma lazyOf_updateInst i f ps tis cis fr :
  steady f -> inView ps i ->
  lazyOf ps tis cis fr -> lazyOf (updateInst i f ps) tis cis fr.
Proof.
  intros Hf Hi (Hn & Hp & Hc & Ht).
  split; [rewrite map_inst_updateInst by exact Hf; exact Hn|].
  split; [|split].
  - unfold updateInst, inView in *.
    clear Hn Hc Ht.
    induction Hp as [|p ps (H1 & H2 & H3) _ IH]; simpl; constructor.
    + inversion Hi as [|? ? Hpi _]; subst.
      destruct (Nat.eqb_spec (inst p) i) as [E|E];
        [|split; [|split]; assumption].
      destruct (Hf p) as (-> & -> & ->). split; [exact H1|].
      split; [exact H2|].
      intros Hv. rewrite (Hpi E) in Hv. discriminate.
    + apply IH. inversion Hi; assumption.
  - eapply Forall_impl; [exact Hc|]. intros j (H1 & H2).
    split; [exact H1 | apply inView_updateInst; assumption].
  - eapply Forall_impl; [exact Ht|]. intros j (H1 & H2).
    split; [exact H1 | apply inView_updateInst; assumption].
Qed.

Lemma map_insert_same {A B} (f : A -> B) (l : list A) (k : nat) (x y : A) :
  l !! k = Some x -> f y = f x -> map f (<[k := y]> l) = map f l.
Proof.
  intros Hk E. change (f <$> <[k := y]> l = f <$> l).
  rewrite list_fmap_insert, E. apply list_insert_id.
  rewrite list_lookup_fmap, Hk. reflexivity.
Qed.

Lemma step_lazy (e : Event) (w : World) : lazy w -> lazy (step e w).
Proof.
  intros Hw.
  destruct e as [ |data mime|n|name| |delta|k b|c h|t|ref]; unfold step.
  - destruct (workerReady (state w)); [exact Hw|].
    apply commit_lazy, loadEffect_lazy, Hw.
  - destruct (_ && _); [exact Hw|].
    apply commit_lazy, loadEffect_lazy, commit_lazy, Hw.
  - destruct (pendingLoads w); [exact Hw|].
    apply commit_lazy. unfold lazy in *. cbn [pages tasks calls fresh withFresh
      withPendingLoads withState].
    apply (lazyOf_fresh _ _ _ (fresh w)); [lia | exact Hw].
  - destruct (pendingLoads w); [exact Hw|]. apply commit_lazy, Hw.
  - destruct (error (state w)); [exact Hw|].
    destruct (isPdf w); [exact Hw | apply commit_lazy, Hw].
  - destruct (error (state w)); [exact Hw|].
    cbn [state pages tasks calls withState].
    pose proof (lazyOf_rerenderAll (pdfDoc (state w))
                  (scale (setScale (Zoom.zoom delta) (state w)))
                  (pages w) (tasks w) (calls w) (fresh w) Hw) as H.
    cbn [pdfDoc setScale].
    destruct (rerenderAll _ _ _ _ _) as [[ps ts] cs]. exact H.
  - unfold intersects. destruct (pages w !! k) as [p|] eqn:Hk; [|exact Hw].
    destruct (observing p && b); [|exact Hw].
    set (p' := disconnect (setIsVisible true p)).
    destruct Hw as (Hn & Hp & Hc & Ht).
    assert (Hn' : NoDup (map inst (<[k := p']> (pages w)))).
    { rewrite (map_insert_same inst (pages w) k p p' Hk eq_refl). exact Hn. }
    assert (Hv' : forall i, inView (pages w) i ->
                    inView (<[k := p']> (pages w)) i).
    { intros i Hi. apply Forall_insert; [exact Hi | intros _; reflexivity]. }
    assert (Hbase : lazyOf (<[k := p']> (pages w)) (map taskInst (tasks w))
                      (map callInst (calls w)) (fresh w)).
    { split; [exact Hn'|]. split; [|split].
      - apply Forall_insert; [exact Hp|].
        rewrite Forall_lookup in Hp. destruct (Hp k p Hk) as (H1 & _).
        split; [exact H1|]. split; [reflexivity | discriminate].
      - eapply Forall_impl; [exact Hc|]. intros i (H1 & H2).
        split; [exact H1 | apply Hv', H2].
      - eapply Forall_impl; [exact Ht|]. intros i (H1 & H2).
        split; [exact H1 | apply Hv', H2]. }
    destruct (isVisible p); [exact Hbase|].
    pose proof (runEffect_insts (pdfDoc (state w)) (scale (state w)) p'
                  (tasks w) (calls w)) as (Et & new & Ec & Hnew).
    destruct (runEffect _ _ _ _ _) as [ts cs]. simpl in Et, Ec.
    unfold lazy. cbn [pages tasks calls fresh withCalls withTasks withPages].
    rewrite Et, Ec. apply lazyOf_calls; [|exact Hbase].
    eapply Forall_impl; [exact Hnew|]. intros i (Hv & E).
    exists k, p'. split; [|split; assumption].
    apply list_lookup_insert_eq. apply lookup_lt_Some in Hk. exact Hk.
  - destruct (calls w !! c) as [call|] eqn:Hcall; [|exact Hw].
    destruct (callAt call) eqn:Hat; try exact Hw.
    + unfold lazy in *. cbn [pages tasks calls fresh withCalls].
      erewrite map_insert_same; [exact Hw | exact Hcall | reflexivity].
    + assert (Hin : callInst call < fresh w /\ inView (pages w) (callInst call)).
      { destruct Hw as (_ & _ & Hc & _). rewrite Forall_lookup in Hc.
        apply (Hc c). change (map callInst (calls w)) with (callInst <$> calls w).
        rewrite list_lookup_fmap, Hcall. reflexivity. }
      destruct Hin as (Hlt & Hin).
      unfold gotPage, lazy in *.
      destruct (isMounted _ _); cbn [pages tasks calls fresh];
        (erewrite (map_insert_same callInst); [| exact Hcall | reflexivity]).
      * rewrite map_app. cbn [map taskInst].
        assert (H1 : lazyOf
                       (updateInst (callInst call)
                          (fun p => setRenderTaskRef (Some (length (tasks w)))
                                      (setCanvas [] p))
                          (updateInst (callInst call) (setPageHeight (Some h))
                             (pages w)))
                       (map taskInst (tasks w)) (map callInst (calls w))
                       (fresh w)).
        { apply lazyOf_updateInst; [intros p; repeat split | |].
          - apply inView_updateInst; [intros p; repeat split | exact Hin].
          - apply lazyOf_updateInst;
              [intros p; repeat split | exact Hin | exact Hw]. }
        destruct H1 as (A1 & A2 & A3 & A4).
        split; [exact A1|]. split; [exact A2|]. split; [exact A3|].
        apply Forall_app. split; [exact A4|].
        constructor; [|constructor]. split; [exact Hlt|].
        apply inView_updateInst; [intros p; repeat split|].
        apply inView_updateInst; [intros p; repeat split | exact Hin].
      * apply lazyOf_updateInst;
          [intros p; repeat split | exact Hin | exact Hw].
  - unfold taskCompletes. destruct (tasks w !! t) as [T|] eqn:HT; [|exact Hw].
    destruct (taskStatus T); try exact Hw.
    assert (Hin : inView (pages w) (taskInst T)).
    { destruct Hw as (_ & _ & _ & Ht). rewrite Forall_lookup in Ht.
      apply (Ht t). change (map taskInst (tasks w)) with (taskInst <$> tasks w).
      rewrite list_lookup_fmap, HT. reflexivity. }
    unfold lazy in *. cbn [pages tasks calls fresh withPages withTasks].
    erewrite (map_insert_same taskInst); [| exact HT | reflexivity].
    apply lazyOf_updateInst;
      [intros p; repeat split | exact Hin | exact Hw].
  - apply locationEffect_lazy. exact Hw.
Qed.

Lemma reachable_lazy (data : jsstring) (mime : string) (es : list Event) :
  lazy (run es (mount data mime)).
Proof.
  assert (H0 : lazy (mount data mime)).
  { unfold mount, afterLoadEffect. apply commit_lazy, loadEffect_lazy.
    unfold lazy, lazyOf. simpl. repeat split; constructor. }
  revert H0. generalize (mount data mime).
  induction es as [|e es IH]; intros w Hw; simpl; [exact Hw|].
  apply IH, step_lazy, Hw.
Qed.

(** X23: pages are rendered lazily.  In every state a mounted viewer
    reaches, a page that has never been reported in view has no height,
    is not rendered, holds no render task and has nothing painted on
    its canvas; no activation of [renderPage] has ever been started for
    it, so [getPage] was never asked for it, and no render task was ever
    created for it. *)
Theorem pages_out_of_view_untouched (data : jsstring) (mime : string)
  (es : list Event) (k : nat) (p : PdfPage) :
  let w := run es (mount data mime) in
  pages w !! k = Some p -> isVisible p = false ->
  pageHeight p = None /\ isRendered p = false
  /\ renderTaskRef p = None /\ canvas p = []
  /\ Forall (fun call => callInst call <> inst p) (calls w)
  /\ Forall (fun T => taskInst T <> inst p) (tasks w).
Proof.
  intros w Hk Hv.
  destruct (reachable_lazy data mime es) as (_ & Hp & Hc & Ht). fold w in Hp, Hc, Ht.
  rewrite Forall_lookup in Hp. destruct (Hp k p Hk) as (_ & _ & Hu).
  destruct (Hu Hv) as (U1 & U2 & U3 & U4).
  split; [exact U1|]. split; [exact U2|]. split; [exact U3|]. split; [exact U4|].
  assert (Hout : forall i, inView (pages w) i -> i <> inst p).
  { intros i Hi E. unfold inView in Hi. rewrite Forall_lookup in Hi.
    rewrite (Hi k p Hk (eq_sym E)) in Hv. discriminate. }
  split.
  - apply Forall_forall. intros call Hin. apply Hout.
    rewrite Forall_forall in Hc.
    apply (Hc (callInst call)), list_elem_of_fmap. exists call. split; [reflexivity | exact Hin].
  - apply Forall_forall. intros T Hin. apply Hout.
    rewrite Forall_forall in Ht.
    apply (Ht (taskInst T)), list_elem_of_fmap. exists T. split; [reflexivity | exact Hin].
Qed.

Lemma pages_out_of_view_untouched_witness :
  let w := run readingTheStart (mount (lit "JVBERi0xLjQK") "application/pdf") in
  exists p,
    pages w !! 4 = Some p
    /\ pageHeight p = None /\ isRendered p = false
    /\ renderTaskRef p = None /\ canvas p = []
    /\ Forall (fun call => callInst call <> inst p) (calls w)
    /\ Forall (fun T => taskInst T <> inst p) (tasks w).
Proof.
  intros w. destruct (pages w !! 4) as [p|] eqn:Hk;
    [|vm_compute in Hk; discriminate].
  exists p. split; [reflexivity|].
  apply (pages_out_of_view_untouched (lit "JVBERi0xLjQK") "application/pdf"
           readingTheStart 4 p Hk).
  vm_compute in Hk. injection Hk as <-. reflexivity.
Defined.

(** X24: the first time a page is reported in view exactly one render
    starts for it.  In every state a mounted viewer reaches, for a page
    that was not yet in view, the report makes it visible and
    disconnects its observer, starts one activation of [renderPage] at
    the current scale that goes straight to [getPage], and touches no
    task; a report that the page is not intersecting changes nothing,
    and once the page is in view any further report changes nothing. *)
Theorem first_view_starts_one_render (data : jsstring) (mime : string)
  (es : list Event) (k : nat) (p : PdfPage) :
  let w := run es (mount data mime) in
  pages w !! k = Some p -> isVisible p = false ->
  let w' := step (Intersects k true) w in
  pages w' = <[k := disconnect (setIsVisible true p)]> (pages w)
  /\ calls w'
     = calls w ++ [mkRenderCall (inst p) (scale (state w)) AwaitGetPage]
  /\ tasks w' = tasks w
  /\ step (Intersects k false) w = w
  /\ forall b, step (Intersects k b) w' = w'.
Proof.
  intros w Hk Hv w'.
  destruct (reachable_lazy data mime es) as (_ & Hp & _). fold w in Hp.
  rewrite Forall_lookup in Hp. destruct (Hp k p Hk) as (_ & Ho & Hu).
  destruct (Hu Hv) as (_ & _ & Hr & _).
  rewrite Hv in Ho. simpl in Ho.
  assert (Hdoc : exists d, pdfDoc (state w) = Some d).
  { pose proof (InvariantFacts.reachable_consistent data mime es) as Hc.
    fold w in Hc. unfold consistent, renderedPages in Hc.
    apply lookup_lt_Some in Hk.
    destruct (error (state w)); [lia|]. destruct (isPdf w); [|lia].
    destruct (pdfDoc (state w)) as [d|]; [exists d; reflexivity | lia]. }
  destruct Hdoc as (d & Hd).
  assert (Ew : w' = withCalls
                      (calls w ++ [mkRenderCall (inst p) (scale (state w))
                                     AwaitGetPage])
                      (withTasks (tasks w)
                         (withPages (<[k := disconnect (setIsVisible true p)]>
                                       (pages w)) w))).
  { unfold w', step, intersects. rewrite Hk, Ho, Hv. cbn [andb].
    unfold runEffect, effectCleanup, effectBody. rewrite Hd.
    cbn [isVisible renderTaskRef disconnect setIsVisible inst]. rewrite Hr.
    reflexivity. }
  rewrite Ew. cbn [pages calls tasks withCalls withTasks withPages].
  split; [reflexivity|]. split; [reflexivity|]. split; [reflexivity|].
  split.
  - unfold step, intersects. rewrite Hk, Ho. reflexivity.
  - intros b. unfold step, intersects.
    cbn [pages withCalls withTasks withPages].
    rewrite list_lookup_insert_eq by (apply lookup_lt_Some in Hk; exact Hk).
    reflexivity.
Qed.

Lemma first_view_starts_one_render_witness :
  let w := run readingTheStart (mount (lit "JVBERi0xLjQK") "application/pdf") in
  exists p,
    pages w !! 4 = Some p
    /\ calls (step (Intersects 4 true) w)
       = calls w ++ [mkRenderCall (inst p) (scale (state w)) AwaitGetPage]
    /\ tasks (step (Intersects 4 true) w) = tasks w
    /\ step (Intersects 4 false) w = w.
Proof.
  intros w. destruct (pages w !! 4) as [p|] eqn:Hk;
    [|vm_compute in Hk; discriminate].
  exists p. split; [reflexivity|].
  destruct (first_view_starts_one_render (lit "JVBERi0xLjQK") "application/pdf"
              readingTheStart 4 p Hk) as (_ & H2 & H3 & H4 & _).
  - vm_compute in Hk. injection Hk as <-. reflexivity.
  - split; [exact H2|]. split; [exact H3 | exact H4].
Defined.

End LazyFacts.

(* ===================================================================== *)
(** ** From the uploaded file to the decoder *)
(* ===================================================================== *)

Module Base64Facts.
Import JsString Upload Base64.
Local Open Scope N_scope.

Lemma list_ind3 {A} (P : list A -> Prop) :
  P [] -> (forall a, P [a]) -> (forall a b, P [a; b]) ->
  (forall a b c r, P r -> P (a :: b :: c :: r)) ->
  forall l, P l.
Proof.
  intros H0 H1 H2 H3.
  assert (H : forall l, P l /\ (forall a, P (a :: l)) /\ (forall a b, P (a :: b :: l))).
  { induction l as [|x l (IH0 & IH1 & IH2)].
    - repeat split; [exact H0 | exact H1 | exact H2].
    - split; [apply IH1|]. split; [intros a; apply IH2|].
      intros a b. apply H3, IH0. }
  intros l. apply H.
Qed.

Lemma below_64 (n : N) :
  n < 64 -> In n (map N.of_nat (seq 0 64)).
Proof.
  intros H. apply in_map_iff. exists (N.to_nat n).
  split; [apply N2Nat.id|]. apply in_seq. lia.
Qed.

Lemma charOf_valueOf (n : N) : n < 64 -> valueOf (charOf n) = Some n.
Proof.
  intros H.
  assert (Hall : forallb (fun n => match valueOf (charOf n) with
                                   | Some m => m =? n
                                   | None => false
                                   end) (map N.of_nat (seq 0 64)) = true)
    by (vm_compute; reflexivity).
  rewrite forallb_forall in Hall. specialize (Hall n (below_64 n H)).
  destruct (valueOf (charOf n)) as [m|]; [|discriminate].
  apply N.eqb_eq in Hall. congruence.
Qed.

Lemma charOf_plain (n : N) : plain (charOf n) = true.
Proof.
  destruct (N.ltb_spec n 64) as [H|H].
  - assert (Hall : forallb (fun n => plain (charOf n))
                     (map N.of_nat (seq 0 64)) = true)
      by (vm_compute; reflexivity).
    rewrite forallb_forall in Hall. exact (Hall n (below_64 n H)).
  - unfold charOf.
    destruct (N.ltb_spec n 26); [lia|]. destruct (N.ltb_spec n 52); [lia|].
    destruct (N.ltb_spec n 62); [lia|].
    destruct (N.eqb_spec n 62); [lia | reflexivity].
Qed.

Lemma plain_spec (c : N) :
  plain c = true ->
  isWhiteSpace c = false /\ isAsciiWhiteSpace c = false
  /\ (c =? 61) = false /\ (c =? 44) = false.
Proof.
  unfold plain. rewrite !andb_true_iff, !negb_true_iff. tauto.
Qed.

Lemma split_low (x y k : N) :
  k <> 0 -> y < k -> (x * k + y) / k = x /\ (x * k + y) mod k = y.
Proof.
  intros Hk Hy. split.
  - rewrite N.div_add_l by exact Hk. rewrite (N.div_small y k Hy). lia.
  - rewrite N.add_comm, N.Div0.mod_add. apply N.mod_small, Hy.
Qed.

(** Three bytes from the four sextets made of them. *)
Lemma chunk (a b c : N) :
  a < 256 -> b < 256 -> c < 256 ->
  (a / 4) * 4 + ((a mod 4) * 16 + b / 16) / 16 = a
  /\ (((a mod 4) * 16 + b / 16) mod 16) * 16
     + ((b mod 16) * 4 + c / 64) / 4 = b
  /\ (((b mod 16) * 4 + c / 64) mod 4) * 64 + c mod 64 = c.
Proof.
  intros Ha Hb Hc.
  assert (Hb16 : b / 16 < 16) by (apply N.Div0.div_lt_upper_bound; lia).
  assert (Hc64 : c / 64 < 4) by (apply N.Div0.div_lt_upper_bound; lia).
  destruct (split_low (a mod 4) (b / 16) 16 ltac:(lia) Hb16) as (-> & ->).
  destruct (split_low (b mod 16) (c / 64) 4 ltac:(lia) Hc64) as (-> & ->).
  pose proof (N.div_mod a 4 ltac:(lia)).
  pose proof (N.div_mod b 16 ltac:(lia)).
  pose proof (N.div_mod c 64 ltac:(lia)).
  lia.
Qed.

Lemma sextet_bounds (a b c : N) :
  a < 256 -> b < 256 -> c < 256 ->
  a / 4 < 64 /\ (a mod 4) * 16 + b / 16 < 64
  /\ (b mod 16) * 4 + c / 64 < 64 /\ c mod 64 < 64.
Proof.
  intros Ha Hb Hc.
  assert (a / 4 < 64) by (apply N.Div0.div_lt_upper_bound; lia).
  assert (b / 16 < 16) by (apply N.Div0.div_lt_upper_bound; lia).
  assert (c / 64 < 4) by (apply N.Div0.div_lt_upper_bound; lia).
  pose proof (N.mod_lt a 4 ltac:(lia)). pose proof (N.mod_lt b 16 ltac:(lia)).
  pose proof (N.mod_lt c 64 ltac:(lia)). lia.
Qed.

(** The encoding is the characters of sextets that decode to the bytes,
    then the padding, and its length is a multiple of four. *)
Lemma encode_shape (bytes : list N) :
  Forall (fun b => b < 256) bytes ->
  exists v p,
    base64Encode bytes = map charOf v ++ p
    /\ Forall (fun n => n < 64) v
    /\ (p = [] \/ p = [61] \/ p = [61; 61])
    /\ (length (map charOf v ++ p) mod 4 = 0)%nat
    /\ decodeSextets v = Some bytes.
Proof.
  induction bytes as [|a|a b|a b c r IH] using list_ind3; intros Hb.
  - exists [], []. repeat split; [constructor | left; reflexivity].
  - inversion Hb as [|? ? Ha _]; subst.
    destruct (sextet_bounds a 0 0 Ha ltac:(lia) ltac:(lia)) as (B1 & B2 & _).
    destruct (chunk a 0 0 Ha ltac:(lia) ltac:(lia)) as (C1 & _).
    change (0 / 16) with 0 in *. rewrite N.add_0_r in *.
    exists [a / 4; (a mod 4) * 16], [61; 61].
    split; [reflexivity|]. split; [repeat constructor; assumption|].
    split; [right; right; reflexivity|]. split; [reflexivity|].
    simpl. rewrite C1. reflexivity.
  - inversion Hb as [|? ? Ha Hb']; subst. inversion Hb' as [|? ? Hb2 _]; subst.
    destruct (sextet_bounds a b 0 Ha Hb2 ltac:(lia)) as (B1 & B2 & B3 & _).
    destruct (chunk a b 0 Ha Hb2 ltac:(lia)) as (C1 & C2 & _).
    change (0 / 64) with 0 in *. rewrite N.add_0_r in *.
    exists [a / 4; (a mod 4) * 16 + b / 16; (b mod 16) * 4], [61].
    split; [reflexivity|]. split; [repeat constructor; assumption|].
    split; [right; left; reflexivity|]. split; [reflexivity|].
    simpl. rewrite C1, C2. reflexivity.
  - inversion Hb as [|? ? Ha Hb1]; subst. inversion Hb1 as [|? ? Hb2 Hb3]; subst.
    inversion Hb3 as [|? ? Hc Hr]; subst.
    destruct (IH Hr) as (v & p & E & Hv & Hp & Hl & Hd).
    destruct (sextet_bounds a b c Ha Hb2 Hc) as (B1 & B2 & B3 & B4).
    destruct (chunk a b c Ha Hb2 Hc) as (C1 & C2 & C3).
    exists ([a / 4; (a mod 4) * 16 + b / 16; (b mod 16) * 4 + c / 64; c mod 64]
            ++ v), p.
    split; [simpl; rewrite E; reflexivity|].
    split; [repeat constructor; assumption|].
    split; [exact Hp|]. split.
    + change (length (map charOf ([a / 4; (a mod 4) * 16 + b / 16;
                                   (b mod 16) * 4 + c / 64; c mod 64] ++ v) ++ p))
        with (4 + length (map charOf v ++ p))%nat.
      transitivity (length (map charOf v ++ p) mod 4)%nat; [|exact Hl].
      replace (4 + length (map charOf v ++ p))%nat
        with (length (map charOf v ++ p) + 1 * 4)%nat by lia.
      apply Nat.Div0.mod_add.
    + cbn [app decodeSextets]. rewrite Hd, C1, C2, C3. reflexivity.
Qed.

Lemma filter_all {A} (f : A -> bool) (l : list A) :
  Forall (fun x => f x = true) l -> List.filter f l = l.
Proof.
  induction 1 as [|x l Hx _ IH]; simpl; [reflexivity|].
  rewrite Hx, IH. reflexivity.
Qed.

Lemma sextets_chars (v : list N) :
  Forall (fun n => n < 64) v -> sextets (map charOf v) = Some v.
Proof.
  induction 1 as [|n v Hn _ IH]; simpl; [reflexivity|].
  rewrite (charOf_valueOf n Hn), IH. reflexivity.
Qed.

Lemma dropLastEquals_chars (v : list N) :
  dropLastEquals (map charOf v) = map charOf v.
Proof.
  unfold dropLastEquals. rewrite <- map_rev.
  destruct (rev v) as [|n r]; [reflexivity|]. simpl.
  destruct (plain_spec _ (charOf_plain n)) as (_ & _ & -> & _). reflexivity.
Qed.

Lemma dropLastEquals_snoc (l : jsstring) : dropLastEquals (l ++ [61]) = l.
Proof.
  unfold dropLastEquals. rewrite rev_app_distr. simpl. apply rev_involutive.
Qed.

Lemma encode_plain (bytes : list N) :
  Forall (fun c => plain c = true \/ c = 61) (base64Encode bytes).
Proof.
  induction bytes as [|a|a b|a b c r IH] using list_ind3; simpl;
    repeat (constructor; [first [left; apply charOf_plain | right; reflexivity]|]);
    first [constructor | exact IH].
Qed.

(** [atob] gives back the bytes that were encoded. *)
Lemma atob_encode (bytes : list N) :
  Forall (fun b => b < 256) bytes -> atob (base64Encode bytes) = Some bytes.
Proof.
  intros Hb. unfold atob.
  rewrite filter_all.
  2:{ eapply Forall_impl; [apply encode_plain|]. intros c [H | ->]; [|reflexivity].
      destruct (plain_spec c H) as (_ & -> & _). reflexivity. }
  destruct (encode_shape bytes Hb) as (v & p & E & Hv & Hp & Hl & Hd).
  rewrite E. unfold stripPadding. rewrite Hl. cbn [Nat.eqb].
  assert (Hs : dropLastEquals (dropLastEquals (map charOf v ++ p))
               = map charOf v).
  { destruct Hp as [-> | [-> | ->]].
    - rewrite app_nil_r, !dropLastEquals_chars. reflexivity.
    - rewrite dropLastEquals_snoc. apply dropLastEquals_chars.
    - change (map charOf v ++ [61; 61]) with (map charOf v ++ [61] ++ [61]).
      rewrite app_assoc, !dropLastEquals_snoc. reflexivity. }
  rewrite Hs, (sextets_chars v Hv). exact Hd.
Qed.

Lemma afterComma_app (pre e : jsstring) :
  Forall (fun c => (c =? 44) = false) pre ->
  afterComma (pre ++ 44 :: e) = Some e.
Proof.
  induction 1 as [|c pre Hc _ IH]; simpl; [reflexivity|].
  rewrite Hc. exact IH.
Qed.

Lemma beforeComma_all (e : jsstring) :
  Forall (fun c => (c =? 44) = false) e -> beforeComma e = e.
Proof.
  induction 1 as [|c e Hc _ IH]; simpl; [reflexivity|].
  rewrite Hc, IH. reflexivity.
Qed.

(** X25: the bytes of an uploaded file reach the decoder unchanged.
    [handleFile] keeps the part of the data URL after its comma as the
    file data; [loadPdf] strips white space from it, decodes it with
    [atob] and copies the code units into the byte array: for any bytes
    and any media type without a comma, the array handed to
    [getDocument] holds exactly the bytes of the file. *)
Theorem uploaded_bytes_reach_decoder (mediaType : jsstring) (bytes : list N) :
  Forall (fun c => c <> 44) mediaType ->
  Forall (fun b => b < 256) bytes ->
  base64Data (dataUrl mediaType bytes) = base64Encode bytes
  /\ decodedBytes (base64Data (dataUrl mediaType bytes)) = Some bytes.
Proof.
  intros Hm Hb.
  assert (Hcomma : Forall (fun c => (c =? 44) = false) (base64Encode bytes)).
  { eapply Forall_impl; [apply encode_plain|]. intros c [H | ->]; [|reflexivity].
    apply (plain_spec c H). }
  assert (E : base64Data (dataUrl mediaType bytes) = base64Encode bytes).
  { unfold base64Data, dataUrl.
    change (lit ";base64," ++ base64Encode bytes)
      with (lit ";base64" ++ 44 :: base64Encode bytes).
    rewrite !app_assoc, afterComma_app.
    - apply beforeComma_all, Hcomma.
    - apply Forall_app. split; [apply Forall_app; split|].
      + repeat constructor.
      + eapply Forall_impl; [exact Hm|]. intros c Hc. apply N.eqb_neq, Hc.
      + repeat constructor. }
  split; [exact E|]. rewrite E. unfold decodedBytes, cleanBase64.
  rewrite filter_all.
  2:{ eapply Forall_impl; [apply encode_plain|]. intros c [H | ->]; [|reflexivity].
      destruct (plain_spec c H) as (-> & _). reflexivity. }
  rewrite (atob_encode bytes Hb). f_equal. clear Hcomma E.
  induction Hb as [|b bs Hlt _ IH]; simpl; [reflexivity|].
  rewrite (N.mod_small b 256 Hlt), IH. reflexivity.
Qed.

Lemma uploaded_bytes_reach_decoder_witness :
  base64Data (dataUrl (lit "application/pdf") [37; 80; 68; 70; 45; 49; 46; 52; 10])
  = lit "JVBERi0xLjQK"
  /\ decodedBytes
       (base64Data (dataUrl (lit "application/pdf")
                      [37; 80; 68; 70; 45; 49; 46; 52; 10]))
     = Some [37; 80; 68; 70; 45; 49; 46; 52; 10].
Proof.
  apply (uploaded_bytes_reach_decoder (lit "application/pdf")
           [37; 80; 68; 70; 45; 49; 46; 52; 10]).
  - repeat constructor; discriminate.
  - repeat constructor.
Defined.

End Base64Facts.

(* ===================================================================== *)
(** ** The conversation *)
(* ===================================================================== *)

Module ChatFacts.
Import JsString Gemini Chat.

Lemma orElse_nonempty (x : option jsstring) (fallback : jsstring) :
  fallback <> [] -> orElse x fallback <> [].
Proof.
  intros H. destruct x as [[|c r]|]; simpl; [exact H | discriminate | exact H].
Qed.

Lemma reply_spec (r : Request) (o : Outcome) (now : N) :
  role (reply r o now) = model /\ text (reply r o now) <> [].
Proof.
  destruct r, o; simpl; (split; [reflexivity|]);
    first [apply orElse_nonempty; discriminate | discriminate].
Qed.

Lemma trim_nonempty (t : jsstring) : trim t <> [] -> t <> [].
Proof. intros H ->. apply H. reflexivity. Qed.

(** Appending the message whose turn it is. *)
Lemma alternates_snoc (ms : list ChatMessage) (m : ChatMessage) :
  (forall i x, ms !! i = Some x -> role x = turn i) ->
  role m = turn (length ms) ->
  forall i x, (ms ++ [m]) !! i = Some x -> role x = turn i.
Proof.
  intros H Hm i x Hi.
  apply lookup_app_Some in Hi as [Hi | (Hle & Hi)]; [apply (H i x Hi)|].
  apply list_lookup_singleton_Some in Hi as (E & <-).
  replace i with (length ms) by lia. exact Hm.
Qed.

Lemma step_conversation (e : Event) (c : Chat) :
  (forall i x, messages c !! i = Some x -> role x = turn i) ->
  isLoading c = Nat.even (length (messages c)) ->
  length (pending c) = (if isLoading c then 1 else 0) ->
  Forall (fun m => text m <> []) (messages c) ->
  (forall i x, messages (step e c) !! i = Some x -> role x = turn i)
  /\ isLoading (step e c) = Nat.even (length (messages (step e c)))
  /\ length (pending (step e c)) = (if isLoading (step e c) then 1 else 0)
  /\ Forall (fun m => text m <> []) (messages (step e c)).
Proof.
  intros Ha Hl Hp Ht.
  assert (Hsend : forall now t, t <> [] -> isLoading c = false ->
            forall req,
            let c' := mkChat (messages c ++ [mkChatMessage now user t None]) []
                        true (pending c ++ [req]) in
            (forall i x, messages c' !! i = Some x -> role x = turn i)
            /\ isLoading c' = Nat.even (length (messages c'))
            /\ length (pending c') = (if isLoading c' then 1 else 0)
            /\ Forall (fun m => text m <> []) (messages c')).
  { intros now t Hne Hload req c'. subst c'. cbn [messages isLoading pending].
    rewrite Hload in Hl, Hp.
    split; [|split; [|split]].
    - apply alternates_snoc; [exact Ha|]. unfold turn. rewrite <- Hl. reflexivity.
    - rewrite length_app. cbn [length]. rewrite Nat.add_1_r, Nat.even_succ.
      rewrite <- Nat.negb_even, <- Hl. reflexivity.
    - rewrite length_app, Hp. reflexivity.
    - apply Forall_app. split; [exact Ht|]. constructor; [exact Hne | constructor]. }
  destruct e as [value | arg now | now | k o now]; simpl.
  - repeat split; assumption.
  - unfold handleSend.
    destruct (trim (default (inputValue c) arg)) as [|a r] eqn:E;
      [repeat split; assumption|].
    destruct (isLoading c) eqn:Hload; [rewrite Hload in *; repeat split; assumption|].
    apply Hsend; [|reflexivity].
    apply trim_nonempty. rewrite E. discriminate.
  - unfold handleSearchCheck.
    destruct (trim (inputValue c)) as [|a r] eqn:E; [repeat split; assumption|].
    destruct (isLoading c) eqn:Hload; [rewrite Hload in *; repeat split; assumption|].
    apply Hsend; [discriminate | reflexivity].
  - unfold answers. destruct (pending c !! k) as [r|] eqn:Hk;
      [|repeat split; assumption].
    cbn [messages isLoading pending].
    destruct (reply_spec r o now) as (Hr & Hn).
    assert (Hload : isLoading c = true).
    { apply lookup_lt_Some in Hk. destruct (isLoading c); [reflexivity|].
      rewrite Hp in Hk. lia. }
    rewrite Hload in Hl, Hp.
    split; [|split; [|split]].
    + apply alternates_snoc; [exact Ha|]. unfold turn. rewrite <- Hl. exact Hr.
    + rewrite length_app. cbn [length]. rewrite Nat.add_1_r, Nat.even_succ.
      rewrite <- Nat.negb_even, <- Hl. reflexivity.
    + rewrite length_delete by (rewrite Hk; eexists; reflexivity).
      rewrite Hp. reflexivity.
    + apply Forall_app. split; [exact Ht|]. constructor; [exact Hn | constructor].
Qed.

(** X26: the conversation alternates.  Whatever is typed, sent,
    searched or answered, and in whatever order, the messages shown are
    the greeting of the model, then a message of the user, then one of
    the model, and so on; the component is loading exactly when the
    last message is one of the user, and then awaits exactly one call,
    so that every message of the user gets one reply and none can be
    sent in between; and no message is empty. *)
Theorem conversation_alternates (es : list Event) :
  let c := run es initial in
  (forall i x, messages c !! i = Some x -> role x = turn i)
  /\ isLoading c = Nat.even (length (messages c))
  /\ length (pending c) = (if isLoading c then 1 else 0)
  /\ Forall (fun m => text m <> []) (messages c).
Proof.
  assert (H0 : (forall i x, messages initial !! i = Some x -> role x = turn i)
               /\ isLoading initial = Nat.even (length (messages initial))
               /\ length (pending initial) = (if isLoading initial then 1 else 0)
               /\ Forall (fun m => text m <> []) (messages initial)).
  { split; [|split; [reflexivity | split; [reflexivity|]]].
    - intros [|i] x Hi; [|discriminate]. injection Hi as <-. reflexivity.
    - constructor; [discriminate | constructor]. }
  revert H0. generalize initial.
  induction es as [|e es IH]; intros c (Ha & Hl & Hp & Ht); simpl.
  - repeat split; assumption.
  - apply IH. apply step_conversation; assumption.
Qed.

End ChatFacts.

(* ===================================================================== *)
(** ** The viewer between its mount and its unmount *)
(* ===================================================================== *)

Module ApplicationFacts.
Import JsNumber JsString Viewer ViewerSpec Runs ViewerFacts LocationFacts
  RenderFacts Application.
Import Location.
Local Open Scope string_scope.

(** Only a reference clicked and another document change the props. *)
Lemma step_elsewhere_props (e : Event) (w : World) :
  elsewhere e -> props (step e w) = props w.
Proof.
  intros He.
  destruct e as [ |data mime|n|name| |delta|k b|c h|t|ref]; simpl in He;
    try contradiction; unfold step.
  - destruct (workerReady (state w)); [reflexivity|].
    unfold afterLoadEffect. rewrite props_commit.
    destruct (loadEffect_frame (withState (setWorkerReady true (state w)) w))
      as (_ & _ & ->). reflexivity.
  - destruct (pendingLoads w); [reflexivity|].
    rewrite props_commit. reflexivity.
  - destruct (pendingLoads w); [reflexivity|].
    rewrite props_commit. reflexivity.
  - destruct (error (state w)); [reflexivity|].
    destruct (isPdf w); [reflexivity|].
    rewrite props_commit. reflexivity.
  - destruct (error (state w)); [reflexivity|].
    destruct (rerenderAll _ _ _ _ _) as [[ps ts] cs]. reflexivity.
  - unfold intersects.
    destruct (pages w !! k) as [p|]; [|reflexivity].
    destruct (observing p && b); [|reflexivity].
    destruct (isVisible p); [reflexivity|].
    destruct (runEffect _ _ _ _ _) as [ts cs]. reflexivity.
  - destruct (calls w !! c) as [call|]; [|reflexivity].
    destruct (callAt call); try reflexivity.
    unfold gotPage. destruct (isMounted _ _); reflexivity.
  - unfold taskCompletes.
    destruct (tasks w !! t) as [T|]; [|reflexivity].
    destruct (taskStatus T); reflexivity.
Qed.

Lemma run_elsewhere_props (es : list Event) (w : World) :
  Forall elsewhere es -> props (run es w) = props w.
Proof.
  revert w. induction es as [|e es IH]; intros w Hes; simpl; [reflexivity|].
  inversion Hes as [|? ? He Hes']; subst.
  rewrite (IH _ Hes'). apply step_elsewhere_props, He.
Qed.

(** C7, where the code departs from it: a reference clicked a second
    time scrolls nothing.  After a jump, whatever the reader does in
    between short of clicking another reference (scrolling, zooming,
    pages being rendered), the same jump again leaves the viewer exactly
    as it is: [handleJumpToLocation] stores the location the viewer
    already has, no dep of the location effect changes, and its body,
    the only caller of [scrollIntoView], does not run. *)
Theorem repeated_jump_scrolls_nothing (ref : jsstring) (w : World)
  (between : list Event) :
  Forall elsewhere between ->
  let once := step (Jump ref) w in
  let later := run between once in
  step (Jump ref) later = later
  /\ scrolled (step (Jump ref) later) = scrolled later.
Proof.
  intros Hes once later.
  assert (H : step (Jump ref) later = later).
  { apply jump_again. unfold later.
    rewrite (run_elsewhere_props between once Hes).
    unfold once. apply jump_frame. }
  split; [exact H | rewrite H; reflexivity].
Qed.

Lemma repeated_jump_scrolls_nothing_witness :
  scrolled (step (Jump (lit "page=3")) threePages) = [3]
  /\ designated
       (step (Jump (lit "page=3"))
          (run scrolledAway (step (Jump (lit "page=3")) threePages)))
     = Some 3%Z
  /\ scrolled
       (step (Jump (lit "page=3"))
          (run scrolledAway (step (Jump (lit "page=3")) threePages)))
     = [3].
Proof.
  split; [vm_compute; reflexivity|].
  split; [vm_compute; reflexivity|].
  destruct (repeated_jump_scrolls_nothing (lit "page=3") threePages
              scrolledAway) as (_ & H).
  - repeat (constructor; [exact I |]). constructor.
  - etransitivity; [exact H | vm_compute; reflexivity].
Defined.

(** What an image viewer keeps through every event of its session: it
    is no PDF viewer, no load is pending, the kind of error is the
    initial one, and the only error is the one of the image. *)
Lemma step_image_viewer (e : Event) (w : World) :
  sameSession e -> isPdf w = false -> pendingLoads w = 0 ->
  errorType (state w) = generic ->
  (error (state w) = None
   \/ error (state w) = Some "Image could not be loaded.") ->
  isPdf (step e w) = false /\ pendingLoads (step e w) = 0
  /\ errorType (state (step e w)) = generic
  /\ (error (state (step e w)) = None
      \/ error (state (step e w)) = Some "Image could not be loaded.").
Proof.
  intros He Hi Hp Hk Herr.
  split.
  { unfold isPdf in *. rewrite (UploadFacts.step_mimeType e w He). exact Hi. }
  destruct e as [ |data mime|n|name| |delta|k b|c h|t|ref]; simpl in He;
    try contradiction; unfold step.
  - destruct (workerReady (state w)); [repeat split; assumption|].
    unfold afterLoadEffect. rewrite state_commit.
    destruct (locationEffect_frame
                (withState (setWorkerReady true (state w)) w)
                (reconcile (loadEffect (withState (setWorkerReady true (state w)) w))))
      as (_ & _ & _ & _ & _ & ->).
    destruct (reconcile_frame
                (loadEffect (withState (setWorkerReady true (state w)) w)))
      as (_ & _ & -> & _).
    unfold loadEffect. cbn [props withState].
    destruct (fileData (props w)); [repeat split; assumption|].
    replace (isPdf (withState (setWorkerReady true (state w)) w)) with false
      by (symmetry; exact Hi).
    cbn. repeat split; [exact Hp | exact Hk | left; reflexivity].
  - rewrite Hp. repeat split; assumption.
  - rewrite Hp. repeat split; assumption.
  - destruct Herr as [Hn|Hs].
    + rewrite Hn, Hi, state_commit.
      destruct (locationEffect_frame w
                  (reconcile (withState
                                (setError (Some "Image could not be loaded.")
                                   (state w)) w)))
        as (_ & _ & _ & _ & _ & ->).
      destruct (reconcile_frame
                  (withState (setError (Some "Image could not be loaded.")
                                (state w)) w))
        as (_ & _ & -> & _).
      cbn. repeat split; [exact Hp | exact Hk | right; reflexivity].
    + rewrite Hs. repeat split; [exact Hp | exact Hk | right; exact Hs].
  - destruct Herr as [Hn|Hs].
    + rewrite Hn. destruct (rerenderAll _ _ _ _ _) as [[ps ts] cs]. cbn.
      repeat split; [exact Hp | exact Hk | left; exact Hn].
    + rewrite Hs. repeat split; [exact Hp | exact Hk | right; exact Hs].
  - unfold intersects.
    destruct (pages w !! k) as [p|]; [|repeat split; assumption].
    destruct (observing p && b); [|repeat split; assumption].
    destruct (isVisible p); [repeat split; assumption|].
    destruct (runEffect _ _ _ _ _) as [ts cs]. repeat split; assumption.
  - destruct (calls w !! c) as [call|]; [|repeat split; assumption].
    destruct (callAt call); try (repeat split; assumption).
    unfold gotPage. destruct (isMounted _ _); repeat split; assumption.
  - unfold taskCompletes.
    destruct (tasks w !! t) as [T|]; [|repeat split; assumption].
    destruct (taskStatus T); repeat split; assumption.
  - destruct (locationEffect_frame w
                (withProps (mkProps (fileData (props w)) (mimeType (props w))
                              (Some (handleJumpToLocation ref))) w))
      as (_ & -> & _ & _ & _ & ->). repeat split; assumption.
Qed.

(** The viewer at its mount: nothing loaded, no error, no estimate, no
    page, no task, no activation, no location. *)
Lemma mount_clean (data : jsstring) (mime : string) :
  let w := mount data mime in
  (pdfDoc (state w) = None /\ numPages (state w) = 0
   /\ estimatedPageHeight (state w) = None /\ error (state w) = None)
  /\ (pages w = [] /\ tasks w = [] /\ calls w = []
      /\ location (props w) = None)
  /\ pendingLoads w = 0 /\ errorType (state w) = generic
  /\ mimeType (props w) = mime.
Proof.
  intros w. subst w.
  unfold mount, afterLoadEffect, locationEffect, reconcile, renderedPages,
    loadEffect, isPdf.
  destruct (String.eqb mime "application/pdf") eqn:Em;
    destruct data as [|c data];
    repeat (progress (cbn; rewrite ?Em)); repeat split.
Qed.

(** C10: an image that fails to load puts the viewer on the error
    screen with the generic kind.  For every viewer mounted for another
    media type than PDF, whatever happened in it since its mount
    (the worker initialising, zooms, references clicked, the image
    having failed before), when [onError] of the image fires the error
    is the message of the image, the kind is generic, the screen is the
    error screen, and no page is rendered. *)
Theorem image_failure_shows_error_screen (data : jsstring) (mime : string)
  (es : list Event) :
  mime <> "application/pdf" -> Forall sameSession es ->
  let w := step ImageFails (run es (mount data mime)) in
  error (state w) = Some "Image could not be loaded."
  /\ errorType (state w) = generic
  /\ loadState (state w) = Error generic
  /\ renderedPages w = 0.
Proof.
  intros Hm Hes w.
  assert (H0 : isPdf (mount data mime) = false
               /\ pendingLoads (mount data mime) = 0
               /\ errorType (state (mount data mime)) = generic
               /\ (error (state (mount data mime)) = None
                   \/ error (state (mount data mime))
                      = Some "Image could not be loaded.")).
  { destruct (mount_clean data mime)
      as ((_ & _ & _ & He) & _ & Hp & Hk & Hmt).
    unfold isPdf. rewrite Hmt.
    destruct (String.eqb_spec mime "application/pdf"); [contradiction|].
    repeat split; [exact Hp | exact Hk | left; exact He]. }
  assert (H1 : forall v, isPdf v = false /\ pendingLoads v = 0
                 /\ errorType (state v) = generic
                 /\ (error (state v) = None
                     \/ error (state v) = Some "Image could not be loaded.")
                 -> isPdf (run es v) = false /\ pendingLoads (run es v) = 0
                    /\ errorType (state (run es v)) = generic
                    /\ (error (state (run es v)) = None
                        \/ error (state (run es v))
                           = Some "Image could not be loaded.")).
  { clear H0 w. induction es as [|e es IH]; intros v Hv; simpl; [exact Hv|].
    inversion Hes as [|? ? He Hes']; subst.
    apply (IH Hes'). destruct Hv as (V1 & V2 & V3 & V4).
    apply step_image_viewer; assumption. }
  destruct (H1 _ H0) as (Hi & _ & Hk & Herr). clear H0 H1.
  subst w. unfold step. destruct Herr as [Hn|Hs].
  - rewrite Hn, Hi. unfold renderedPages, loadState.
    rewrite state_commit. cbn. rewrite Hk. repeat split.
  - rewrite Hs. unfold renderedPages, loadState. rewrite Hs, Hk.
    repeat split.
Qed.

Lemma image_failure_shows_error_screen_witness :
  loadState
    (state (step ImageFails
              (run imageSession (mount (lit "iVBORw0KGgo=") "image/png"))))
  = Error generic.
Proof.
  apply (image_failure_shows_error_screen (lit "iVBORw0KGgo=") "image/png"
           imageSession).
  - discriminate.
  - repeat (constructor; [exact I |]). constructor.
Defined.












(** Where [registered] fails: when the reader zooms while the first
    [renderPage] of a page still waits for [getPage], both activations
    start a task and the ref holds the later one only.  The earlier task
    is in no ref, and the unmount does not reach it. *)
Lemma overlap_leaves_task_unregistered :
  let w := run (take 2 bothRender)
             (run zoomBeforeGetPage
                (mount (lit "JVBERi0xLjQK") "application/pdf")) in
  registered w = false
  /\ map renderTaskRef (pages w) = [Some 1]
  /\ map taskStatus (tasks (unmountViewer w)) = [Painting; Cancelled].
Proof. vm_compute. repeat split. Qed.

End ApplicationFacts.
